(** * Monitor de Calidad del Aire CDMX: the acquisition, classification and
    aggregation pipeline of [app.py], embedded and verified.

    Part I embeds the program, in the order of the source:
    - the threshold functions [calidad_co] ... [calidad_no] and
      [evaluar_calidad_aire] with its inner [calidad_global];
    - the two fetchers [get_sinaica_data] and [get_openaq_data], over an
      explicit description of what the HTTP layer answered;
    - the station catalogue and the scan loop that fills [resultados] and
      [datos_para_mapa];
    - Streamlit's [st.cache_data] decorator around the fetchers;
    - the helpers [get_color_calidad], [crear_mapa] and
      [mostrar_alerta_calidad], the quality filter and the summary counts.
    Python floats are IEEE-754 doubles, here Rocq's primitive floats; a
    DataFrame is the list of its rows; exceptions are a result type, and the
    scan loop runs in a state-and-exception monad.  The library calls
    (pandas, requests, Streamlit) are embedded by what their documentation
    says they do.

    Part II proves the properties C1 to C10 of the specification, or, where
    the program differs, states what the program does instead next to a
    concrete run that shows the difference.  It then proves further
    properties of the program, X1 to X11: of the thresholds, the
    classification, the most recent reading of each source, the cache, the
    scan and what is drawn from it. *)

From Stdlib Require Import Floats ZArith String List Bool Lia.
From Stdlib Require Sorted OrderedTypeEx.
From stdpp Require Import base option gmap strings list.
Import ListNotations.

Set Warnings "-inexact-float".

Local Open Scope string_scope.
Local Open Scope list_scope.
Local Open Scope Z_scope.

(* ===================================================================== *)
(** * Python values, exceptions and diagnostics *)
(* ===================================================================== *)

Notation "x <=. y" := (PrimFloat.leb x y) (at level 70, no associativity).
Notation "x <. y" := (PrimFloat.ltb x y) (at level 70, no associativity).

(** The exceptions the pipeline can meet.  All but [KeyboardInterrupt]
    derive from Python's [Exception], which is what the handlers catch. *)
Inductive excepcion :=
| RequestException            (* requests: timeout, connection error *)
| HTTPError (status : Z)      (* response.raise_for_status() *)
| JSONDecodeError             (* json.loads / response.json() *)
| KeyError (k : string)
| IndexError
| TypeError
| ValueError
| KeyboardInterrupt.

Definition es_Exception (e : excepcion) : bool :=
  match e with KeyboardInterrupt => false | _ => true end.

Inductive resultado (A : Type) :=
| Ok (a : A)
| Lanza (e : excepcion).
Arguments Ok {A} a.
Arguments Lanza {A} e.

#[global] Instance resultado_ret : MRet resultado := fun A a => Ok a.
#[global] Instance resultado_bind : MBind resultado := fun A B f m =>
  match m with Ok a => f a | Lanza e => Lanza e end.

(** [try: cuerpo  except Exception as e: manejador e] *)
Definition try_except {A} (cuerpo : resultado A)
    (manejador : excepcion -> resultado A) : resultado A :=
  match cuerpo with
  | Ok a => Ok a
  | Lanza e => if es_Exception e then manejador e else Lanza e
  end.

(** What [st.error] / [st.warning] put on the page. *)
Inductive diagnostico :=
| ErrorSinaica (e : excepcion)                  (* "Error obteniendo datos SINAICA: e" *)
| ErrorOpenaq (e : excepcion)                   (* "Error obteniendo datos OpenAQ: e" *)
| ErrorConsulta (fuente estacion : string) (e : excepcion)
                                                (* "Error consultando F para E: e" *)
| AvisoMapa (fuente estacion : string) (e : excepcion).
                                (* "Error procesando datos de mapa para E (F): e" *)

(* ===================================================================== *)
(** * Funciones de evaluación de calidad *)
(* ===================================================================== *)

(** The three strings "Buena", "Regular", "Mala"; Python's [None] is the
    [None] of [option calidad]. *)
Inductive calidad := Buena | Regular | Mala.

#[global] Instance calidad_eq_dec : EqDecision calidad.
Proof. solve_decision. Defined.

(** A value handed to a threshold function: [None] or a float.  [pd.isna]
    holds of [None] and of NaN. *)
Definition pd_isna (v : option float) : bool :=
  match v with None => true | Some x => PrimFloat.is_nan x end.

(** [v <= c] once [pd.isna v] has been ruled out. *)
Definition py_le (v : option float) (c : float) : bool :=
  match v with Some x => x <=. c | None => false end.

Definition calidad_co (co : option float) : option calidad :=
  if pd_isna co then None
  else if py_le co 5.5 then Some Buena
  else if py_le co 11 then Some Regular
  else Some Mala.

Definition calidad_o3 (o3 : option float) : option calidad :=
  if pd_isna o3 then None
  else if py_le o3 0.055 then Some Buena
  else if py_le o3 0.095 then Some Regular
  else Some Mala.

Definition calidad_no2 (no2 : option float) : option calidad :=
  if pd_isna no2 then None
  else if py_le no2 0.10 then Some Buena
  else if py_le no2 0.21 then Some Regular
  else Some Mala.

Definition calidad_nox (nox : option float) : option calidad :=
  if pd_isna nox then None
  else if py_le nox 0.10 then Some Buena
  else if py_le nox 0.20 then Some Regular
  else Some Mala.

Definition calidad_no (no : option float) : option calidad :=
  if pd_isna no then None
  else if py_le no 0.05 then Some Buena
  else if py_le no 0.15 then Some Regular
  else Some Mala.

(** The table of section 4.5 of the specification, to compare the five
    functions with. *)
Inductive contaminante := CO | O3 | NO2 | NOx | NO.

Definition clasificador (p : contaminante) : option float -> option calidad :=
  match p with
  | CO => calidad_co | O3 => calidad_o3 | NO2 => calidad_no2
  | NOx => calidad_nox | NO => calidad_no
  end.

Definition cota_buena (p : contaminante) : float :=
  match p with
  | CO => 5.5 | O3 => 0.055 | NO2 => 0.10 | NOx => 0.10 | NO => 0.05
  end%float.

Definition cota_regular (p : contaminante) : float :=
  match p with
  | CO => 11 | O3 => 0.095 | NO2 => 0.21 | NOx => 0.20 | NO => 0.15
  end%float.

(* ===================================================================== *)
(** * Wide tables *)
(* ===================================================================== *)

(** The index of a wide row: [fecha] is the text SINAICA sends, or the
    calendar day (as an ordinal) that [.dt.date] gives for OpenAQ. *)
Inductive fecha_t := FechaTexto (s : string) | FechaDia (d : Z).

Definition indice : Type := fecha_t * Z.

(** A DataFrame in wide form: its rows in index order, each mapping every
    column name to its cell. *)
Definition tabla (C : Type) : Type := list (indice * gmap string C).

(** [df.empty]: no rows, or no columns. *)
Definition empty {C} (df : tabla C) : bool :=
  match df with
  | [] => true
  | (_, cols) :: _ => bool_decide (dom cols = (∅ : gset string))
  end.

(** [df is None or df.empty] *)
Definition sin_datos {C} (df : option (tabla C)) : bool :=
  match df with None => true | Some t => empty t end.

(** Cells of a table once [evaluar_calidad_aire] and the scan loop have added
    their columns to the float64 columns of the pivot. *)
Inductive celda :=
| Num (x : float)            (* a measurement; NaN where the pivot has no value *)
| Cal (c : option calidad)   (* written by a threshold function or by [calidad_global] *)
| Txt (s : string).          (* "fuente", "estacion" *)

(* ===================================================================== *)
(** * evaluar_calidad_aire *)
(* ===================================================================== *)

Definition orden (x : calidad) : Z :=
  match x with Buena => 1 | Regular => 2 | Mala => 3 end.

(** [orden[x]] for a cell [x]: the dictionary has the three ratings only. *)
Definition orden_de (x : celda) : resultado Z :=
  match x with
  | Cal (Some c) => Ok (orden c)
  | _ => Lanza (KeyError "orden")
  end.

(** [row.get(k)]: the cell, or [None] when the row has no such column. *)
Definition row_get (row : gmap string celda) (k : string) : celda :=
  default (Cal None) (row !! k).

(** [c is not None] *)
Definition is_not_None (c : celda) : bool :=
  match c with Cal None => false | _ => true end.

(** [max(calidades, key=lambda x: orden[x])] on a non-empty list: the key of
    every item is computed in turn, and a later item replaces the current
    maximum only when its key is strictly greater. *)
Fixpoint max_desde (mejor : celda) (k_mejor : Z) (resto : list celda)
  : resultado celda :=
  match resto with
  | [] => Ok mejor
  | x :: resto' =>
      k ← orden_de x;
      if k_mejor <? k then max_desde x k resto' else max_desde mejor k_mejor resto'
  end.

Definition py_max (calidades : list celda) : resultado celda :=
  match calidades with
  | [] => Lanza ValueError
  | x :: resto => k ← orden_de x; max_desde x k resto
  end.

Definition calidad_global (row : gmap string celda) : resultado celda :=
  let calidades :=
    [ row_get row "calidad_CO";
      row_get row "calidad_O3";
      row_get row "calidad_NO2";
      row_get row "calidad_NOx";
      row_get row "calidad_NO" ] in
  let calidades := List.filter is_not_None calidades in
  match calidades with
  | [] => Ok (Cal None)
  | _ => py_max calidades
  end.

(** [if col in df.columns: df[dst] = df[col].apply(f)].  The columns read
    (CO, O3, NO2, NOX, NO) are never among those written (the five calidad
    columns), so the value read is the float of the pivot. *)
Definition aplicar (f : option float -> option calidad) (col dst : string)
    (lectura : gmap string float) (df : gmap string celda) : gmap string celda :=
  match lectura !! col with
  | Some x => <[dst := Cal (f (Some x))]> df
  | None => df
  end.

Definition evaluar_fila (lectura : gmap string float)
  : resultado (gmap string celda) :=
  let df := Num <$> lectura in
  let df := aplicar calidad_co "CO" "calidad_CO" lectura df in
  let df := aplicar calidad_o3 "O3" "calidad_O3" lectura df in
  let df := aplicar calidad_no2 "NO2" "calidad_NO2" lectura df in
  let df := aplicar calidad_nox "NOX" "calidad_NOx" lectura df in
  let df := aplicar calidad_no "NO" "calidad_NO" lectura df in
  g ← calidad_global df;
  Ok (<["calidad_global" := g]> df).

Definition evaluar_calidad_aire (df : option (tabla float))
  : resultado (option (tabla celda)) :=
  match df with
  | None => Ok None
  | Some df =>
      if empty df then Ok None
      else
        filas ← mapM (fun '(idx, lectura) =>
                        fila ← evaluar_fila lectura; Ok (idx, fila)) df;
        Ok (Some filas)
  end.

(** The specification's overall rating: the worst of the known ratings under
    Good < Moderate < Poor, Unknown when none is known. *)
Definition peor2 (a b : calidad) : calidad :=
  if orden a <? orden b then b else a.

Definition peor (l : list (option calidad)) : option calidad :=
  foldr (fun c acc =>
           match c, acc with
           | Some x, Some y => Some (peor2 x y)
           | Some x, None => Some x
           | None, _ => acc
           end) None l.

(** The rating a classified row carries for a pollutant column. *)
Definition calificacion (fila : gmap string celda) (col : string)
  : option calidad :=
  match fila !! col with Some (Cal c) => c | _ => None end.

Definition columnas_calidad : list string :=
  ["calidad_CO"; "calidad_O3"; "calidad_NO2"; "calidad_NOx"; "calidad_NO"].

(** The body of [calidad_global] on a list of ratings. *)
Definition global_de (calidades : list celda) : resultado celda :=
  match List.filter is_not_None calidades with
  | [] => Ok (Cal None)
  | x :: l => py_max (x :: l)
  end.

(** The ratings that [evaluar_calidad_aire] computes from the columns of a
    reading, in the order of [columnas_calidad]. A column that the reading
    lacks gives Unknown. *)
Definition calificar (lectura : gmap string float) : list (option calidad) :=
  [ x ← lectura !! "CO"; calidad_co (Some x);
    x ← lectura !! "O3"; calidad_o3 (Some x);
    x ← lectura !! "NO2"; calidad_no2 (Some x);
    x ← lectura !! "NOX"; calidad_nox (Some x);
    x ← lectura !! "NO"; calidad_no (Some x) ].

(** No parameter of the reading bears the name of a rating column. *)
Definition limpia (lectura : gmap string float) : Prop :=
  Forall (fun col => lectura !! col = None) columnas_calidad.

(* ===================================================================== *)
(** * What the HTTP layer answers *)
(* ===================================================================== *)

(** One element of a SINAICA row sequence once decoded: an explicit null,
    an object, or any other JSON value.  Of an object,
    [DataFrame(filas, columns=columnas_base)] keeps the listed fields; the
    four that the pivot reads are embedded: the parameter and the date as
    text, the hour as an integer, the value as a float; a field that is
    missing or null is [None], resp. NaN. *)
Record registro := {
  parametro : option string;
  fecha : option string;
  hora : option Z;
  valorAct : float
}.

Inductive elemento := Nulo | Dict (row : registro) | Otro.

(** The value under a key of a blob: a JSON array, or anything else. *)
Inductive valor_json := Lista (data : list elemento) | NoLista.

(** What [re.search] and [json.loads] make of one of the two literals. *)
Inductive bloque :=
| SinCoincidencia                        (* the pattern does not match *)
| JsonInvalido                           (* it matches, json.loads raises *)
| Objeto (d : gmap string valor_json).   (* it matches and decodes *)

Record pagina := { conts : bloque; meteo : bloque }.

(** [requests.get(url, timeout=10).text]: a page, whatever its status, or
    an exception of requests (timeout, no connection). *)
Inductive respuesta_html := Html (html : pagina) | SinRespuesta.

(** One entry of a sensor's "results", as [pd.json_normalize] flattens it;
    [latest_datetime_local] is given as [pd.to_datetime] reads it, by its
    calendar day (an ordinal) and its hour. *)
Record lectura_sensor := {
  parameter_name : string;
  latest_value : float;
  latest_datetime_local : Z * Z
}.

(** A call of the REST API: [requests.get] raises, or [raise_for_status]
    does, or [response.json()] does, or the body decodes to [A], or it
    decodes to JSON without a field that the code indexes. *)
Inductive respuesta_json (A : Type) :=
| Json (a : A)
| FalloRed
| Estado (status : Z)
| NoJson
| SinCampo (k : string).
Arguments Json {A} a.
Arguments FalloRed {A}.
Arguments Estado {A} status.
Arguments NoJson {A}.
Arguments SinCampo {A} k.

(** The two providers.  A location answers with its "results", each with the
    ids of its "sensors". *)
Record mundo := {
  estacion_php : Z -> respuesta_html;
  v3_locations : Z -> string -> respuesta_json (list (list Z));
  v3_sensors : Z -> string -> respuesta_json (list lectura_sensor)
}.

Definition get_text (r : respuesta_html) : resultado pagina :=
  match r with
  | Html html => Ok html
  | SinRespuesta => Lanza RequestException
  end.

Definition get_json {A} (r : respuesta_json A) : resultado A :=
  match r with
  | Json a => Ok a
  | FalloRed => Lanza RequestException
  | Estado status => Lanza (HTTPError status)
  | NoJson => Lanza JSONDecodeError
  | SinCampo k => Lanza (KeyError k)
  end.

(* ===================================================================== *)
(** * pivot_table *)
(* ===================================================================== *)

(** A long-form row whose three grouping keys are present. *)
Record observacion := {
  o_indice : indice;
  o_parametro : string;
  o_valor : float
}.

Definition fecha_cmp (a b : fecha_t) : comparison :=
  match a, b with
  | FechaTexto s, FechaTexto t => String.compare s t
  | FechaDia d, FechaDia e => Z.compare d e
  | FechaTexto _, FechaDia _ => Lt
  | FechaDia _, FechaTexto _ => Gt
  end.

Definition indice_cmp (a b : indice) : comparison :=
  match fecha_cmp a.1 b.1 with
  | Eq => Z.compare a.2 b.2
  | c => c
  end.

Definition indice_eqb (a b : indice) : bool :=
  match indice_cmp a b with Eq => true | _ => false end.

(** The sorted index of the pivot, without repetitions. *)
Fixpoint insertar (k : indice) (l : list indice) : list indice :=
  match l with
  | [] => [k]
  | x :: l' =>
      match indice_cmp k x with
      | Lt => k :: l
      | Eq => l
      | Gt => x :: insertar k l'
      end
  end.

Definition indices (obs : list observacion) : list indice :=
  foldr (fun o => insertar (o_indice o)) [] obs.

(** Every parameter with a value somewhere is a column; NaN fills the cells
    that have no value. *)
Definition columnas (obs : list observacion) : gmap string float :=
  foldr (fun o m => <[o_parametro o := nan]> m) ∅ obs.

(** The values of each parameter at index [k], in row order. *)
Definition grupos (k : indice) (obs : list observacion)
  : gmap string (list float) :=
  foldr (fun o m =>
           if indice_eqb (o_indice o) k
           then <[o_parametro o := o_valor o :: default [] (m !! o_parametro o)]> m
           else m) ∅ obs.

(** [str.upper()] on ASCII text: the letters a-z become A-Z and every
    other character stays.  Python also maps the letters beyond ASCII
    (an accented e becomes its capital), which this function leaves as
    they are: names with such letters are outside what it embeds, and a
    theorem that depends on the names asks for ASCII ones, see
    [es_ascii]. *)
Definition upper_ascii (c : Ascii.ascii) : Ascii.ascii :=
  let n := Ascii.nat_of_ascii c in
  if ((97 <=? n)%nat && (n <=? 122)%nat)%bool
  then Ascii.ascii_of_nat (n - 32) else c.

Fixpoint str_upper (s : string) : string :=
  match s with
  | EmptyString => EmptyString
  | String c s' => String (upper_ascii c) (str_upper s')
  end.

(** [Series.max()] on integers; [None] stands for the NaN of an empty one. *)
Definition max_Z (l : list Z) : option Z :=
  match l with
  | [] => None
  | x :: l' => Some (foldl Z.max x l')
  end.

(** An observation has a value when it is not NaN. *)
Definition con_valor (o : observacion) : bool :=
  negb (PrimFloat.is_nan (o_valor o)).

(** The values grouped under a parameter at an index. *)
Definition valores_en (k : indice) (p : string) (obs : list observacion)
  : list float :=
  o_valor <$>
    List.filter (fun o => indice_eqb (o_indice o) k && String.eqb (o_parametro o) p)
                obs.

(** The plain mean, the sum from left to right over the count, for
    evaluating the fetchers on given payloads.  pandas sums with
    compensation, so that the two can differ in the last digit on a group
    of several values, and on a negative zero; the payloads evaluated here
    give every group a single value other than zero, which any mean
    returns as it is.  No theorem about the fetchers depends on it: they
    take [aggfunc] as a parameter. *)
Definition mean (l : list float) : float :=
  (fold_left PrimFloat.add l 0 / PrimFloat.of_uint63 (Uint63.of_Z (Z.of_nat (length l))))%float.

(** What a fetcher returns: a frame or [None], with the messages it has put
    on the page, unless it raises. *)
Definition respuesta_t : Type :=
  resultado (option (tabla float) * list diagnostico).

Section Obtencion.

(** [aggfunc], which pandas defaults to the mean. *)
Variable aggfunc : list float -> float.

(** [pivot_table(index=["fecha","hora"], columns="parametro",
    values="valorAct")] over the rows whose keys are present: one row per
    (fecha, hora) in increasing order, one column per parameter; NaN values
    are skipped, and groups, rows and columns left without a value are
    dropped, so that rows without any value give a frame without rows. *)
Definition pivot_table (filas : list observacion) : tabla float :=
  let obs := List.filter con_valor filas in
  map (fun k => (k, (aggfunc <$> grupos k obs) ∪ columnas obs)) (indices obs).

(** [df.tail(1)] *)
Definition tail1 {C} (df : tabla C) : tabla C :=
  match reverse df with
  | [] => []
  | fila :: _ => [fila]
  end.

(* =================================================================== *)
(** * get_sinaica_data *)
(* =================================================================== *)

Definition fila_nula (key : string) : registro :=
  {| parametro := Some key; fecha := None; hora := None; valorAct := nan |}.

(** The inner loop: [filas] for one key. *)
Definition filas_de (key : string) (data : list elemento) : list registro :=
  flat_map (fun row =>
              match row with
              | Nulo => [fila_nula key]
              | Dict row => [row]
              | Otro => []
              end) data.

(** The outer loop over the keys: the frames appended to [dfs]. *)
Definition leer_claves (claves : list string) (d : gmap string valor_json)
  : list (list registro) :=
  flat_map (fun key =>
              match d !! key with
              | Some (Lista data) => [filas_de key data]
              | _ => []
              end) claves.

Definition claves_conts : list string :=
  ["CO"; "NO"; "NO2"; "NOx"; "O3"; "PM10"; "PM2.5"; "SO2"].

Definition claves_meteo : list string := ["DV"; "HR"; "TMP"; "VV"].

(** [if match: ... json.loads ... for key in claves: ...] *)
Definition leer_bloque (claves : list string) (b : bloque)
  : resultado (list (list registro)) :=
  match b with
  | SinCoincidencia => Ok []
  | JsonInvalido => Lanza JSONDecodeError
  | Objeto d => Ok (leer_claves claves d)
  end.

(** The grouping of the pivot drops a row that lacks one of its keys. *)
Definition con_claves (r : registro) : option observacion :=
  p ← parametro r; f ← fecha r; h ← hora r;
  Some {| o_indice := (FechaTexto f, h); o_parametro := p;
          o_valor := valorAct r |}.

Definition sinaica_cuerpo (w : mundo) (estId : Z)
  : resultado (option (tabla float)) :=
  html ← get_text (estacion_php w estId);
  dfs1 ← leer_bloque claves_conts (conts html);
  dfs2 ← leer_bloque claves_meteo (meteo html);
  let dfs := dfs1 ++ dfs2 in
  match dfs with
  | [] => Ok None
  | _ =>
      let df_total := concat dfs in
      let df_wide := pivot_table (omap con_claves df_total) in
      Ok (Some (tail1 df_wide))
  end.

Definition get_sinaica_data (w : mundo) (estId : Z) : respuesta_t :=
  try_except (df ← sinaica_cuerpo w estId; Ok (df, []))
             (fun e => Ok (None, [ErrorSinaica e])).

(* =================================================================== *)
(** * get_openaq_data *)
(* =================================================================== *)

(** [df_sensor[["parameter_name", "latest_value",
    "latest_datetime_local"]]]: with no entry in "results" the normalized
    frame has no column at all, and the selection raises. *)
Definition df_sensor_clean (results : list lectura_sensor)
  : resultado (list lectura_sensor) :=
  match results with
  | [] => Lanza (KeyError "parameter_name")
  | _ => Ok results
  end.

(** [.dt.date], [.dt.hour] and [.str.upper()] on the concatenated frame. *)
Definition fila_openaq (r : lectura_sensor) : observacion :=
  {| o_indice := (FechaDia (latest_datetime_local r).1,
                  (latest_datetime_local r).2);
     o_parametro := str_upper (parameter_name r);
     o_valor := latest_value r |}.

Definition dia (o : observacion) : Z :=
  match (o_indice o).1 with FechaDia d => d | FechaTexto _ => 0 end.

(** One turn of the loop over the sensors, up to the frame appended. *)
Definition sensor (w : mundo) (API_KEY : string) (SENSOR_ID : Z)
  : resultado (list lectura_sensor) :=
  sensor_data ← get_json (v3_sensors w SENSOR_ID API_KEY);
  df_sensor_clean sensor_data.

(** The rows of the latest hour of the latest day:
    [fecha_max], [hora_max] and the selection [df_ult]. *)
Definition df_ult (df_total : list observacion) : list observacion :=
  match max_Z (map dia df_total) with
  | None => []
  | Some fecha_max =>
      let del_dia := List.filter (fun o => dia o =? fecha_max) df_total in
      match max_Z (map (fun o => (o_indice o).2) del_dia) with
      | None => []
      | Some hora_max =>
          List.filter (fun o => (dia o =? fecha_max)
                                && ((o_indice o).2 =? hora_max))
                      df_total
      end
  end.

Definition openaq_cuerpo (w : mundo) (estId : Z) (API_KEY : string)
  : resultado (option (tabla float)) :=
  data ← get_json (v3_locations w estId API_KEY);
  sensors ← match data with
            | [] => Lanza IndexError
            | results0 :: _ => Ok results0
            end;
  dfs ← mapM (sensor w API_KEY) sensors;
  match dfs with
  | [] => Ok None
  | _ =>
      let df_total := map fila_openaq (concat dfs) in
      Ok (Some (pivot_table (df_ult df_total)))
  end.

Definition get_openaq_data (w : mundo) (estId : Z) (API_KEY : string)
  : respuesta_t :=
  try_except (df ← openaq_cuerpo w estId API_KEY; Ok (df, []))
             (fun e => Ok (None, [ErrorOpenaq e])).

End Obtencion.

(* ===================================================================== *)
(** * Configuración de estaciones *)
(* ===================================================================== *)

Record estacion_info := {
  lat : float;
  lng : float;
  sinaica : Z;
  openaq : Z
}.

Definition info (la lo : float) (s o : Z) : estacion_info :=
  {| lat := la; lng := lo; sinaica := s; openaq := o |}.

Definition ESTACIONES : gmap string estacion_info :=
  list_to_map
    [ ("Ajusco Medio", info 19.1547 (-99.2063) 242 480393);
      ("Benito Juárez", info 19.3706 (-99.1591) 300 10860);
      ("Camarones", info 19.4586 (-99.1853) 244 10722);
      ("Centro de Ciencias de la Atmósfera", info 19.3264 (-99.1764) 245 10534);
      ("Cuajimalpa", info 19.3650 (-99.2919) 246 223434);
      ("Gustavo A. Madero", info 19.4858 (-99.1281) 302 10632);
      ("Hospital General de México", info 19.4116 (-99.1522) 251 1134);
      ("Merced", info 19.4244 (-99.1197) 256 10748);
      ("Miguel Hidalgo", info 19.4006 (-99.2025) 263 10735);
      ("Pedregal", info 19.3250 (-99.2039) 259 10658);
      ("Santiago Acahualtepec", info 19.4833 (-99.0089) 432 10802);
      ("UAM Iztapalapa", info 19.3617 (-99.0739) 268 10804) ].

Definition API_KEYS : list string :=
  [ "934a33cfc397140c9f15c38a528f79384b5d180f31cb344dc217840f3a7cff93";
    "23a0b5d725eaf67585d9c4b3d8e1fcd02cd10c0ae4cbaf47cade3de6de27d0cc" ].

(** [API_KEYS[idx % len(API_KEYS)]] *)
Definition api_key (idx : nat) : string :=
  default "" (API_KEYS !! (idx mod length API_KEYS)%nat).

(* ===================================================================== *)
(** * The scan over the selected stations *)
(* ===================================================================== *)

(** The radio button [fuente_seleccionada]. *)
Inductive seleccion := Ambas | SoloSinaica | SoloOpenaq.

(** [datos_para_mapa[estacion]] *)
Record entrada_mapa := {
  m_calidad_global : celda;
  m_fuente : string;
  m_valores : gmap string celda
}.

(** What the loop builds, and what it shows and asks on the way: the frames
    appended to [resultados], the dictionary [datos_para_mapa], the messages
    put on the page, and the fetches made, each as (source, station). *)
Record estado := {
  resultados : list (tabla celda);
  datos_para_mapa : gmap string entrada_mapa;
  avisos : list diagnostico;
  consultas : list (string * string)
}.

Definition estado_inicial : estado :=
  {| resultados := []; datos_para_mapa := ∅; avisos := []; consultas := [] |}.

Definition con_avisos (ds : list diagnostico) (st : estado) : estado :=
  {| resultados := resultados st; datos_para_mapa := datos_para_mapa st;
     avisos := avisos st ++ ds; consultas := consultas st |}.

Definition con_consulta (fuente estacion : string) (st : estado) : estado :=
  {| resultados := resultados st; datos_para_mapa := datos_para_mapa st;
     avisos := avisos st; consultas := consultas st ++ [(fuente, estacion)] |}.

Definition con_resultado (df : tabla celda) (st : estado) : estado :=
  {| resultados := resultados st ++ [df]; datos_para_mapa := datos_para_mapa st;
     avisos := avisos st; consultas := consultas st |}.

Definition con_mapa (estacion : string) (e : entrada_mapa) (st : estado)
  : estado :=
  {| resultados := resultados st;
     datos_para_mapa := <[estacion := e]> (datos_para_mapa st);
     avisos := avisos st; consultas := consultas st |}.

(** [df[col] = s] *)
Definition asignar (col s : string) (df : tabla celda) : tabla celda :=
  map (fun '(idx, fila) => (idx, <[col := Txt s]> fila)) df.

(** [df.reset_index()]: the index levels become the columns "fecha" and
    "hora", which is refused when the frame already has one of them.  The
    index is kept where it is. *)
Definition reset_index (df : tabla celda) : resultado (tabla celda) :=
  match df with
  | (_, cols) :: _ =>
      if bool_decide (is_Some (cols !! "fecha") ∨ is_Some (cols !! "hora"))
      then Lanza ValueError else Ok df
  | [] => Ok df
  end.

(** [val is not None and not pd.isna(val)] *)
Definition presente (val : celda) : bool :=
  match val with
  | Num x => negb (PrimFloat.is_nan x)
  | Cal None => false
  | _ => true
  end.

Definition no_es_valor (col : string) : bool :=
  bool_decide (col ∈ ["fecha"; "hora"; "fuente"; "estacion"]).

(** The dictionary stored for the map, from the first row of [df]. *)
Definition entrada_de (fuente : string) (df : tabla celda) : entrada_mapa :=
  let fila := default ∅ (snd <$> head df) in
  {| m_calidad_global := row_get fila "calidad_global";
     m_fuente := fuente;
     m_valores :=
       filter (fun cv => no_es_valor cv.1 = false ∧ presente cv.2 = true) fila |}.

(** The part of a source's [try] block that can raise, once the fetch has
    answered with data: classify, tag, and reset the index. *)
Definition preparar (fuente estacion : string) (df : option (tabla float))
  : resultado (tabla celda) :=
  df ← evaluar_calidad_aire df;
  match df with
  | None => Lanza TypeError
  | Some df =>
      let df := asignar "fuente" fuente df in
      let df := asignar "estacion" estacion df in
      reset_index df
  end.

(** The loop's statements: they change the state, and return or raise; what
    has been done before a raise stays done. *)
Definition prog (A : Type) : Type := estado -> estado * resultado A.

#[global] Instance prog_ret : MRet prog := fun A a st => (st, Ok a).
#[global] Instance prog_bind : MBind prog := fun A B f m st =>
  match m st with
  | (st', Ok a) => f a st'
  | (st', Lanza e) => (st', Lanza e)
  end.

Definition levantar {A} (r : resultado A) : prog A := fun st => (st, r).
Definition modificar (f : estado -> estado) : prog unit := fun st => (f st, Ok tt).
Definition leer : prog estado := fun st => (st, Ok st).

(** [try: cuerpo  except Exception as e: manejador e], within the loop. *)
Definition intentar {A} (cuerpo : prog A) (manejador : excepcion -> prog A)
  : prog A :=
  fun st =>
    match cuerpo st with
    | (st', Lanza e) =>
        if es_Exception e then manejador e st' else (st', Lanza e)
    | r => r
    end.

Section Recorrido.

(** The two decorated fetchers, as they answer during the run. *)
Variable get_sinaica : Z -> respuesta_t.
Variable get_openaq : Z -> string -> respuesta_t.

(** [estacion not in datos_para_mapa or
    datos_para_mapa[estacion].get("fuente") != "SINAICA"] *)
Definition falta_sinaica (estacion : string) (st : estado) : bool :=
  match datos_para_mapa st !! estacion with
  | None => true
  | Some e => bool_decide (m_fuente e ≠ "SINAICA")
  end.

(** [estacion not in datos_para_mapa] *)
Definition falta (estacion : string) (st : estado) : bool :=
  bool_decide (datos_para_mapa st !! estacion = None).

Definition consulta_sinaica (estacion : string) (i : estacion_info)
  : prog unit :=
  intentar
    (modificar (con_consulta "SINAICA" estacion);;
     '(df_sinaica, ds) ← levantar (get_sinaica (sinaica i));
     modificar (con_avisos ds);;
     if negb (sin_datos df_sinaica) then
       df ← levantar (preparar "SINAICA" estacion df_sinaica);
       modificar (con_resultado df);;
       st ← leer;
       if falta_sinaica estacion st then
         intentar
           (modificar (con_mapa estacion (entrada_de "SINAICA" df)))
           (fun e => modificar (con_avisos [AvisoMapa "SINAICA" estacion e]))
       else mret tt
     else mret tt)
    (fun e => modificar (con_avisos [ErrorConsulta "SINAICA" estacion e])).

Definition consulta_openaq (idx : nat) (estacion : string)
    (i : estacion_info) : prog unit :=
  intentar
    (modificar (con_consulta "OPENAQ" estacion);;
     '(df_openaq, ds) ← levantar (get_openaq (openaq i) (api_key idx));
     modificar (con_avisos ds);;
     if negb (sin_datos df_openaq) then
       df ← levantar (preparar "OPENAQ" estacion df_openaq);
       modificar (con_resultado df);;
       st ← leer;
       if falta estacion st then
         intentar
           (modificar (con_mapa estacion (entrada_de "OPENAQ" df)))
           (fun e => modificar (con_avisos [AvisoMapa "OPENAQ" estacion e]))
       else mret tt
     else mret tt)
    (fun e => modificar (con_avisos [ErrorConsulta "OPENAQ" estacion e])).

Variable fuente_seleccionada : seleccion.

Definition pide_sinaica : bool :=
  match fuente_seleccionada with Ambas | SoloSinaica => true | _ => false end.

Definition pide_openaq : bool :=
  match fuente_seleccionada with Ambas | SoloOpenaq => true | _ => false end.

(** One turn of [for idx, estacion in enumerate(estaciones_seleccionadas)]. *)
Definition paso (idx : nat) (estacion : string) : prog unit :=
  i ← levantar (match ESTACIONES !! estacion with
                | Some i => Ok i
                | None => Lanza (KeyError estacion)
                end);
  (if pide_sinaica then consulta_sinaica estacion i else mret tt);;
  if pide_openaq then consulta_openaq idx estacion i else mret tt.

Fixpoint recorrer (idx : nat) (estaciones_seleccionadas : list string)
  : prog unit :=
  match estaciones_seleccionadas with
  | [] => mret tt
  | estacion :: resto => paso idx estacion;; recorrer (S idx) resto
  end.

Definition escanear (estaciones_seleccionadas : list string)
  : estado * resultado unit :=
  recorrer 0 estaciones_seleccionadas estado_inicial.

End Recorrido.

(* ===================================================================== *)
(** * st.cache_data *)
(* ===================================================================== *)

(** Streamlit's [st.cache_data], as documented: for each decorated
    function it keeps the value returned for each tuple of arguments,
    together with the time it was stored.  A call finds the entry of its
    arguments and returns its value when the entry is younger than [ttl]
    seconds; otherwise it runs the function, stores what it returned and
    returns it.  [st.cache_data.clear()] empties the entries of every
    decorated function.  Time is an explicit clock, in seconds. *)
Section CacheData.

Context {K V : Type} `{Countable K}.

Record guardada := { valor : V; guardada_en : Z }.

Variable ttl : Z.
(** What the undecorated function returns when run at a given time. *)
Variable funcion : Z -> K -> V.

Definition vigente (ahora : Z) (e : guardada) : bool :=
  ahora <? guardada_en e + ttl.

(** A call at time [ahora]: the value, the entries afterwards, and the
    number of runs of the undecorated function. *)
Definition llamada (ahora : Z) (k : K) (c : gmap K guardada)
  : V * gmap K guardada * nat :=
  match c !! k with
  | Some e =>
      if vigente ahora e then (valor e, c, 0%nat)
      else let v := funcion ahora k in
           (v, <[k := {| valor := v; guardada_en := ahora |}]> c, 1%nat)
  | None =>
      let v := funcion ahora k in
      (v, <[k := {| valor := v; guardada_en := ahora |}]> c, 1%nat)
  end.

End CacheData.
Arguments guardada : clear implicits.

Section Decoradas.

Variable aggfunc : list float -> float.
(** What the providers answer at each moment. *)
Variable w : Z -> mundo.

(** The entries of the two functions decorated with
    [@st.cache_data(ttl=600)]: [get_sinaica_data(estId)] and
    [get_openaq_data(estId, API_KEY)]. *)
Record caches := {
  de_sinaica : gmap Z (guardada respuesta_t);
  de_openaq : gmap (Z * string) (guardada respuesta_t)
}.

Definition sinaica_cacheada (ahora : Z) (estId : Z) (c : caches)
  : respuesta_t * caches * nat :=
  let '(v, m, n) :=
    llamada 600 (fun t k => get_sinaica_data aggfunc (w t) k)
            ahora estId (de_sinaica c) in
  (v, {| de_sinaica := m; de_openaq := de_openaq c |}, n).

Definition openaq_cacheada (ahora : Z) (estId : Z) (API_KEY : string)
    (c : caches) : respuesta_t * caches * nat :=
  let '(v, m, n) :=
    llamada 600 (fun t k => get_openaq_data aggfunc (w t) k.1 k.2)
            ahora (estId, API_KEY) (de_openaq c) in
  (v, {| de_sinaica := de_sinaica c; de_openaq := m |}, n).

(** [st.cache_data.clear()] *)
Definition clear (c : caches) : caches :=
  {| de_sinaica := ∅; de_openaq := ∅ |}.

End Decoradas.

(* ===================================================================== *)
(** * Usable rows, and pages without null or malformed rows *)
(* ===================================================================== *)

(** The usable rows of a row sequence: the objects that carry the three
    keys of the pivot and a value. *)
Definition utiles_de (data : list elemento) : list observacion :=
  flat_map (fun row =>
              match row with
              | Dict row =>
                  match con_claves row with
                  | Some o => if con_valor o then [o] else []
                  | None => []
                  end
              | _ => []
              end) data.

(** The usable rows of a blob, under the keys that the fetcher reads. *)
Definition filas_utiles (claves : list string) (b : bloque)
  : list observacion :=
  match b with
  | Objeto d =>
      flat_map (fun key =>
                  match d !! key with
                  | Some (Lista data) => utiles_de data
                  | _ => []
                  end) claves
  | _ => []
  end.

Definition es_dict (row : elemento) : bool :=
  match row with Dict _ => true | _ => false end.

(** A page with the nulls and the malformed rows taken out of its row
    sequences. *)
Definition limpiar_valor (v : valor_json) : valor_json :=
  match v with
  | Lista data => Lista (List.filter es_dict data)
  | NoLista => NoLista
  end.

Definition limpiar_bloque (b : bloque) : bloque :=
  match b with
  | Objeto d => Objeto (limpiar_valor <$> d)
  | _ => b
  end.

Definition limpiar (html : pagina) : pagina :=
  {| conts := limpiar_bloque (conts html);
     meteo := limpiar_bloque (meteo html) |}.

Definition valido (b : bloque) : bool :=
  match b with JsonInvalido => false | _ => true end.

(* ===================================================================== *)
(** * Payloads for evaluation *)
(* ===================================================================== *)

Definition una_lectura (p : string) (v : float) (d h : Z) : lectura_sensor :=
  {| parameter_name := p; latest_value := v; latest_datetime_local := (d, h) |}.

(** A station with two sensors: the first answers, the call of the second
    ends with status 500. *)
Definition mundo_sensor_caido : mundo :=
  {| estacion_php := fun _ => SinRespuesta;
     v3_locations := fun _ _ => Json [[1; 2]];
     v3_sensors := fun s _ =>
       if s =? 1 then Json [una_lectura "co" 4.0 739000 12] else Estado 500 |}.

(** The same station with both sensors answering. *)
Definition mundo_sensores : mundo :=
  {| estacion_php := fun _ => SinRespuesta;
     v3_locations := fun _ _ => Json [[1; 2]];
     v3_sensors := fun s _ =>
       if s =? 1 then Json [una_lectura "co" 4.0 739000 12]
       else Json [una_lectura "nox" 0.3 739000 12] |}.

Definition un_registro (p f : string) (h : Z) (v : float) : elemento :=
  Dict {| parametro := Some p; fecha := Some f; hora := Some h; valorAct := v |}.

(** A station page: CO = 4.0 and O3 = 0.10 at 12 h, an older CO, a null and
    a malformed row among them, NOx = 0.3, and a temperature. *)
Definition pagina_ejemplo : pagina :=
  {| conts := Objeto (list_to_map
       [ ("CO", Lista [ un_registro "CO" "2024-05-01" 11 9.0; Nulo; Otro;
                        un_registro "CO" "2024-05-01" 12 4.0 ]);
         ("O3", Lista [ Nulo; un_registro "O3" "2024-05-01" 12 0.10 ]);
         ("NOx", Lista [ un_registro "NOx" "2024-05-01" 12 0.3 ]);
         ("SO2", NoLista) ]);
     meteo := Objeto (list_to_map
       [ ("TMP", Lista [ un_registro "TMP" "2024-05-01" 12 21.5 ]) ]) |}.

(** A page without the pollutant literal. *)
Definition pagina_solo_meteo : pagina :=
  {| conts := SinCoincidencia;
     meteo := Objeto (list_to_map
       [ ("TMP", Lista [ un_registro "TMP" "2024-05-01" 12 21.5; Nulo ]);
         ("HR", Lista [ Nulo ]) ]) |}.

Definition mundo_de (html : pagina) : mundo :=
  {| estacion_php := fun _ => Html html;
     v3_locations := fun _ _ => FalloRed;
     v3_sensors := fun _ _ => FalloRed |}.

(* ===================================================================== *)
(** * What a scan is expected to leave *)
(* ===================================================================== *)

(** A fetcher that raises raises an [Exception]. *)
Definition no_interrumpe (r : respuesta_t) : Prop :=
  match r with Lanza e => es_Exception e = true | Ok _ => True end.

(** What a source contributes for a station: the classified and tagged frame
    when its fetch answered with data and the frame went through [preparar];
    nothing when the fetch raised, answered [None] or an empty frame, or
    [preparar] raised. *)
Definition aporte (fuente estacion : string) (r : respuesta_t)
  : option (tabla celda) :=
  match r with
  | Ok (df, _) =>
      if sin_datos df then None
      else match preparar fuente estacion df with
           | Ok t => Some t
           | Lanza _ => None
           end
  | Lanza _ => None
  end.

(** A non-empty success of a fetch, on a frame whose parameters do not bear
    the names of the columns that the pipeline adds. *)
Definition bien_nombrada (df : tabla float) : Prop :=
  Forall (fun r => limpia r.2 /\ r.2 !! "fecha" = None /\ r.2 !! "hora" = None)
         df.

Definition con_exito (r : respuesta_t) : Prop :=
  exists df ds, r = Ok (Some df, ds) /\ empty df = false /\ bien_nombrada df.

(** A fetch that fails or is empty. *)
Definition sin_exito (r : respuesta_t) : Prop :=
  match r with
  | Ok (df, _) => sin_datos df = true
  | Lanza _ => True
  end.

Section Esperado.

Variable get_sinaica : Z -> respuesta_t.
Variable get_openaq : Z -> string -> respuesta_t.
Variable fuente_seleccionada : seleccion.

Definition aporte_sinaica (estacion : string) (i : estacion_info)
  : option (tabla celda) :=
  if pide_sinaica fuente_seleccionada
  then aporte "SINAICA" estacion (get_sinaica (sinaica i)) else None.

Definition aporte_openaq (idx : nat) (estacion : string) (i : estacion_info)
  : option (tabla celda) :=
  if pide_openaq fuente_seleccionada
  then aporte "OPENAQ" estacion (get_openaq (openaq i) (api_key idx))
  else None.

(** The primary result: the first of the requested sources, SINAICA before
    OpenAQ, that contributes. *)
Definition primaria (idx : nat) (estacion : string) (i : estacion_info)
  : option entrada_mapa :=
  match aporte_sinaica estacion i with
  | Some t => Some (entrada_de "SINAICA" t)
  | None => entrada_de "OPENAQ" <$> aporte_openaq idx estacion i
  end.

(** The fetches made for a station. *)
Definition consultas_de (estacion : string) : list (string * string) :=
  (if pide_sinaica fuente_seleccionada then [("SINAICA", estacion)] else [])
  ++ (if pide_openaq fuente_seleccionada then [("OPENAQ", estacion)] else []).

(** The frames kept for a station. *)
Definition aportes_de (idx : nat) (estacion : string) (i : estacion_info)
  : list (tabla celda) :=
  option_list (aporte_sinaica estacion i)
  ++ option_list (aporte_openaq idx estacion i).

End Esperado.

(** A page with CO = 4.0 and NOx = 0.3. *)
Definition pagina_nox : pagina :=
  {| conts := Objeto (list_to_map
       [ ("CO", Lista [ un_registro "CO" "2024-05-01" 12 4.0 ]);
         ("NOx", Lista [ un_registro "NOx" "2024-05-01" 12 0.3 ]) ]);
     meteo := SinCoincidencia |}.

(** A fetch followed by the classification, as the scan loop chains them. *)
Definition clasificar (r : respuesta_t) : resultado (option (tabla celda)) :=
  '(df, _) ← r; evaluar_calidad_aire df.

(* ===================================================================== *)
(** * Fetches through the cache *)
(* ===================================================================== *)

(** A fetch as the scan loop makes it: the decorated function with its
    arguments. *)
Inductive peticion :=
| PSinaica (estId : Z)
| POpenaq (estId : Z) (API_KEY : string).

#[global] Instance peticion_eq_dec : EqDecision peticion.
Proof. solve_decision. Defined.

Section Peticiones.

Variable aggfunc : list float -> float.
Variable w : Z -> mundo.

(** What the undecorated function returns at a given time. *)
Definition directa (ahora : Z) (p : peticion) : respuesta_t :=
  match p with
  | PSinaica estId => get_sinaica_data aggfunc (w ahora) estId
  | POpenaq estId API_KEY => get_openaq_data aggfunc (w ahora) estId API_KEY
  end.

Definition atender (ahora : Z) (p : peticion) (c : caches)
  : respuesta_t * caches * nat :=
  match p with
  | PSinaica estId => sinaica_cacheada aggfunc w ahora estId c
  | POpenaq estId API_KEY => openaq_cacheada aggfunc w ahora estId API_KEY c
  end.

(** A run of fetches, each at its time: the entries afterwards and the
    number of runs of the undecorated functions. *)
Fixpoint atender_todas (ps : list (Z * peticion)) (c : caches)
  : caches * nat :=
  match ps with
  | [] => (c, 0%nat)
  | (ahora, p) :: ps' =>
      let '(_, c', n) := atender ahora p c in
      let '(c'', m) := atender_todas ps' c' in
      (c'', (n + m)%nat)
  end.

(** The entry that the cache holds for a fetch. *)
Definition entrada_cache (p : peticion) (c : caches)
  : option (guardada respuesta_t) :=
  match p with
  | PSinaica estId => de_sinaica c !! estId
  | POpenaq estId API_KEY => de_openaq c !! (estId, API_KEY)
  end.

End Peticiones.

(** The REST API answers the first key of the pool and refuses the second
    (status 429). *)
Definition mundo_cuota : mundo :=
  {| estacion_php := fun _ => SinRespuesta;
     v3_locations := fun _ API_KEY =>
       if String.eqb API_KEY (api_key 0) then Json [[1]] else Estado 429;
     v3_sensors := fun _ _ => Json [una_lectura "co" 4.0 739000 12] |}.

Definition caches_vacias : caches := {| de_sinaica := ∅; de_openaq := ∅ |}.

(** Reading off what a run returned: the frame of an answer, the first row
    of a frame, the number of its rows. *)
Definition tabla_de (r : respuesta_t) : option (tabla float) :=
  match r with Ok (df, _) => df | Lanza _ => None end.

Definition clasificada (r : resultado (option (tabla celda)))
  : option (tabla celda) :=
  match r with Ok df => df | Lanza _ => None end.

Definition fila1 {C} (df : option (tabla C)) : gmap string C :=
  match df with Some ((_, fila) :: _) => fila | _ => ∅ end.

Definition indice1 {C} (df : option (tabla C)) : option indice :=
  match df with Some ((idx, _) :: _) => Some idx | _ => None end.

Definition filas {C} (df : option (tabla C)) : nat :=
  match df with Some t => length t | None => 0%nat end.

(* ===================================================================== *)
(** * Funciones auxiliares: colours, alerts and the map *)
(* ===================================================================== *)

(** The rating that a cell is equal to, if any: [calidad == "Buena"] and
    the like hold of the rating itself and of a text that spells it. *)
Definition como_calidad (c : celda) : option calidad :=
  match c with
  | Cal q => q
  | Txt s =>
      if String.eqb s "Buena" then Some Buena
      else if String.eqb s "Regular" then Some Regular
      else if String.eqb s "Mala" then Some Mala
      else None
  | Num _ => None
  end.

Definition get_color_calidad (calidad : celda) : string :=
  match como_calidad calidad with
  | Some Buena => "green"
  | Some Regular => "orange"
  | Some Mala => "red"
  | None => "gray"
  end.

(** The four calls of [mostrar_alerta_calidad]: [st.success], [st.warning],
    [st.error] and [st.info], each with the station it names. *)
Inductive alerta :=
| StSuccess (estacion : string)
| StWarning (estacion : string)
| StError (estacion : string)
| StInfo (estacion : string).

Definition mostrar_alerta_calidad (calidad : celda) (estacion : string)
  : alerta :=
  match como_calidad calidad with
  | Some Buena => StSuccess estacion
  | Some Regular => StWarning estacion
  | Some Mala => StError estacion
  | None => StInfo estacion
  end.

(** [bool(x)]: [None], the empty text and zero are false. *)
Definition truthy (c : celda) : bool :=
  match c with
  | Cal None => false
  | Cal (Some _) => true
  | Txt s => negb (String.eqb s "")
  | Num x => negb (PrimFloat.eqb x 0)
  end.

(** A [folium.CircleMarker] of [crear_mapa]: where it stands, its colour,
    and what its popup shows: the rating ([None] when the popup says
    'Sin datos'), the source and the values (each as the cell it is, not as
    the text it is formatted to). *)
Record marcador := {
  mk_location : float * float;
  mk_color : string;
  mk_calidad : option celda;
  mk_fuente : string;
  mk_valores : gmap string celda
}.

(** [crear_mapa]: the markers added to the map, by station (the order in
    which they are added is not kept). *)
Definition crear_mapa (datos_estaciones : gmap string entrada_mapa)
  : gmap string marcador :=
  map_imap (fun estacion i =>
    let datos := datos_estaciones !! estacion in
    let calidad := from_option m_calidad_global (Cal None) datos in
    let fuente := from_option m_fuente "Sin datos" datos in
    let valores := from_option m_valores ∅ datos in
    Some {| mk_location := (lat i, lng i);
            mk_color := get_color_calidad calidad;
            mk_calidad := if truthy calidad then Some calidad else None;
            mk_fuente := fuente;
            mk_valores := filter (fun cv => presente cv.2 = true) valores |})
    ESTACIONES.

(* ===================================================================== *)
(** * The quality filter and the summary *)
(* ===================================================================== *)

(** [pd.concat(resultados, ignore_index=True)], then, when
    [filtro_calidad] is not empty, the rows whose [calidad_global] is in
    it.  A column that a row lacks is a NaN of the concatenated frame. *)
Definition en_filtro (filtro_calidad : list calidad) (fila : gmap string celda)
  : bool :=
  match como_calidad (row_get fila "calidad_global") with
  | Some q => bool_decide (q ∈ filtro_calidad)
  | None => false
  end.

Definition df_resultados (resultados : list (tabla celda))
    (filtro_calidad : list calidad) : tabla celda :=
  let df := concat resultados in
  match filtro_calidad with
  | [] => df
  | _ => List.filter (fun r => en_filtro filtro_calidad r.2) df
  end.

(** [len(df[df["calidad_global"] == c])] *)
Definition cuenta (c : calidad) (df : tabla celda) : nat :=
  length (List.filter
            (fun r => bool_decide
                        (como_calidad (row_get r.2 "calidad_global") = Some c))
            df).

(** The four numbers of the summary. *)
Record resumen := { total : nat; buenas : nat; regulares : nat; malas : nat }.

Definition metricas (df : tabla celda) : resumen :=
  {| total := length df;
     buenas := cuenta Buena df;
     regulares := cuenta Regular df;
     malas := cuenta Mala df |}.

(** The rows that none of the three counts takes: those whose overall
    rating is neither of the three names. *)
Definition sin_calificar (df : tabla celda) : nat :=
  length (List.filter
            (fun r => bool_decide
                        (como_calidad (row_get r.2 "calidad_global") = None))
            df).


(** The entries of a cache agree with a history of fetches when each holds
    what its undecorated function returned at the time it was stored, and
    that time is the time of a fetch of the same arguments in the
    history. *)
Definition coherente (aggfunc : list float -> float) (w : Z -> mundo)
    (h : list (Z * peticion)) (c : caches) : Prop :=
  forall p e,
    entrada_cache p c = Some e ->
    valor e = directa aggfunc w (guardada_en e) p /\ In (guardada_en e, p) h.

(** A station with two sensors, the second an hour ahead of the first. *)
Definition mundo_desfasado : mundo :=
  {| estacion_php := fun _ => SinRespuesta;
     v3_locations := fun _ _ => Json [[1; 2]];
     v3_sensors := fun s _ =>
       if s =? 1 then Json [una_lectura "co" 4.0 739000 12]
       else Json [una_lectura "nox" 0.3 739000 13] |}.

(* ===================================================================== *)
(** * The messages of a scan *)
(* ===================================================================== *)

(** What one fetch of the loop puts on the page: the messages of the
    fetcher, then the handler's message when the fetch or [preparar]
    raised. *)
Definition avisos_consulta (fuente estacion : string) (r : respuesta_t)
  : list diagnostico :=
  match r with
  | Ok (df, ds) =>
      ds ++ (if sin_datos df then []
             else match preparar fuente estacion df with
                  | Ok _ => []
                  | Lanza e => [ErrorConsulta fuente estacion e]
                  end)
  | Lanza e => [ErrorConsulta fuente estacion e]
  end.

Section Mensajes.

Variable get_sinaica : Z -> respuesta_t.
Variable get_openaq : Z -> string -> respuesta_t.
Variable fuente_seleccionada : seleccion.

(** The messages of one turn of the loop. *)
Definition avisos_de (idx : nat) (estacion : string) (i : estacion_info)
  : list diagnostico :=
  (if pide_sinaica fuente_seleccionada
   then avisos_consulta "SINAICA" estacion (get_sinaica (sinaica i)) else [])
  ++ (if pide_openaq fuente_seleccionada
      then avisos_consulta "OPENAQ" estacion
             (get_openaq (openaq i) (api_key idx))
      else []).

End Mensajes.

(* ===================================================================== *)
(** * Names that the pipeline cannot take *)
(* ===================================================================== *)

(** A non-empty success on a frame that has a parameter named like a level
    of the index: [reset_index] raises on it. *)
Definition mal_nombrada (r : respuesta_t) : Prop :=
  exists df ds idx lectura,
    r = Ok (Some df, ds) /\ head df = Some (idx, lectura) /\
    (is_Some (lectura !! "fecha") \/ is_Some (lectura !! "hora")).

(** A page whose only row is of a parameter named "hora", at a station
    whose two REST sensors answer. *)
Definition pagina_hora : pagina :=
  {| conts := Objeto (list_to_map
       [ ("CO", Lista [ un_registro "hora" "2024-05-01" 12 4.0 ]) ]);
     meteo := SinCoincidencia |}.

Definition mundo_hora : mundo :=
  {| estacion_php := fun _ => Html pagina_hora;
     v3_locations := v3_locations mundo_sensores;
     v3_sensors := v3_sensors mundo_sensores |}.

(** The same page at a station whose REST API does not answer. *)
Definition mundo_hora_solo : mundo := mundo_de pagina_hora.

(** Text of ASCII characters, on which [str_upper] is Python's
    [str.upper()]. *)
Definition es_ascii (s : string) : bool :=
  forallb (fun c => (Ascii.nat_of_ascii c <? 128)%nat)
          (list_ascii_of_string s).
(* ===================================================================== *)
(** * Part II.  Order on doubles *)
(* ===================================================================== *)

Module Flotantes.

Ltac pos_cmp :=
  repeat match goal with
  | |- context [PosDef.Pos.compare_cont Eq ?a ?b] =>
      change (PosDef.Pos.compare_cont Eq a b) with (Pos.compare a b)
  | H : context [PosDef.Pos.compare_cont Eq ?a ?b] |- _ =>
      change (PosDef.Pos.compare_cont Eq a b) with (Pos.compare a b) in H
  end.

Ltac cmp_cases :=
  repeat match goal with
  | H : context [Z.compare ?a ?b] |- _ =>
      destruct (Z.compare_spec a b); simpl in H
  | |- context [Z.compare ?a ?b] =>
      destruct (Z.compare_spec a b); simpl
  | H : context [Pos.compare ?a ?b] |- _ =>
      destruct (Pos.compare_spec a b); simpl in H
  | |- context [Pos.compare ?a ?b] =>
      destruct (Pos.compare_spec a b); simpl
  end.

Lemma SFleb_trans (a b c : spec_float) :
  SFleb a b = true -> SFleb b c = true -> SFleb a c = true.
Proof.
  unfold SFleb.
  destruct a as [sa|sa| |sa ma ea], b as [sb|sb| |sb mb eb],
           c as [sc|sc| |sc mc ec]; simpl;
    try destruct sa; try destruct sb; try destruct sc; simpl;
    try (intros; congruence); pos_cmp; intros H1 H2;
    cmp_cases; subst; try congruence; try lia.
Qed.

Lemma SFltb_not_leb (a b : spec_float) :
  SFltb a b = true -> SFleb b a = false.
Proof.
  unfold SFltb, SFleb.
  destruct a as [sa|sa| |sa ma ea], b as [sb|sb| |sb mb eb]; simpl;
    try destruct sa; try destruct sb; simpl;
    try (intros; congruence); pos_cmp; intros H1;
    cmp_cases; subst; try congruence; try lia.
Qed.

(** [x <= y] and [y <= z] give [x <= z], on doubles. *)
Lemma leb_trans (x y z : float) :
  (x <=. y) = true -> (y <=. z) = true -> (x <=. z) = true.
Proof. rewrite !FloatAxioms.leb_spec. apply SFleb_trans. Qed.

(** [y < x] excludes [x <= y]. *)
Lemma ltb_not_leb (x y : float) : (y <. x) = true -> (x <=. y) = false.
Proof. rewrite FloatAxioms.ltb_spec, FloatAxioms.leb_spec. apply SFltb_not_leb. Qed.

(** Above the higher of two ordered bounds is above the lower one. *)
Lemma above_upper (x lo hi : float) :
  (lo <=. hi) = true -> (hi <. x) = true -> (x <=. lo) = false.
Proof.
  intros Hb Hx. destruct (x <=. lo) eqn:E; [|reflexivity].
  pose proof (leb_trans _ _ _ E Hb) as T.
  rewrite (ltb_not_leb _ _ Hx) in T. discriminate.
Qed.

Lemma SFcompare_refl (a : spec_float) :
  a <> S754_nan -> SFcompare a a = Some Eq.
Proof.
  destruct a as [sa|sa| |sa ma ea]; simpl; try destruct sa; try congruence;
    intros _; rewrite Z.compare_refl; pos_cmp; rewrite Pos.compare_refl;
    reflexivity.
Qed.

Lemma SFleb_l_not_nan (a b : spec_float) : SFleb a b = true -> a <> S754_nan.
Proof. unfold SFleb. destruct a, b; simpl; intros; congruence. Qed.

Lemma SFltb_r_not_nan (a b : spec_float) : SFltb a b = true -> b <> S754_nan.
Proof. unfold SFltb. destruct a, b; simpl; intros; congruence. Qed.

Lemma is_nan_false (x : float) : Prim2SF x <> S754_nan -> is_nan x = false.
Proof.
  intros Hx. unfold is_nan. rewrite FloatAxioms.eqb_spec. unfold SFeqb.
  rewrite (SFcompare_refl _ Hx). reflexivity.
Qed.

(** Whatever is at most a bound is a number. *)
Lemma leb_not_nan (x c : float) : (x <=. c) = true -> is_nan x = false.
Proof.
  rewrite FloatAxioms.leb_spec. intros Hx. apply is_nan_false.
  exact (SFleb_l_not_nan _ _ Hx).
Qed.

(** Whatever is above a bound is a number. *)
Lemma ltb_not_nan (x c : float) : (c <. x) = true -> is_nan x = false.
Proof.
  rewrite FloatAxioms.ltb_spec. intros Hx. apply is_nan_false.
  exact (SFltb_r_not_nan _ _ Hx).
Qed.

End Flotantes.
Import Flotantes.

(* ===================================================================== *)
(** * The classifier *)
(* ===================================================================== *)

Lemma cotas_ordenadas (p : contaminante) :
  (cota_buena p <=. cota_regular p) = true.
Proof. destruct p; vm_compute; reflexivity. Qed.

(** Each threshold function is the same three-way split, at its two bounds. *)
Lemma clasificador_eq (p : contaminante) (v : option float) :
  clasificador p v =
    if pd_isna v then None
    else if py_le v (cota_buena p) then Some Buena
    else if py_le v (cota_regular p) then Some Regular
    else Some Mala.
Proof. destruct p; reflexivity. Qed.

(** C1. For each of CO, O3, NO2, NOx and NO the threshold function returns
    Unknown ([None]) on an absent value ([None] or NaN) and only then, Good
    on a value at most the Good bound, Moderate on a value above the Good
    bound and at most the Moderate bound, and Poor on a value above the
    Moderate bound; the bounds are those of the table (5.5/11, 0.055/0.095,
    0.10/0.21, 0.10/0.20, 0.05/0.15). *)
Theorem clasificador_umbrales (p : contaminante) (v : option float) :
  (pd_isna v = true <-> clasificador p v = None) /\
  (forall x, v = Some x -> (x <=. cota_buena p) = true ->
             clasificador p v = Some Buena) /\
  (forall x, v = Some x -> (cota_buena p <. x) = true ->
             (x <=. cota_regular p) = true ->
             clasificador p v = Some Regular) /\
  (forall x, v = Some x -> (cota_regular p <. x) = true ->
             clasificador p v = Some Mala).
Proof.
  rewrite clasificador_eq. repeat split.
  - intros ->. reflexivity.
  - destruct (pd_isna v); [reflexivity|].
    destruct (py_le v (cota_buena p)); [discriminate|].
    destruct (py_le v (cota_regular p)); discriminate.
  - intros x -> Hx. simpl. rewrite (leb_not_nan _ _ Hx), Hx. reflexivity.
  - intros x -> Hlo Hhi. simpl.
    rewrite (leb_not_nan _ _ Hhi), (ltb_not_leb _ _ Hlo), Hhi. reflexivity.
  - intros x -> Hhi. simpl.
    rewrite (ltb_not_nan _ _ Hhi), (ltb_not_leb _ _ Hhi),
      (above_upper _ _ _ (cotas_ordenadas p) Hhi).
    reflexivity.
Qed.

(** The boundary readings of the specification, evaluated. *)
Example frontera_CO :
  calidad_co (Some 5.5%float) = Some Buena /\
  calidad_co (Some 5.6%float) = Some Regular /\
  calidad_co (Some 11.0%float) = Some Regular /\
  calidad_co (Some 11.1%float) = Some Mala /\
  calidad_co (Some nan) = None /\ calidad_co None = None.
Proof. vm_compute. repeat split. Qed.

Example frontera_otros :
  (calidad_o3 (Some 0.055%float), calidad_o3 (Some 0.056%float),
   calidad_o3 (Some 0.095%float), calidad_o3 (Some 0.096%float))
    = (Some Buena, Some Regular, Some Regular, Some Mala) /\
  (calidad_no2 (Some 0.10%float), calidad_no2 (Some 0.11%float),
   calidad_no2 (Some 0.21%float), calidad_no2 (Some 0.22%float))
    = (Some Buena, Some Regular, Some Regular, Some Mala) /\
  (calidad_nox (Some 0.10%float), calidad_nox (Some 0.11%float),
   calidad_nox (Some 0.20%float), calidad_nox (Some 0.21%float))
    = (Some Buena, Some Regular, Some Regular, Some Mala) /\
  (calidad_no (Some 0.05%float), calidad_no (Some 0.06%float),
   calidad_no (Some 0.15%float), calidad_no (Some 0.16%float))
    = (Some Buena, Some Regular, Some Regular, Some Mala).
Proof. vm_compute. repeat split. Qed.

(* ===================================================================== *)
(** * The overall rating *)
(* ===================================================================== *)

Lemma bind_Ok_inv {A B} (m : resultado A) (f : A -> resultado B) (b : B) :
  m ≫= f = Ok b -> exists a, m = Ok a /\ f a = Ok b.
Proof. destruct m as [a|e]; simpl; [eauto|discriminate]. Qed.

Section Resultado.

Context {A B : Type}.

Lemma mapM_Ok_inv (f : A -> resultado B) (l : list A) (k : list B) :
  mapM f l = Ok k -> Forall2 (fun a b => f a = Ok b) l k.
Proof.
  revert k. induction l as [|a l IH]; simpl; intros k Hk.
  - injection Hk as <-. constructor.
  - apply bind_Ok_inv in Hk as (b & Hb & Hk).
    destruct (mapM f l) as [k'|e] eqn:E; simpl in Hk; [|discriminate].
    injection Hk as <-. constructor; auto.
Qed.

Lemma mapM_Ok_intro (f : A -> resultado B) (l : list A) :
  Forall (fun a => exists b, f a = Ok b) l ->
  exists k, mapM f l = Ok k /\ length k = length l.
Proof.
  induction 1 as [|a l [b Hb] _ [k [IH Hlen]]]; simpl.
  - exists []. split; reflexivity.
  - exists (b :: k). rewrite Hb. simpl. rewrite IH. simpl.
    split; [reflexivity|]. now rewrite Hlen.
Qed.

End Resultado.

Lemma peor2_assoc (a b c : calidad) : peor2 a (peor2 b c) = peor2 (peor2 a b) c.
Proof. destruct a, b, c; reflexivity. Qed.

Lemma foldl_peor2 (l : list calidad) (x a : calidad) :
  peor2 x (foldl peor2 a l) = foldl peor2 (peor2 x a) l.
Proof.
  revert a. induction l as [|b l IH]; intros a; simpl; [reflexivity|].
  rewrite IH, peor2_assoc. reflexivity.
Qed.

Lemma peor_conocidas (x : calidad) (l : list calidad) :
  peor (Some <$> (x :: l)) = Some (foldl peor2 x l).
Proof.
  revert x. induction l as [|a l IH]; intros x; [reflexivity|].
  change (peor (Some <$> x :: a :: l))
    with (match peor (Some <$> a :: l) with
          | Some y => Some (peor2 x y) | None => Some x end).
  rewrite IH. simpl. now rewrite foldl_peor2.
Qed.

Lemma peor_omite_None (l : list (option calidad)) :
  peor l = peor (Some <$> omap id l).
Proof.
  induction l as [|[c|] l IH]; [reflexivity| |exact IH].
  change (peor (Some c :: l))
    with (match peor l with Some y => Some (peor2 c y) | None => Some c end).
  rewrite IH. reflexivity.
Qed.

(** [peor] is the maximum of the known ratings under [orden]. *)
Lemma peor_es_maximo (l : list (option calidad)) :
  match peor l with
  | None => Forall (fun c => c = None) l
  | Some m => In (Some m) l /\
              Forall (fun c => forall x, c = Some x -> orden x <= orden m) l
  end.
Proof.
  induction l as [|[x|] l IH]; simpl.
  - constructor.
  - destruct (peor l) as [y|].
    + destruct IH as [Hin Hall]. unfold peor2.
      destruct (Z.ltb_spec (orden x) (orden y)).
      * split; [now right|]. constructor; [|exact Hall].
        intros ? [= <-]. lia.
      * split; [now left|]. constructor; [intros ? [= <-]; lia|].
        eapply Forall_impl; [exact Hall|]. simpl. intros c Hc z Hz.
        specialize (Hc z Hz). lia.
    + split; [now left|]. constructor; [intros ? [= <-]; lia|].
      eapply Forall_impl; [exact IH|]. simpl. intros c -> z. discriminate.
  - destruct (peor l) as [y|].
    + destruct IH as [Hin Hall]. split; [now right|].
      constructor; [discriminate|exact Hall].
    + constructor; [reflexivity|exact IH].
Qed.

Lemma max_desde_conocidas (l : list calidad) (m : calidad) :
  max_desde (Cal (Some m)) (orden m) ((fun c => Cal (Some c)) <$> l)
  = Ok (Cal (Some (foldl peor2 m l))).
Proof.
  revert m. induction l as [|a l IH]; intros m; simpl; [reflexivity|].
  unfold peor2. destruct (orden m <? orden a); apply IH.
Qed.

(** When [max] returns, every item had a key. *)
Lemma max_desde_Ok (l : list celda) (m g : celda) (k : Z) :
  max_desde m k l = Ok g -> Forall (fun c => exists q, c = Cal (Some q)) l.
Proof.
  revert m k. induction l as [|a l IH]; intros m k; simpl; [constructor|].
  destruct a as [x|[q|]|s]; simpl; try discriminate.
  intros Hg. constructor; [eauto|].
  destruct (k <? orden q); eapply IH; exact Hg.
Qed.

Lemma filtro_conocidas (l : list (option calidad)) :
  List.filter is_not_None (Cal <$> l) = (fun c => Cal (Some c)) <$> omap id l.
Proof.
  induction l as [|[c|] l IH]; simpl; [reflexivity| |exact IH].
  f_equal. exact IH.
Qed.


Lemma global_de_calidades (l : list (option calidad)) :
  global_de (Cal <$> l) = Ok (Cal (peor l)).
Proof.
  unfold global_de. rewrite filtro_conocidas, (peor_omite_None l).
  destruct (omap id l) as [|x k]; [reflexivity|].
  rewrite peor_conocidas. simpl. apply max_desde_conocidas.
Qed.

Lemma py_max_Ok (l : list celda) (g : celda) :
  py_max l = Ok g -> Forall (fun c => exists q, c = Cal (Some q)) l.
Proof.
  destruct l as [|x l]; simpl; [constructor|].
  destruct x as [x|[q|]|s]; simpl; try discriminate.
  intros Hg. constructor; [eauto|]. eapply max_desde_Ok; exact Hg.
Qed.

Lemma todas_Cal (cs : list celda) :
  Forall (fun c => exists q, c = Cal q) cs -> exists l, cs = Cal <$> l.
Proof.
  induction 1 as [|c cs [q ->] _ [l ->]].
  - exists []. reflexivity.
  - exists (q :: l). reflexivity.
Qed.

(** When [calidad_global] returns, the five cells it read were ratings. *)
Lemma global_de_Ok (cs : list celda) (g : celda) :
  global_de cs = Ok g -> exists l, cs = Cal <$> l.
Proof.
  intros Hg. apply todas_Cal.
  assert (Forall (fun c => exists q, c = Cal (Some q))
                 (List.filter is_not_None cs)) as Hf.
  { unfold global_de in Hg.
    destruct (List.filter is_not_None cs) as [|x l]; [constructor|].
    eapply py_max_Ok; exact Hg. }
  rewrite List.Forall_forall in Hf. apply List.Forall_forall. intros c Hc.
  destruct (is_not_None c) eqn:E.
  - destruct (Hf c) as [q ->]; [apply filter_In; auto|]. eauto.
  - destruct c as [x|[q|]|t]; try discriminate. eauto.
Qed.

Lemma calidad_global_eq (row : gmap string celda) :
  calidad_global row = global_de (row_get row <$> columnas_calidad).
Proof.
  unfold calidad_global, global_de.
  change (row_get row <$> columnas_calidad)
    with [ row_get row "calidad_CO"; row_get row "calidad_O3";
           row_get row "calidad_NO2"; row_get row "calidad_NOx";
           row_get row "calidad_NO" ].
  match goal with
  | |- context [List.filter ?f ?l] => destruct (List.filter f l)
  end; reflexivity.
Qed.

Lemma row_get_Cal (row : gmap string celda) (k : string) (q : option calidad) :
  row_get row k = Cal q -> calificacion row k = q.
Proof.
  unfold row_get, calificacion. destruct (row !! k) as [c|]; simpl.
  - intros ->. reflexivity.
  - intros [= <-]. reflexivity.
Qed.

(** Whenever [calidad_global] returns, it returns the worst of the known
    ratings of the row. *)
Lemma calidad_global_peor (row : gmap string celda) (g : celda) :
  calidad_global row = Ok g ->
  g = Cal (peor (calificacion row <$> columnas_calidad)).
Proof.
  rewrite calidad_global_eq. intros Hg.
  destruct (global_de_Ok _ _ Hg) as [l Hl].
  rewrite Hl, global_de_calidades in Hg. injection Hg as <-.
  f_equal. f_equal.
  assert (length l = 5%nat) as Hlen.
  { apply (f_equal length) in Hl. rewrite !length_fmap in Hl. now rewrite <- Hl. }
  destruct l as [|q1 [|q2 [|q3 [|q4 [|q5 [|]]]]]]; try discriminate.
  injection Hl as H1 H2 H3 H4 H5.
  simpl. now rewrite (row_get_Cal _ _ _ H1), (row_get_Cal _ _ _ H2),
    (row_get_Cal _ _ _ H3), (row_get_Cal _ _ _ H4), (row_get_Cal _ _ _ H5).
Qed.


Lemma evaluar_fila_inv (lectura : gmap string float) (fila : gmap string celda) :
  evaluar_fila lectura = Ok fila ->
  fila !! "calidad_global"
  = Some (Cal (peor (calificacion fila <$> columnas_calidad))).
Proof.
  unfold evaluar_fila. intros Hf.
  apply bind_Ok_inv in Hf as (g & Hg & [= <-]).
  apply calidad_global_peor in Hg. rewrite lookup_insert_eq, Hg.
  unfold calificacion. simpl. rewrite !lookup_insert_ne by discriminate.
  reflexivity.
Qed.

Lemma aplicar_lookup f col dst lectura df k :
  aplicar f col dst lectura df !! k =
    match lectura !! col with
    | Some x => if decide (dst = k) then Some (Cal (f (Some x))) else df !! k
    | None => df !! k
    end.
Proof.
  unfold aplicar. destruct (lectura !! col); [|reflexivity].
  apply lookup_insert.
Qed.

Lemma evaluar_fila_limpia (lectura : gmap string float) :
  limpia lectura ->
  exists fila, evaluar_fila lectura = Ok fila /\
               calificacion fila <$> columnas_calidad = calificar lectura /\
               (forall k, ~ In k ("calidad_global" :: columnas_calidad) ->
                          fila !! k = Num <$> lectura !! k).
Proof.
  intros Hl.
  assert (lectura !! "calidad_CO" = None /\ lectura !! "calidad_O3" = None /\
          lectura !! "calidad_NO2" = None /\ lectura !! "calidad_NOx" = None /\
          lectura !! "calidad_NO" = None) as (L1 & L2 & L3 & L4 & L5).
  { unfold limpia, columnas_calidad in Hl. rewrite !Forall_cons in Hl. tauto. }
  set (df := aplicar calidad_no "NO" "calidad_NO" lectura
            (aplicar calidad_nox "NOX" "calidad_NOx" lectura
            (aplicar calidad_no2 "NO2" "calidad_NO2" lectura
            (aplicar calidad_o3 "O3" "calidad_O3" lectura
            (aplicar calidad_co "CO" "calidad_CO" lectura (Num <$> lectura)))))).
  assert (calificacion df <$> columnas_calidad = calificar lectura /\
          row_get df <$> columnas_calidad = Cal <$> calificar lectura) as [Hc Hr].
  { unfold calificacion, row_get, calificar, columnas_calidad, df. simpl.
    rewrite !aplicar_lookup, !lookup_fmap, L1, L2, L3, L4, L5. simpl.
    destruct (lectura !! "CO"), (lectura !! "O3"), (lectura !! "NO2"),
      (lectura !! "NOX"), (lectura !! "NO"); split; reflexivity. }
  exists (<["calidad_global" := Cal (peor (calificar lectura))]> df).
  split; [|split].
  - unfold evaluar_fila. fold df.
    rewrite calidad_global_eq, Hr, global_de_calidades. reflexivity.
  - rewrite <- Hc. unfold calificacion. simpl.
    rewrite !lookup_insert_ne by discriminate. reflexivity.
  - intros k Hk.
    assert (k <> "calidad_global" /\ k <> "calidad_CO" /\ k <> "calidad_O3" /\
            k <> "calidad_NO2" /\ k <> "calidad_NOx" /\ k <> "calidad_NO")
      as (N0 & N1 & N2 & N3 & N4 & N5).
    { unfold columnas_calidad in Hk. simpl in Hk.
      repeat split; intros ->; tauto. }
    rewrite lookup_insert_ne by congruence. unfold df.
    rewrite !aplicar_lookup, lookup_fmap.
    repeat case_decide; try congruence.
    destruct (lectura !! "NO"), (lectura !! "NOX"), (lectura !! "NO2"),
      (lectura !! "O3"), (lectura !! "CO"); reflexivity.
Qed.

Lemma evaluar_calidad_aire_filas (df : tabla float) (df' : tabla celda) :
  evaluar_calidad_aire (Some df) = Ok (Some df') ->
  Forall2 (fun r r' => r'.1 = r.1 /\ evaluar_fila r.2 = Ok r'.2) df df'.
Proof.
  unfold evaluar_calidad_aire. destruct (empty df); [discriminate|].
  intros Hm. apply bind_Ok_inv in Hm as (filas & Hm & [= <-]).
  apply mapM_Ok_inv in Hm.
  eapply Forall2_impl; [exact Hm|]. simpl.
  intros [idx lectura] [idx' fila] Hf.
  apply bind_Ok_inv in Hf as (fila0 & Hf & [= <- <-]). auto.
Qed.

(** Classification succeeds on a non-empty frame with clean names: each row
    gets its ratings from the threshold functions, their worst as overall
    rating, and keeps its measurements. *)
Lemma evaluar_calidad_aire_limpia (df : tabla float) :
  empty df = false -> Forall (fun r => limpia r.2) df ->
  exists df', evaluar_calidad_aire (Some df) = Ok (Some df') /\
    Forall2 (fun r r' =>
               r'.1 = r.1 /\
               calificacion r'.2 <$> columnas_calidad = calificar r.2 /\
               r'.2 !! "calidad_global" = Some (Cal (peor (calificar r.2))) /\
               forall k, ~ In k ("calidad_global" :: columnas_calidad) ->
                         r'.2 !! k = Num <$> r.2 !! k)
            df df'.
Proof.
  intros Hne Hl. unfold evaluar_calidad_aire. rewrite Hne.
  assert (Forall (fun r : indice * gmap string float =>
                    exists r' : indice * gmap string celda,
                      (let '(idx, lectura) := r in
                       fila ← evaluar_fila lectura; Ok (idx, fila)) = Ok r')
                 df) as Hall.
  { eapply Forall_impl; [exact Hl|]. intros [idx lectura] Hr. simpl in Hr.
    destruct (evaluar_fila_limpia _ Hr) as (fila & -> & _). simpl. eauto. }
  destruct (mapM_Ok_intro _ _ Hall) as (df' & Hm & _).
  exists df'. rewrite Hm. split; [reflexivity|].
  apply mapM_Ok_inv in Hm. clear Hall Hne.
  induction Hm as [|[idx lectura] [idx' fila] df df' Hr _ IH];
    [constructor|].
  inversion Hl as [|? ? Hl1 Hl2]; subst. constructor; [|auto].
  simpl in *. destruct (evaluar_fila_limpia _ Hl1) as (fila0 & Hf & Hc & Hk).
  rewrite Hf in Hr. injection Hr as <- <-.
  split; [reflexivity|]. split; [exact Hc|]. split; [|exact Hk].
  rewrite (evaluar_fila_inv _ _ Hf), Hc. reflexivity.
Qed.

(** C2. In every classified reading the overall rating is the worst, under
    Good < Moderate < Poor, of the ratings that are known among the five
    rated pollutants, and Unknown when none is known; unrated columns play no
    part.  Classification succeeds on every non-empty reading whose
    parameters do not bear the names of the rating columns, with each rating
    computed by the pollutant's threshold function.  The two instances of
    the specification are evaluated. *)
Theorem calidad_global_es_la_peor :
  (forall df df', evaluar_calidad_aire (Some df) = Ok (Some df') ->
     forall idx fila, In (idx, fila) df' ->
       fila !! "calidad_global"
       = Some (Cal (peor (calificacion fila <$> columnas_calidad)))) /\
  (forall df, empty df = false -> Forall (fun r => limpia r.2) df ->
     exists df', evaluar_calidad_aire (Some df) = Ok (Some df') /\
       Forall2 (fun r r' =>
                  r'.1 = r.1 /\
                  calificacion r'.2 <$> columnas_calidad = calificar r.2 /\
                  r'.2 !! "calidad_global" = Some (Cal (peor (calificar r.2))))
               df df') /\
  (forall l, match peor l with
             | None => Forall (fun c => c = None) l
             | Some m =>
                 In (Some m) l /\
                 Forall (fun c => forall x, c = Some x -> orden x <= orden m) l
             end) /\
  calidad_global {[ "calidad_CO" := Cal (Some Buena);
                    "calidad_O3" := Cal (Some Mala);
                    "calidad_NO2" := Cal None ]} = Ok (Cal (Some Mala)) /\
  calidad_global ∅ = Ok (Cal None).
Proof.
  split; [|split; [|split; [|split]]].
  - intros df df' He idx fila Hin.
    apply evaluar_calidad_aire_filas in He.
    induction He as [|r r' df df' [_ Hr] _ IH]; [destruct Hin|].
    destruct Hin as [->|Hin]; [|auto].
    simpl in Hr. exact (evaluar_fila_inv _ _ Hr).
  - intros df Hne Hl.
    destruct (evaluar_calidad_aire_limpia df Hne Hl) as (df' & He & Hf).
    exists df'. split; [exact He|].
    eapply Forall2_impl; [exact Hf|]. simpl. tauto.
  - exact peor_es_maximo.
  - vm_compute. reflexivity.
  - vm_compute. reflexivity.
Qed.

(* ===================================================================== *)
(** * The fetchers never raise *)
(* ===================================================================== *)

Lemma mapM_Lanza {A B} (f : A -> resultado B) (l : list A) (e : excepcion) :
  mapM f l = Lanza e -> exists a, In a l /\ f a = Lanza e.
Proof.
  induction l as [|a l IH]; simpl; [discriminate|].
  destruct (f a) as [b|e'] eqn:Ea; simpl.
  - destruct (mapM f l) as [k|e'']; simpl; [discriminate|].
    intros [= <-]. destruct IH as (a' & Hin & Ha'); [reflexivity|]. eauto.
  - intros [= <-]. eauto.
Qed.

Lemma mapM_In_Lanza {A B} (f : A -> resultado B) (l : list A) (a : A)
    (e : excepcion) :
  In a l -> f a = Lanza e -> exists e', mapM f l = Lanza e'.
Proof.
  induction l as [|x l IH]; simpl; [tauto|].
  intros [->|Hin] Ha.
  - rewrite Ha. simpl. eauto.
  - destruct (f x); simpl; [|eauto].
    destruct (IH Hin Ha) as [e' ->]. simpl. eauto.
Qed.

Lemma get_json_Exception {A} (r : respuesta_json A) (e : excepcion) :
  get_json r = Lanza e -> es_Exception e = true.
Proof. destruct r; simpl; intros [= <-]; reflexivity. Qed.

Lemma leer_bloque_Exception claves b e :
  leer_bloque claves b = Lanza e -> es_Exception e = true.
Proof. destruct b; simpl; intros [= <-]; reflexivity. Qed.

Section Fetchers.

Variable aggfunc : list float -> float.

Lemma sinaica_cuerpo_Exception w estId e :
  sinaica_cuerpo aggfunc w estId = Lanza e -> es_Exception e = true.
Proof.
  unfold sinaica_cuerpo.
  destruct (estacion_php w estId) as [html|]; simpl; [|intros [= <-]; reflexivity].
  destruct (leer_bloque claves_conts (conts html)) as [dfs1|e1] eqn:E1; simpl;
    [|intros [= <-]; eauto using leer_bloque_Exception].
  destruct (leer_bloque claves_meteo (meteo html)) as [dfs2|e2] eqn:E2; simpl;
    [|intros [= <-]; eauto using leer_bloque_Exception].
  destruct (dfs1 ++ dfs2); discriminate.
Qed.

Lemma sensor_Exception w API_KEY SENSOR_ID e :
  sensor w API_KEY SENSOR_ID = Lanza e -> es_Exception e = true.
Proof.
  unfold sensor. destruct (v3_sensors w SENSOR_ID API_KEY) as [[|r l]| | | |];
    simpl; intros [= <-]; reflexivity.
Qed.

Lemma openaq_cuerpo_Exception w estId API_KEY e :
  openaq_cuerpo aggfunc w estId API_KEY = Lanza e -> es_Exception e = true.
Proof.
  unfold openaq_cuerpo.
  destruct (get_json (v3_locations w estId API_KEY)) as [data|e0] eqn:E0; simpl;
    [|intros [= <-]; eauto using get_json_Exception].
  destruct data as [|sensors resto]; simpl; [intros [= <-]; reflexivity|].
  destruct (mapM (sensor w API_KEY) sensors) as [dfs|e1] eqn:E1; simpl.
  - destruct dfs; discriminate.
  - intros [= <-]. apply mapM_Lanza in E1 as (s & _ & Hs).
    eauto using sensor_Exception.
Qed.

Lemma get_sinaica_data_no_interrumpe w estId :
  no_interrumpe (get_sinaica_data aggfunc w estId).
Proof.
  unfold get_sinaica_data.
  destruct (sinaica_cuerpo aggfunc w estId) as [df|e] eqn:E; simpl; [exact I|].
  now rewrite (sinaica_cuerpo_Exception _ _ _ E).
Qed.

Lemma get_openaq_data_no_interrumpe w estId API_KEY :
  no_interrumpe (get_openaq_data aggfunc w estId API_KEY).
Proof.
  unfold get_openaq_data.
  destruct (openaq_cuerpo aggfunc w estId API_KEY) as [df|e] eqn:E; simpl;
    [exact I|].
  now rewrite (openaq_cuerpo_Exception _ _ _ _ E).
Qed.

(** C10. Whatever the HTTP layer does (no answer, an error status, a body
    that is not JSON or lacks the fields indexed, blobs missing or not
    JSON), [get_sinaica_data] and [get_openaq_data] return: what they
    return is the body's result without a diagnostic, or, when the body
    raised, [None] with one diagnostic carrying the exception. *)
Theorem fetchers_no_lanzan (w : mundo) (estId : Z) (API_KEY : string) :
  (exists df ds,
     get_sinaica_data aggfunc w estId = Ok (df, ds) /\
     match sinaica_cuerpo aggfunc w estId with
     | Ok df0 => df = df0 /\ ds = []
     | Lanza e => df = None /\ ds = [ErrorSinaica e]
     end) /\
  (exists df ds,
     get_openaq_data aggfunc w estId API_KEY = Ok (df, ds) /\
     match openaq_cuerpo aggfunc w estId API_KEY with
     | Ok df0 => df = df0 /\ ds = []
     | Lanza e => df = None /\ ds = [ErrorOpenaq e]
     end).
Proof.
  split.
  - unfold get_sinaica_data.
    destruct (sinaica_cuerpo aggfunc w estId) as [df0|e] eqn:E; simpl.
    + exists df0, []. auto.
    + rewrite (sinaica_cuerpo_Exception _ _ _ E).
      exists None, [ErrorSinaica e]. auto.
  - unfold get_openaq_data.
    destruct (openaq_cuerpo aggfunc w estId API_KEY) as [df0|e] eqn:E; simpl.
    + exists df0, []. auto.
    + rewrite (openaq_cuerpo_Exception _ _ _ _ E).
      exists None, [ErrorOpenaq e]. auto.
Qed.

End Fetchers.

(** Some failures, evaluated: no answer, a literal that is not JSON, a body
    that is not JSON, a location without results, a sensor without results. *)
Example fallos_evaluados :
  get_sinaica_data mean mundo_sensores 256
    = Ok (None, [ErrorSinaica RequestException]) /\
  get_sinaica_data mean
      (mundo_de {| conts := JsonInvalido; meteo := meteo pagina_ejemplo |}) 256
    = Ok (None, [ErrorSinaica JSONDecodeError]) /\
  get_sinaica_data mean
      (mundo_de {| conts := SinCoincidencia; meteo := SinCoincidencia |}) 256
    = Ok (None, []) /\
  get_openaq_data mean (mundo_de pagina_ejemplo) 10748 (api_key 0)
    = Ok (None, [ErrorOpenaq RequestException]) /\
  get_openaq_data mean
      {| estacion_php := fun _ => SinRespuesta;
         v3_locations := fun _ _ => NoJson;
         v3_sensors := fun _ _ => FalloRed |} 10748 (api_key 0)
    = Ok (None, [ErrorOpenaq JSONDecodeError]) /\
  get_openaq_data mean
      {| estacion_php := fun _ => SinRespuesta;
         v3_locations := fun _ _ => Json [];
         v3_sensors := fun _ _ => FalloRed |} 10748 (api_key 0)
    = Ok (None, [ErrorOpenaq IndexError]) /\
  get_openaq_data mean
      {| estacion_php := fun _ => SinRespuesta;
         v3_locations := fun _ _ => Json [[7]];
         v3_sensors := fun _ _ => Json [] |} 10748 (api_key 0)
    = Ok (None, [ErrorOpenaq (KeyError "parameter_name")]).
Proof. vm_compute. repeat split. Qed.

(* ===================================================================== *)
(** * The pivot *)
(* ===================================================================== *)

Lemma insertar_no_vacia (k : indice) (l : list indice) : insertar k l <> [].
Proof.
  destruct l as [|x l]; simpl; [discriminate|].
  destruct (indice_cmp k x); discriminate.
Qed.

Lemma indices_vacios (obs : list observacion) : indices obs = [] <-> obs = [].
Proof.
  split; [|intros ->; reflexivity].
  destruct obs as [|o obs]; [reflexivity|]. simpl.
  intros Hi. now apply insertar_no_vacia in Hi.
Qed.

Lemma indice_cmp_refl (k : indice) : indice_cmp k k = Eq.
Proof.
  destruct k as [[s|d] h]; unfold indice_cmp; simpl.
  - assert (String.compare s s = Eq) as ->.
    { pose proof (String.compare_antisym s s) as Ha.
      destruct (String.compare s s); simpl in Ha; congruence. }
    apply Z.compare_refl.
  - rewrite Z.compare_refl. apply Z.compare_refl.
Qed.

Lemma insertar_In (k x : indice) (l : list indice) :
  In x (insertar k l) -> x = k \/ In x l.
Proof.
  induction l as [|y l IH]; simpl.
  - intros [<-|[]]. now left.
  - destruct (indice_cmp k y) eqn:E; simpl.
    + tauto.
    + intros [<-|H]; [now left|now right].
    + intros [<-|H]; [right; now left|]. destruct (IH H); tauto.
Qed.

Lemma indices_In (k : indice) (obs : list observacion) :
  In k (indices obs) -> exists o, In o obs /\ o_indice o = k.
Proof.
  induction obs as [|o obs IH]; simpl; [tauto|].
  intros [->|H]%insertar_In; [eauto|].
  destruct (IH H) as (o' & Ho' & <-). eauto.
Qed.

(** Rows that share one index make a pivot of a single row. *)
Lemma indices_unico (k : indice) (obs : list observacion) :
  obs <> [] -> Forall (fun o => o_indice o = k) obs -> indices obs = [k].
Proof.
  induction obs as [|o obs IH]; [congruence|]. intros _ Hall.
  inversion Hall as [|? ? Ho Hobs]; subst. simpl.
  destruct obs as [|o' obs]; [reflexivity|].
  rewrite IH by (congruence || assumption). simpl.
  now rewrite indice_cmp_refl.
Qed.

Lemma columnas_lookup (obs : list observacion) (p : string) :
  is_Some (columnas obs !! p) <-> exists o, In o obs /\ o_parametro o = p.
Proof.
  induction obs as [|o obs IH]; simpl.
  - rewrite lookup_empty. split; [intros [? [=]]|intros (? & [] & _)].
  - rewrite lookup_insert. case_decide as E.
    + split; [eauto|intros _; eauto].
    + rewrite IH. split.
      * intros (o' & Ho' & <-). eauto.
      * intros (o' & [<-|Ho'] & <-); [congruence|eauto].
Qed.

Lemma columnas_nan (obs : list observacion) (p : string) (x : float) :
  columnas obs !! p = Some x -> x = nan.
Proof.
  induction obs as [|o obs IH]; simpl.
  - rewrite lookup_empty. discriminate.
  - rewrite lookup_insert. case_decide; [congruence|auto].
Qed.


Lemma valores_en_cons (k : indice) (p : string) (o : observacion)
    (obs : list observacion) :
  valores_en k p (o :: obs) =
    if indice_eqb (o_indice o) k && String.eqb (o_parametro o) p
    then o_valor o :: valores_en k p obs else valores_en k p obs.
Proof.
  unfold valores_en. simpl.
  destruct (indice_eqb (o_indice o) k && String.eqb (o_parametro o) p);
    reflexivity.
Qed.

Lemma grupos_lookup (k : indice) (obs : list observacion) (p : string) :
  grupos k obs !! p =
    match valores_en k p obs with [] => None | vs => Some vs end.
Proof.
  induction obs as [|o obs IH]; [apply lookup_empty|].
  rewrite valores_en_cons. simpl.
  destruct (indice_eqb (o_indice o) k); simpl; [|exact IH].
  rewrite lookup_insert. case_decide as E.
  - subst p. rewrite String.eqb_refl, IH.
    destruct (valores_en k (o_parametro o) obs); reflexivity.
  - apply String.eqb_neq in E. rewrite E. exact IH.
Qed.

Section PivotLemmas.

Variable aggfunc : list float -> float.


(** The cells of the pivot's row at [k]: the aggregate of the values a
    parameter has there, NaN for a parameter that has values elsewhere
    only, and no column for a parameter without any value. *)
Lemma pivot_table_celda (filas : list observacion) (k : indice)
    (fila : gmap string float) (p : string) :
  In (k, fila) (pivot_table aggfunc filas) ->
  fila !! p =
    match valores_en k p (List.filter con_valor filas) with
    | [] => if existsb (fun o => String.eqb (o_parametro o) p)
                       (List.filter con_valor filas)
            then Some nan else None
    | vs => Some (aggfunc vs)
    end.
Proof.
  unfold pivot_table. fold con_valor. set (obs := List.filter con_valor filas).
  intros Hin. apply in_map_iff in Hin as (k' & [= <- <-] & _).
  rewrite lookup_union, lookup_fmap, grupos_lookup.
  destruct (valores_en k' p obs) as [|v vs] eqn:E; simpl.
  - destruct (existsb _ obs) eqn:Hc.
    + apply existsb_exists in Hc as (o & Ho & Hp%String.eqb_eq).
      destruct (proj2 (columnas_lookup obs p)) as [x Hx]; [eauto|].
      rewrite Hx, (columnas_nan _ _ _ Hx). reflexivity.
    + destruct (columnas obs !! p) eqn:Ec; [|reflexivity].
      exfalso. destruct (proj1 (columnas_lookup obs p)) as (o & Ho & Hp); [eauto|].
      assert (existsb (fun o => String.eqb (o_parametro o) p) obs = true) as Hx
        by (apply existsb_exists; exists o; split; [assumption|now apply String.eqb_eq]).
      congruence.
  - destruct (columnas obs !! p); reflexivity.
Qed.

Lemma pivot_table_columna (filas : list observacion) (k : indice)
    (fila : gmap string float) (p : string) :
  In (k, fila) (pivot_table aggfunc filas) ->
  (is_Some (fila !! p) <->
   exists o, In o filas /\ con_valor o = true /\ o_parametro o = p).
Proof.
  intros Hin. rewrite (pivot_table_celda _ _ _ p Hin).
  assert ((exists o, In o (List.filter con_valor filas) /\ o_parametro o = p)
          <-> exists o, In o filas /\ con_valor o = true /\ o_parametro o = p)
    as Heq.
  { split.
    - intros (o & [Ho Hv]%filter_In & Hp). eauto.
    - intros (o & Ho & Hv & Hp). exists o. rewrite filter_In. auto. }
  destruct (valores_en k p _) as [|v vs] eqn:E.
  - destruct (existsb _ _) eqn:Hc.
    + apply existsb_exists in Hc as (o & Ho & Hp%String.eqb_eq).
      split; [intros _; apply Heq; eauto|eauto].
    + split; [intros [? [=]]|intros (o & Ho & Hp)%Heq].
      assert (existsb (fun o => String.eqb (o_parametro o) p)
                      (List.filter con_valor filas) = true) as Hx
        by (apply existsb_exists; exists o; split; [assumption|now apply String.eqb_eq]).
      congruence.
  - split; [intros _|eauto].
    unfold valores_en in E.
    assert (In v (o_valor <$>
              List.filter (fun o => indice_eqb (o_indice o) k
                                    && String.eqb (o_parametro o) p)
                          (List.filter con_valor filas))) as Hv
      by (rewrite E; now left).
    apply in_map_iff in Hv as (o & _ & [[Ho Hnan]%filter_In Hk]%filter_In).
    apply andb_true_iff in Hk as [_ Hp%String.eqb_eq]. eauto.
Qed.

Lemma pivot_table_vacia (filas : list observacion) :
  pivot_table aggfunc filas = [] <-> List.filter con_valor filas = [].
Proof.
  unfold pivot_table. fold con_valor.
  rewrite <- indices_vacios.
  destruct (indices (List.filter con_valor filas)); simpl; split; congruence.
Qed.

(** Every row of the pivot has a column. *)
Lemma pivot_table_no_empty (filas : list observacion) (k : indice)
    (fila : gmap string float) :
  In (k, fila) (pivot_table aggfunc filas) -> dom fila <> (∅ : gset string).
Proof.
  intros Hin. pose proof Hin as Hin'. unfold pivot_table in Hin'.
  fold con_valor in Hin'.
  apply in_map_iff in Hin' as (k' & _ & Hk).
  apply indices_In in Hk as (o & [Ho Hv]%filter_In & _).
  assert (is_Some (fila !! o_parametro o)) as Hs
    by (apply (pivot_table_columna _ _ _ _ Hin); eauto).
  apply elem_of_dom in Hs. set_solver.
Qed.

End PivotLemmas.

Lemma tail1_vacia {C} (df : tabla C) : tail1 df = [] <-> df = [].
Proof.
  unfold tail1. split; [|intros ->; reflexivity].
  destruct (reverse df) as [|r l] eqn:E; [|discriminate].
  intros _. apply (f_equal reverse) in E. now rewrite reverse_involutive in E.
Qed.

Lemma tail1_In {C} (df : tabla C) (r : indice * gmap string C) :
  In r (tail1 df) -> tail1 df = [r] /\ In r df.
Proof.
  unfold tail1. destruct (reverse df) as [|r' l] eqn:E; simpl; [tauto|].
  intros [->|[]]. split; [reflexivity|].
  apply list_elem_of_In, elem_of_reverse. rewrite E. left.
Qed.

(* ===================================================================== *)
(** * The REST source: one sensor failing *)
(* ===================================================================== *)

Lemma max_Z_cota (l : list Z) (m : Z) :
  max_Z l = Some m -> In m l /\ Forall (fun x => x <= m) l.
Proof.
  destruct l as [|x l]; simpl; [discriminate|]. intros [= <-].
  revert x. induction l as [|y l IH]; intros x; simpl.
  - split; [now left|]. constructor; [lia|constructor].
  - destruct (IH (Z.max x y)) as [Hin Hall].
    inversion Hall as [|? ? Hxy Hl]; subst. split.
    + destruct Hin as [Hm|Hin]; [|now right; right].
      rewrite <- Hm.
      destruct (Z.max_spec x y) as [[_ E]|[_ E]]; rewrite E;
        [right; now left|now left].
    + constructor; [lia|]. constructor; [lia|exact Hl].
Qed.

(** The rows kept are those of the greatest day and, within it, of the
    greatest hour. *)
Lemma df_ult_In (df_total : list observacion) (o : observacion) :
  In o (df_ult df_total) ->
  In o df_total /\
  Forall (fun o' => dia o' < dia o \/
                    (dia o' = dia o /\ (o_indice o').2 <= (o_indice o).2))
         df_total.
Proof.
  unfold df_ult.
  destruct (max_Z (map dia df_total)) as [fecha_max|] eqn:Ef;
    [|intros H; simpl in H; destruct H].
  destruct (max_Z (map _ (List.filter _ df_total))) as [hora_max|] eqn:Eh;
    [|intros H; simpl in H; destruct H].
  intros [Ho [Hd Hh]%andb_true_iff]%filter_In.
  apply Z.eqb_eq in Hd, Hh. split; [exact Ho|].
  apply max_Z_cota in Ef as [_ Hf], Eh as [_ Hh'].
  rewrite List.Forall_forall in Hf, Hh' |- *. intros o' Ho'.
  assert (dia o' <= fecha_max) as Hle by (apply Hf, in_map, Ho').
  destruct (Z.eq_dec (dia o') fecha_max) as [E|E]; [right|left; lia].
  split; [lia|]. rewrite Hh.
  apply Hh'. apply (in_map (fun o => (o_indice o).2)).
  apply filter_In. split; [exact Ho'|]. now apply Z.eqb_eq.
Qed.

Lemma df_ult_indice (df_total : list observacion) :
  Forall (fun o => exists d h, o_indice o = (FechaDia d, h)) df_total ->
  exists k, Forall (fun o => o_indice o = k) (df_ult df_total).
Proof.
  intros Hd. unfold df_ult.
  destruct (max_Z (map dia df_total)) as [fecha_max|]; [|exists (FechaDia 0, 0); constructor].
  destruct (max_Z _) as [hora_max|]; [|exists (FechaDia 0, 0); constructor].
  exists (FechaDia fecha_max, hora_max).
  apply List.Forall_forall. intros o [Ho [Hf Hh]%andb_true_iff]%filter_In.
  rewrite List.Forall_forall in Hd. destruct (Hd o Ho) as (d & h & Hi).
  apply Z.eqb_eq in Hf, Hh. unfold dia in Hf. rewrite Hi in Hf, Hh |- *.
  simpl in *. congruence.
Qed.

Section RestSource.

Variable aggfunc : list float -> float.

Lemma get_openaq_data_Some w estId API_KEY df ds :
  get_openaq_data aggfunc w estId API_KEY = Ok (Some df, ds) ->
  openaq_cuerpo aggfunc w estId API_KEY = Ok (Some df) /\ ds = [].
Proof.
  unfold get_openaq_data.
  destruct (openaq_cuerpo aggfunc w estId API_KEY) as [df0|e]; simpl.
  - intros [= -> <-]. auto.
  - destruct (es_Exception e); discriminate.
Qed.

Lemma sensor_Ok w API_KEY s filas :
  sensor w API_KEY s = Ok filas ->
  v3_sensors w s API_KEY = Json filas /\ filas <> [].
Proof.
  unfold sensor. destruct (v3_sensors w s API_KEY) as [[|r l]| | | |]; simpl;
    try discriminate.
  intros [= <-]. split; [reflexivity|discriminate].
Qed.

(** C3, as the code has it. Once the listing call has succeeded, the
    failure of the call of any listed sensor makes the whole fetch return
    [None] with one diagnostic, whatever the other sensors answered; a
    station that lists no sensor gives [None]; and the fetch returns a
    frame only when every listed sensor answered with data, the frame then
    being the pivot of the sensors' rows of the latest day and hour, a
    single row with a column for each parameter that has a value there. *)
Theorem sensor_fallido_anula (w : mundo) (estId : Z) (API_KEY : string)
    (sensors : list Z) (resto : list (list Z)) :
  v3_locations w estId API_KEY = Json (sensors :: resto) ->
  (forall s e, In s sensors -> sensor w API_KEY s = Lanza e ->
     exists e', get_openaq_data aggfunc w estId API_KEY
                = Ok (None, [ErrorOpenaq e'])) /\
  (sensors = [] -> get_openaq_data aggfunc w estId API_KEY = Ok (None, [])) /\
  (forall df ds,
     get_openaq_data aggfunc w estId API_KEY = Ok (Some df, ds) ->
     ds = [] /\ sensors <> [] /\
     exists dfs,
       Forall2 (fun s filas => v3_sensors w s API_KEY = Json filas /\ filas <> [])
               sensors dfs /\
       df = pivot_table aggfunc (df_ult (fila_openaq <$> concat dfs)) /\
       forall o, In o (df_ult (fila_openaq <$> concat dfs)) ->
                 con_valor o = true ->
                 exists fila, df = [(o_indice o, fila)] /\
                              is_Some (fila !! o_parametro o)).
Proof.
  intros Hloc. split; [|split].
  - intros s e Hin Hs.
    destruct (mapM_In_Lanza _ _ _ _ Hin Hs) as [e' He'].
    exists e'. unfold get_openaq_data.
    assert (openaq_cuerpo aggfunc w estId API_KEY = Lanza e') as Hc.
    { unfold openaq_cuerpo. rewrite Hloc. simpl. rewrite He'. reflexivity. }
    rewrite Hc. simpl. now rewrite (openaq_cuerpo_Exception _ _ _ _ _ Hc).
  - intros ->. unfold get_openaq_data, openaq_cuerpo. rewrite Hloc. reflexivity.
  - intros df ds [Hc ->]%get_openaq_data_Some.
    unfold openaq_cuerpo in Hc. rewrite Hloc in Hc. simpl in Hc.
    destruct (mapM (sensor w API_KEY) sensors) as [dfs|e] eqn:Em;
      simpl in Hc; [|discriminate].
    split; [reflexivity|]. split.
    { intros ->. simpl in Em. injection Em as <-. discriminate. }
    exists dfs. apply mapM_Ok_inv in Em.
    assert (df = pivot_table aggfunc (df_ult (fila_openaq <$> concat dfs)))
      as Hdf by (destruct dfs; [discriminate|now injection Hc]).
    split; [|split; [exact Hdf|]].
    + eapply Forall2_impl; [exact Em|]. intros s filas. apply sensor_Ok.
    + intros o Ho Hv.
      set (ult := df_ult (fila_openaq <$> concat dfs)) in *.
      destruct (df_ult_indice (fila_openaq <$> concat dfs)) as [k Hk].
      { apply List.Forall_forall. intros o' (r & <- & _)%in_map_iff.
        simpl. eauto. }
      fold ult in Hk.
      assert (o_indice o = k) as Hok
        by (rewrite List.Forall_forall in Hk; auto).
      assert (indices (List.filter con_valor ult) = [k]) as Hi.
      { apply indices_unico.
        - intros E. assert (In o (List.filter con_valor ult)) as Hin
            by (apply filter_In; auto). rewrite E in Hin. destruct Hin.
        - rewrite List.Forall_forall in Hk |- *.
          intros o' [Ho' _]%filter_In. auto. }
      assert (exists fila, df = [(k, fila)]) as [fila Hfila].
      { rewrite Hdf. unfold pivot_table. fold con_valor. rewrite Hi.
        simpl. eauto. }
      exists fila. rewrite Hok. split; [exact Hfila|].
      apply (pivot_table_columna aggfunc ult k).
      * rewrite <- Hdf, Hfila. now left.
      * eauto.
Qed.

End RestSource.

(** C3, the run that refutes it as stated: sensor 1 answers with CO = 4.0, the call of
    sensor 2 ends with status 500, and the fetch returns [None]: no row, and
    so no value of sensor 1. *)
Lemma sensor_fallido_contraejemplo :
  sensor mundo_sensor_caido (api_key 0) 1
    = Ok [una_lectura "co" 4.0 739000 12] /\
  sensor mundo_sensor_caido (api_key 0) 2 = Lanza (HTTPError 500) /\
  get_openaq_data mean mundo_sensor_caido 10860 (api_key 0)
    = Ok (None, [ErrorOpenaq (HTTPError 500)]) /\
  ~ (exists df ds idx fila x,
       get_openaq_data mean mundo_sensor_caido 10860 (api_key 0)
         = Ok (Some df, ds) /\
       In (idx, fila) df /\ fila !! "CO" = Some x).
Proof.
  split; [|split; [|split]]; try (vm_compute; reflexivity).
  intros (df & ds & idx & fila & x & H & _). vm_compute in H. discriminate.
Qed.

Lemma sensor_fallido_testigo :
  exists e', get_openaq_data mean mundo_sensor_caido 10860 (api_key 0)
             = Ok (None, [ErrorOpenaq e']).
Proof.
  exact (proj1 (sensor_fallido_anula mean mundo_sensor_caido 10860 (api_key 0)
                  [1; 2] [] eq_refl)
               2 (HTTPError 500) (or_intror (or_introl eq_refl)) eq_refl).
Defined.

(** With both sensors answering, the row has both values, under the
    upper-cased names. *)
Example sensores_ambos :
  let df := tabla_de (get_openaq_data mean mundo_sensores 10860 (api_key 0)) in
  filas df = 1%nat /\ indice1 df = Some (FechaDia 739000, 12) /\
  map_to_list (fila1 df) = [("CO", 4.0%float); ("NOX", 0.3%float)].
Proof. vm_compute. repeat split. Qed.

(* ===================================================================== *)
(** * The scraped source: blobs and rows *)
(* ===================================================================== *)

Lemma filter_omap_app {A B} (f : A -> option B) (g : B -> bool) (l k : list A) :
  List.filter g (omap f (l ++ k))
  = List.filter g (omap f l) ++ List.filter g (omap f k).
Proof. now rewrite omap_app, List.filter_app. Qed.

(** The rows appended for a key feed the pivot with the usable rows of its
    sequence: a null gives a row without fecha, which the grouping drops. *)
Lemma filas_de_utiles (key : string) (data : list elemento) :
  List.filter con_valor (omap con_claves (filas_de key data)) = utiles_de data.
Proof.
  induction data as [|row data IH]; [reflexivity|].
  unfold filas_de, utiles_de in *. simpl.
  rewrite filter_omap_app, IH. f_equal.
  destruct row as [|r|]; simpl; try reflexivity.
  destruct (con_claves r) as [o|]; simpl; [|reflexivity].
  destruct (con_valor o); reflexivity.
Qed.

Lemma leer_claves_utiles (claves : list string) (d : gmap string valor_json) :
  List.filter con_valor (omap con_claves (concat (leer_claves claves d)))
  = filas_utiles claves (Objeto d).
Proof.
  induction claves as [|key claves IH]; [reflexivity|].
  unfold leer_claves, filas_utiles in *. simpl.
  rewrite concat_app, filter_omap_app, IH. f_equal.
  destruct (d !! key) as [[data|]|]; simpl; try reflexivity.
  rewrite app_nil_r. apply filas_de_utiles.
Qed.

Lemma leer_bloque_utiles (claves : list string) (b : bloque) :
  valido b = true ->
  exists dfs, leer_bloque claves b = Ok dfs /\
    List.filter con_valor (omap con_claves (concat dfs)) = filas_utiles claves b.
Proof.
  destruct b as [| |d]; simpl; [|discriminate|]; intros _.
  - exists []. split; reflexivity.
  - exists (leer_claves claves d). split; [reflexivity|].
    apply leer_claves_utiles.
Qed.

Lemma utiles_de_limpia (data : list elemento) :
  utiles_de (List.filter es_dict data) = utiles_de data.
Proof.
  induction data as [|row data IH]; [reflexivity|].
  unfold utiles_de in *. destruct row; simpl; rewrite ?IH; reflexivity.
Qed.

Lemma filas_utiles_limpiar (claves : list string) (b : bloque) :
  filas_utiles claves (limpiar_bloque b) = filas_utiles claves b.
Proof.
  destruct b as [| |d]; try reflexivity. simpl.
  induction claves as [|key claves IH]; [reflexivity|]. simpl.
  rewrite IH, lookup_fmap. f_equal.
  destruct (d !! key) as [[data|]|]; simpl; try reflexivity.
  apply utiles_de_limpia.
Qed.

(** Cleaning the rows neither adds nor removes a frame of [dfs]. *)
Lemma leer_claves_limpiar (claves : list string) (d : gmap string valor_json) :
  length (leer_claves claves (limpiar_valor <$> d))
  = length (leer_claves claves d).
Proof.
  induction claves as [|key claves IH]; [reflexivity|].
  unfold leer_claves in *. simpl. rewrite !length_app, IH, lookup_fmap.
  destruct (d !! key) as [[data|]|]; reflexivity.
Qed.

Lemma leer_bloque_limpiar (claves : list string) (b : bloque) :
  match leer_bloque claves b, leer_bloque claves (limpiar_bloque b) with
  | Ok dfs, Ok dfs' => length dfs' = length dfs
  | Lanza e, Lanza e' => e = e'
  | _, _ => False
  end.
Proof.
  destruct b as [| |d]; simpl; try reflexivity. apply leer_claves_limpiar.
Qed.

Section Scraped.

Variable aggfunc : list float -> float.

Lemma pivot_table_filtrada (filas : list observacion) :
  pivot_table aggfunc filas
  = pivot_table aggfunc (List.filter con_valor filas).
Proof.
  unfold pivot_table.
  assert (List.filter con_valor (List.filter con_valor filas)
          = List.filter con_valor filas) as ->; [|reflexivity].
  induction filas as [|o filas IH]; [reflexivity|]. simpl.
  destruct (con_valor o) eqn:E; simpl; rewrite ?E, IH; reflexivity.
Qed.

(** The body on a page whose blobs are absent or decode: it returns, and
    what it returns is fixed by the number of frames read and by the usable
    rows of the two blobs. *)
Lemma sinaica_cuerpo_valida w estId html :
  estacion_php w estId = Html html ->
  valido (conts html) = true -> valido (meteo html) = true ->
  exists dfs1 dfs2,
    leer_bloque claves_conts (conts html) = Ok dfs1 /\
    leer_bloque claves_meteo (meteo html) = Ok dfs2 /\
    sinaica_cuerpo aggfunc w estId =
      Ok (match dfs1 ++ dfs2 with
          | [] => None
          | _ => Some (tail1 (pivot_table aggfunc
                   (filas_utiles claves_conts (conts html)
                    ++ filas_utiles claves_meteo (meteo html))))
          end).
Proof.
  intros Hw Hc Hm.
  destruct (leer_bloque_utiles claves_conts _ Hc) as (dfs1 & E1 & U1).
  destruct (leer_bloque_utiles claves_meteo _ Hm) as (dfs2 & E2 & U2).
  exists dfs1, dfs2. split; [exact E1|]. split; [exact E2|].
  unfold sinaica_cuerpo. rewrite Hw. simpl. rewrite E1. simpl. rewrite E2.
  simpl. destruct (dfs1 ++ dfs2) eqn:E; [reflexivity|].
  rewrite <- E.
  rewrite (pivot_table_filtrada (omap con_claves (concat (dfs1 ++ dfs2)))),
    concat_app, filter_omap_app, U1, U2.
  reflexivity.
Qed.

Lemma filas_utiles_dfs claves b dfs :
  leer_bloque claves b = Ok dfs -> filas_utiles claves b <> [] -> dfs <> [].
Proof.
  destruct b as [| |d]; simpl; try congruence. intros [= <-] Hu Hd.
  apply Hu. clear Hu. unfold leer_claves in Hd.
  induction claves as [|key claves IH]; [reflexivity|]. simpl in *.
  apply app_eq_nil in Hd as [H1 H2]. rewrite (IH H2), app_nil_r.
  destruct (d !! key) as [[data|]|]; try reflexivity. discriminate.
Qed.

(** C5. On a page whose blobs are each absent or decodable, the fetch
    returns without a diagnostic; it is without data exactly when neither
    blob has a usable row; otherwise it is a single row whose columns are
    the parameters of the usable rows.  So with the pollutant blob absent
    the row is made of the meteorological blob's rows only, and the other
    way round. *)
Theorem bloques_independientes (w : mundo) (estId : Z) (html : pagina) :
  estacion_php w estId = Html html ->
  valido (conts html) = true -> valido (meteo html) = true ->
  let U := filas_utiles claves_conts (conts html)
           ++ filas_utiles claves_meteo (meteo html) in
  exists df,
    get_sinaica_data aggfunc w estId = Ok (df, []) /\
    (sin_datos df = true <-> U = []) /\
    (U <> [] ->
     exists idx fila,
       df = Some [(idx, fila)] /\
       forall p, is_Some (fila !! p) <-> exists o, In o U /\ o_parametro o = p) /\
    (conts html = SinCoincidencia ->
     U = filas_utiles claves_meteo (meteo html)) /\
    (meteo html = SinCoincidencia ->
     U = filas_utiles claves_conts (conts html)).
Proof.
  intros Hw Hc Hm U.
  destruct (sinaica_cuerpo_valida _ _ _ Hw Hc Hm) as (dfs1 & dfs2 & E1 & E2 & Hb).
  fold U in Hb.
  assert (U <> [] -> dfs1 ++ dfs2 <> []) as Hdfs.
  { intros HU Hd. apply app_eq_nil in Hd as [-> ->]. apply HU. unfold U.
    destruct (filas_utiles claves_conts (conts html)) eqn:F1.
    - destruct (filas_utiles claves_meteo (meteo html)) eqn:F2; [reflexivity|].
      exfalso. eapply (filas_utiles_dfs _ _ _ E2); [congruence|reflexivity].
    - exfalso. eapply (filas_utiles_dfs _ _ _ E1); [congruence|reflexivity]. }
  assert (forall o, In o U -> con_valor o = true) as Hval.
  { intros o Ho. unfold U in Ho.
    assert (forall claves b, In o (filas_utiles claves b) -> con_valor o = true)
      as Hfu.
    { intros claves [| |d]; simpl; try tauto.
      intros (key & _ & Hk)%in_flat_map.
      destruct (d !! key) as [[data|]|]; simpl in Hk; try tauto.
      apply in_flat_map in Hk as ([|r|] & _ & Hr); simpl in Hr; try tauto.
      destruct (con_claves r) as [o'|]; simpl in Hr; [|tauto].
      destruct (con_valor o') eqn:E; simpl in Hr; [|tauto].
      destruct Hr as [<-|[]]. exact E. }
    apply in_app_or in Ho as [Ho|Ho]; eauto. }
  assert (List.filter con_valor U = U) as HfU.
  { clear -Hval. induction U as [|o U' IH]; [reflexivity|]. simpl.
    rewrite (Hval o) by now left. f_equal. apply IH. intros; apply Hval.
    now right. }
  eexists. split; [|split; [|split; [|split]]].
  - unfold get_sinaica_data. rewrite Hb. reflexivity.
  - destruct (dfs1 ++ dfs2) eqn:Ed; simpl.
    + split; [intros _|reflexivity].
      destruct U; [reflexivity|]. exfalso. now apply Hdfs.
    + destruct (tail1 _) as [|[idx fila] cola] eqn:Et; simpl.
      * apply tail1_vacia, pivot_table_vacia in Et. rewrite HfU in Et.
        split; [intros _; exact Et|reflexivity].
      * assert (In (idx, fila) (tail1 (pivot_table aggfunc U))) as Hin
          by (rewrite Et; now left).
        apply tail1_In in Hin as [_ Hin].
        pose proof (pivot_table_no_empty _ _ _ _ Hin) as Hne.
        rewrite bool_decide_eq_true. split; [contradiction|].
        intros HU. rewrite HU in Hin. destruct Hin.
  - intros HU. specialize (Hdfs HU).
    destruct (dfs1 ++ dfs2) eqn:Ed; [congruence|].
    destruct (tail1 (pivot_table aggfunc U)) as [|[idx fila] cola] eqn:Et.
    + apply tail1_vacia, pivot_table_vacia in Et. rewrite HfU in Et.
      contradiction.
    + assert (In (idx, fila) (tail1 (pivot_table aggfunc U))) as Hin
        by (rewrite Et; now left).
      apply tail1_In in Hin as [Ht Hin]. exists idx, fila.
      split; [now rewrite <- Et, Ht|].
      intros p. rewrite (pivot_table_columna _ _ _ _ p Hin).
      split; intros (o & Ho & H'); [destruct H'|]; eauto.
  - intros Hs. unfold U. now rewrite Hs.
  - intros Hs. unfold U. rewrite Hs. apply app_nil_r.
Qed.

End Scraped.

Lemma bloques_independientes_testigo :
  exists df,
    get_sinaica_data mean (mundo_de pagina_solo_meteo) 256 = Ok (df, []) /\
    (sin_datos df = true <->
     filas_utiles claves_conts SinCoincidencia
     ++ filas_utiles claves_meteo (meteo pagina_solo_meteo) = []) /\
    (filas_utiles claves_conts SinCoincidencia
     ++ filas_utiles claves_meteo (meteo pagina_solo_meteo) <> [] ->
     exists idx fila,
       df = Some [(idx, fila)] /\
       forall p, is_Some (fila !! p) <->
                 exists o, In o (filas_utiles claves_conts SinCoincidencia
                                 ++ filas_utiles claves_meteo
                                      (meteo pagina_solo_meteo))
                           /\ o_parametro o = p) /\
    (SinCoincidencia = SinCoincidencia ->
     filas_utiles claves_conts SinCoincidencia
     ++ filas_utiles claves_meteo (meteo pagina_solo_meteo)
     = filas_utiles claves_meteo (meteo pagina_solo_meteo)) /\
    (meteo pagina_solo_meteo = SinCoincidencia ->
     filas_utiles claves_conts SinCoincidencia
     ++ filas_utiles claves_meteo (meteo pagina_solo_meteo)
     = filas_utiles claves_conts SinCoincidencia).
Proof.
  exact (bloques_independientes mean (mundo_de pagina_solo_meteo) 256
           pagina_solo_meteo eq_refl eq_refl eq_refl).
Defined.

(** The page without the pollutant literal, evaluated: one row, with the
    temperature as its only column. *)
Example solo_meteo_evaluada :
  let df := tabla_de (get_sinaica_data mean (mundo_de pagina_solo_meteo) 256) in
  filas df = 1%nat /\ indice1 df = Some (FechaTexto "2024-05-01", 12) /\
  map_to_list (fila1 df) = [("TMP", 21.5%float)].
Proof. vm_compute. repeat split. Qed.

(* ===================================================================== *)
(** * The order of the index, and the last row of a pivot *)
(* ===================================================================== *)

Lemma fecha_cmp_eq (a b : fecha_t) : fecha_cmp a b = Eq -> a = b.
Proof.
  destruct a as [s|d], b as [t|e]; simpl; try discriminate.
  - intros ->%String.compare_eq_iff. reflexivity.
  - intros ->%Z.compare_eq. reflexivity.
Qed.

Lemma fecha_cmp_antisym (a b : fecha_t) :
  fecha_cmp b a = CompOpp (fecha_cmp a b).
Proof.
  destruct a as [s|d], b as [t|e]; simpl; try reflexivity.
  - apply String.compare_antisym.
  - apply Z.compare_antisym.
Qed.

Lemma fecha_cmp_trans (a b c : fecha_t) :
  fecha_cmp a b = Lt -> fecha_cmp b c = Lt -> fecha_cmp a c = Lt.
Proof.
  destruct a as [s|d], b as [t|e], c as [u|f]; simpl; try congruence.
  - intros H1 H2. apply OrderedTypeEx.String_as_OT.cmp_lt.
    apply OrderedTypeEx.String_as_OT.cmp_lt in H1, H2.
    eapply OrderedTypeEx.String_as_OT.lt_trans; eassumption.
  - rewrite !Z.compare_lt_iff. lia.
Qed.

Lemma indice_cmp_eq (a b : indice) : indice_cmp a b = Eq -> a = b.
Proof.
  destruct a as [fa ha], b as [fb hb]. unfold indice_cmp. simpl.
  destruct (fecha_cmp fa fb) eqn:E; try discriminate.
  intros ->%Z.compare_eq. now rewrite (fecha_cmp_eq _ _ E).
Qed.

Lemma indice_cmp_antisym (a b : indice) :
  indice_cmp b a = CompOpp (indice_cmp a b).
Proof.
  unfold indice_cmp. rewrite (fecha_cmp_antisym a.1 b.1).
  destruct (fecha_cmp a.1 b.1); simpl; try reflexivity.
  apply Z.compare_antisym.
Qed.

Lemma indice_cmp_trans (a b c : indice) :
  indice_cmp a b = Lt -> indice_cmp b c = Lt -> indice_cmp a c = Lt.
Proof.
  destruct a as [fa ha], b as [fb hb], c as [fc hc]. unfold indice_cmp. simpl.
  destruct (fecha_cmp fa fb) eqn:E1; try discriminate;
    destruct (fecha_cmp fb fc) eqn:E2; try discriminate.
  - apply fecha_cmp_eq in E1, E2. subst. rewrite !Z.compare_lt_iff.
    assert (fecha_cmp fc fc = Eq) as ->.
    { pose proof (fecha_cmp_antisym fc fc) as Ha.
      destruct (fecha_cmp fc fc); simpl in Ha; congruence. }
    rewrite Z.compare_lt_iff. lia.
  - apply fecha_cmp_eq in E1. subst. rewrite E2. reflexivity.
  - apply fecha_cmp_eq in E2. subst. rewrite E1. reflexivity.
  - rewrite (fecha_cmp_trans _ _ _ E1 E2). reflexivity.
Qed.

Local Abbreviation creciente :=
  (Sorted.StronglySorted (fun a b : indice => indice_cmp a b = Lt)).

Lemma insertar_creciente (k : indice) (l : list indice) :
  creciente l -> creciente (insertar k l).
Proof.
  induction 1 as [|x l Hl IH Hx]; simpl.
  - constructor; constructor.
  - destruct (indice_cmp k x) eqn:E.
    + now constructor.
    + constructor; [now constructor|]. constructor; [exact E|].
      eapply List.Forall_impl; [|exact Hx]. intros y Hy.
      exact (indice_cmp_trans _ _ _ E Hy).
    + constructor; [exact IH|]. apply List.Forall_forall. intros y Hy.
      apply insertar_In in Hy as [->|Hy].
      * rewrite indice_cmp_antisym, E. reflexivity.
      * rewrite List.Forall_forall in Hx. auto.
Qed.

Lemma indices_creciente (obs : list observacion) : creciente (indices obs).
Proof.
  induction obs as [|o obs IH]; simpl; [constructor|].
  now apply insertar_creciente.
Qed.

Lemma insertar_contiene (k x : indice) (l : list indice) :
  x = k \/ In x l -> In x (insertar k l).
Proof.
  induction l as [|y l IH]; simpl; [intros [->|[]]; now left|].
  destruct (indice_cmp k y) eqn:E; simpl.
  - apply indice_cmp_eq in E. subst. intros [->|H]; [now left|exact H].
  - intros [->|H]; [now left|now right].
  - intros [->|[->|H]].
    + right. apply IH. now left.
    + now left.
    + right. apply IH. now right.
Qed.

Lemma indices_contiene (o : observacion) (obs : list observacion) :
  In o obs -> In (o_indice o) (indices obs).
Proof.
  induction obs as [|o' obs IH]; simpl; [tauto|].
  intros [->|H]; apply insertar_contiene; auto.
Qed.

Lemma creciente_ultimo (l : list indice) (k x : indice) :
  creciente (l ++ [k]) -> In x (l ++ [k]) -> indice_cmp x k <> Gt.
Proof.
  induction l as [|y l IH]; simpl.
  - intros _ [<-|[]]. now rewrite indice_cmp_refl.
  - intros [Hl Hy]%Sorted.StronglySorted_inv [<-|Hx]; [|auto].
    rewrite List.Forall_forall in Hy. rewrite (Hy k); [discriminate|].
    apply in_or_app. right. now left.
Qed.

Lemma tail1_snoc {C} (df : tabla C) (r : indice * gmap string C) :
  tail1 (df ++ [r]) = [r].
Proof. unfold tail1. now rewrite reverse_snoc. Qed.

Lemma filas_utiles_con_valor (claves : list string) (b : bloque)
    (o : observacion) :
  In o (filas_utiles claves b) -> con_valor o = true.
Proof.
  destruct b as [| |d]; simpl; try tauto.
  intros (key & _ & Hk)%in_flat_map.
  destruct (d !! key) as [[data|]|]; simpl in Hk; try tauto.
  apply in_flat_map in Hk as ([|r|] & _ & Hr); simpl in Hr; try tauto.
  destruct (con_claves r) as [o'|]; simpl in Hr; [|tauto].
  destruct (con_valor o') eqn:E; simpl in Hr; [|tauto].
  destruct Hr as [<-|[]]. exact E.
Qed.

Lemma filter_todos {A} (f : A -> bool) (l : list A) :
  (forall x, In x l -> f x = true) -> List.filter f l = l.
Proof.
  induction l as [|x l IH]; intros Hf; [reflexivity|]. simpl.
  rewrite (Hf x) by now left. f_equal. apply IH. intros y Hy. apply Hf.
  now right.
Qed.

Section UltimaFila.

Variable aggfunc : list float -> float.

(** The last row of a pivot: its index is the index of one of the rows
    with a value, and no such row has a greater one. *)
Lemma tail1_pivot_table (filas : list observacion) :
  (length (tail1 (pivot_table aggfunc filas)) <= 1)%nat /\
  forall k fila,
    In (k, fila) (tail1 (pivot_table aggfunc filas)) ->
    In (k, fila) (pivot_table aggfunc filas) /\
    (exists o, In o filas /\ con_valor o = true /\ o_indice o = k) /\
    (forall o, In o filas -> con_valor o = true ->
               indice_cmp (o_indice o) k <> Gt).
Proof.
  split.
  { unfold tail1. destruct (reverse _); simpl; lia. }
  intros k fila Hin. split; [exact (proj2 (tail1_In _ _ Hin))|].
  unfold pivot_table in Hin.
  set (obs := List.filter con_valor filas) in *.
  pose proof (indices_creciente obs) as Hs.
  pose proof (indices_contiene) as Hc.
  remember (indices obs) as li eqn:Ei.
  destruct li as [|k0 l _] using rev_ind; [destruct Hin|]. symmetry in Ei.
  rewrite map_app in Hin. simpl in Hin. rewrite tail1_snoc in Hin.
  destruct Hin as [[= <- <-]|[]]. split.
  - destruct (indices_In k0 obs) as (o & Ho & Hk).
    { rewrite Ei. apply in_or_app. right. now left. }
    apply filter_In in Ho as [Ho Hv]. eauto.
  - intros o Ho Hv. apply (creciente_ultimo l); [exact Hs|].
    rewrite <- Ei. apply Hc. apply filter_In. auto.
Qed.

End UltimaFila.

Lemma valores_en_In (o : observacion) (obs : list observacion) :
  In o obs -> In (o_valor o) (valores_en (o_indice o) (o_parametro o) obs).
Proof.
  intros Ho. unfold valores_en. apply list_elem_of_In, list_elem_of_fmap.
  exists o. split; [reflexivity|]. apply list_elem_of_In, filter_In.
  split; [exact Ho|]. unfold indice_eqb. rewrite indice_cmp_refl.
  now rewrite String.eqb_refl.
Qed.

Section Rows.

Variable aggfunc : list float -> float.

(** C8. Nulls and malformed rows in the row sequences do not fail the
    parse and leave no trace in its output, and the well-formed rows do
    reach it: on a page whose blobs are each absent or decodable the fetch
    returns without a diagnostic, it returns what it returns on the page
    with those rows taken out, and each cell of the returned row is the
    aggregate of the values that the usable objects give for that
    parameter at the row's date and hour.  When the page has a usable
    object the fetch returns one row, that of the latest date and hour
    among the usable objects, and the value of every usable object of
    that date and hour is among those aggregated in the cell of its
    parameter; when it has none, the fetch returns no row. *)
Theorem filas_nulas_omitidas (w w' : mundo) (estId : Z) (html : pagina) :
  estacion_php w estId = Html html ->
  estacion_php w' estId = Html (limpiar html) ->
  valido (conts html) = true -> valido (meteo html) = true ->
  let U := filas_utiles claves_conts (conts html)
           ++ filas_utiles claves_meteo (meteo html) in
  get_sinaica_data aggfunc w estId = get_sinaica_data aggfunc w' estId /\
  exists df,
    get_sinaica_data aggfunc w estId = Ok (df, []) /\
    (forall idx fila t p,
       df = Some t -> In (idx, fila) t ->
       fila !! p =
         match valores_en idx p U with
         | [] => if existsb (fun o => String.eqb (o_parametro o) p) U
                 then Some nan else None
         | vs => Some (aggfunc vs)
         end) /\
    (U = [] -> sin_datos df = true) /\
    (U <> [] ->
     exists idx fila,
       df = Some [(idx, fila)] /\
       (exists o, In o U /\ o_indice o = idx) /\
       (forall o, In o U -> indice_cmp (o_indice o) idx <> Gt) /\
       forall o, In o U -> o_indice o = idx ->
         In (o_valor o) (valores_en idx (o_parametro o) U) /\
         fila !! o_parametro o
         = Some (aggfunc (valores_en idx (o_parametro o) U))).
Proof.
  intros Hw Hw' Hc Hm U.
  destruct (sinaica_cuerpo_valida aggfunc _ _ _ Hw Hc Hm)
    as (dfs1 & dfs2 & E1 & E2 & Hb).
  assert (valido (conts (limpiar html)) = true) as Hc'
    by (simpl; destruct (conts html); auto).
  assert (valido (meteo (limpiar html)) = true) as Hm'
    by (simpl; destruct (meteo html); auto).
  destruct (sinaica_cuerpo_valida aggfunc _ _ _ Hw' Hc' Hm')
    as (dfs1' & dfs2' & E1' & E2' & Hb').
  simpl in E1', E2', Hb'. rewrite !filas_utiles_limpiar in Hb'.
  fold U in Hb, Hb'.
  pose proof (leer_bloque_limpiar claves_conts (conts html)) as L1.
  pose proof (leer_bloque_limpiar claves_meteo (meteo html)) as L2.
  rewrite E1, E1' in L1. rewrite E2, E2' in L2.
  assert (match dfs1' ++ dfs2' with
          | [] => None
          | _ => Some (tail1 (pivot_table aggfunc U))
          end
          = match dfs1 ++ dfs2 with
            | [] => None
            | _ => Some (tail1 (pivot_table aggfunc U))
            end) as Heq.
  { destruct dfs1, dfs1'; try discriminate; simpl; [|reflexivity].
    destruct dfs2, dfs2'; try discriminate; reflexivity. }
  rewrite Heq in Hb'.
  assert (forall o, In o U -> con_valor o = true) as Hval.
  { intros o [Ho|Ho]%in_app_or; eapply filas_utiles_con_valor; exact Ho. }
  pose proof (filter_todos _ _ Hval) as HfU.
  assert (U <> [] -> dfs1 ++ dfs2 <> []) as Hdfs.
  { intros HU Hd. apply app_eq_nil in Hd as [-> ->]. apply HU. unfold U.
    destruct (filas_utiles claves_conts (conts html)) eqn:F1.
    - destruct (filas_utiles claves_meteo (meteo html)) eqn:F2; [reflexivity|].
      exfalso. eapply (filas_utiles_dfs _ _ _ E2); [congruence|reflexivity].
    - exfalso. eapply (filas_utiles_dfs _ _ _ E1); [congruence|reflexivity]. }
  split.
  - unfold get_sinaica_data. now rewrite Hb, Hb'.
  - eexists. split; [unfold get_sinaica_data; rewrite Hb; reflexivity|].
    split; [|split].
    + intros idx fila t p Ht Hin.
      destruct (dfs1 ++ dfs2); [discriminate|]. injection Ht as <-.
      apply tail1_In in Hin as [_ Hin].
      rewrite (pivot_table_celda _ _ _ _ p Hin). now rewrite HfU.
    + intros HU. destruct (dfs1 ++ dfs2); [reflexivity|]. simpl.
      assert (tail1 (pivot_table aggfunc U) = []) as ->; [|reflexivity].
      apply tail1_vacia, pivot_table_vacia. now rewrite HU.
    + intros HU. specialize (Hdfs HU).
      destruct (dfs1 ++ dfs2) eqn:Ed; [congruence|].
      destruct (tail1_pivot_table aggfunc U) as [Hlen Hrow].
      destruct (tail1 (pivot_table aggfunc U)) as [|[idx fila] cola] eqn:Et.
      { apply tail1_vacia, pivot_table_vacia in Et. rewrite HfU in Et.
        contradiction. }
      destruct cola; [|simpl in Hlen; lia].
      destruct (Hrow idx fila (or_introl eq_refl))
        as (Hin & (o & Ho & _ & Hk) & Hmax).
      exists idx, fila. split; [reflexivity|]. split; [eauto|]. split.
      * intros o' Ho'. apply Hmax; auto.
      * intros o' Ho' Hk'. pose proof (valores_en_In o' U Ho') as Hv.
        rewrite Hk' in Hv. split; [exact Hv|].
        rewrite (pivot_table_celda _ _ _ _ (o_parametro o') Hin), HfU.
        destruct (valores_en idx (o_parametro o') U); [destruct Hv|reflexivity].
Qed.

End Rows.

Lemma filas_nulas_omitidas_testigo :
  let U := filas_utiles claves_conts (conts pagina_ejemplo)
           ++ filas_utiles claves_meteo (meteo pagina_ejemplo) in
  get_sinaica_data mean (mundo_de pagina_ejemplo) 256
  = get_sinaica_data mean (mundo_de (limpiar pagina_ejemplo)) 256 /\
  exists df,
    get_sinaica_data mean (mundo_de pagina_ejemplo) 256 = Ok (df, []) /\
    (forall idx fila t p,
       df = Some t -> In (idx, fila) t ->
       fila !! p =
         match valores_en idx p U with
         | [] => if existsb (fun o => String.eqb (o_parametro o) p) U
                 then Some nan else None
         | vs => Some (mean vs)
         end) /\
    (U = [] -> sin_datos df = true) /\
    (U <> [] ->
     exists idx fila,
       df = Some [(idx, fila)] /\
       (exists o, In o U /\ o_indice o = idx) /\
       (forall o, In o U -> indice_cmp (o_indice o) idx <> Gt) /\
       forall o, In o U -> o_indice o = idx ->
         In (o_valor o) (valores_en idx (o_parametro o) U) /\
         fila !! o_parametro o
         = Some (mean (valores_en idx (o_parametro o) U))).
Proof.
  exact (filas_nulas_omitidas mean (mundo_de pagina_ejemplo)
           (mundo_de (limpiar pagina_ejemplo)) 256 pagina_ejemplo
           eq_refl eq_refl eq_refl eq_refl).
Defined.

(** The example page, evaluated: the row of 12 h, with the four parameters
    that have a value, and nothing from the null and the malformed rows. *)
Example pagina_ejemplo_evaluada :
  let df := tabla_de (get_sinaica_data mean (mundo_de pagina_ejemplo) 256) in
  filas df = 1%nat /\ indice1 df = Some (FechaTexto "2024-05-01", 12) /\
  fila1 df !! "CO" = Some 4.0%float /\ fila1 df !! "O3" = Some 0.10%float /\
  fila1 df !! "NOx" = Some 0.3%float /\ fila1 df !! "TMP" = Some 21.5%float /\
  size (fila1 df) = 4%nat.
Proof. vm_compute. repeat split. Qed.

(* ===================================================================== *)
(** * The scan loop *)
(* ===================================================================== *)

Lemma max_desde_Exception l m k e :
  max_desde m k l = Lanza e -> es_Exception e = true.
Proof.
  revert m k. induction l as [|x l IH]; intros m k; simpl; [discriminate|].
  destruct x as [y|[q|]|s]; simpl; try (intros [= <-]; reflexivity).
  destruct (k <? orden q); apply IH.
Qed.

Lemma calidad_global_Exception row e :
  calidad_global row = Lanza e -> es_Exception e = true.
Proof.
  unfold calidad_global.
  match goal with
  | |- context [List.filter ?f ?l] => destruct (List.filter f l) as [|x l']
  end; [discriminate|].
  simpl. destruct x as [y|[q|]|s]; simpl; try (intros [= <-]; reflexivity).
  apply max_desde_Exception.
Qed.

Lemma evaluar_calidad_aire_Exception df e :
  evaluar_calidad_aire df = Lanza e -> es_Exception e = true.
Proof.
  destruct df as [df|]; simpl; [|discriminate].
  destruct (empty df); [discriminate|].
  destruct (mapM _ df) as [filas|e'] eqn:Em; simpl; [discriminate|].
  intros [= <-]. apply mapM_Lanza in Em as ([idx lectura] & _ & Hr).
  unfold evaluar_fila in Hr.
  destruct (calidad_global _) as [g|e''] eqn:Eg; simpl in Hr; [discriminate|].
  injection Hr as <-. eapply calidad_global_Exception; exact Eg.
Qed.

Lemma preparar_Exception fuente estacion df e :
  preparar fuente estacion df = Lanza e -> es_Exception e = true.
Proof.
  unfold preparar.
  destruct (evaluar_calidad_aire df) as [[t|]|e'] eqn:Ee; simpl.
  - unfold reset_index. destruct (asignar _ _ _) as [|[idx cols] l];
      [discriminate|].
    case_bool_decide; [intros [= <-]; reflexivity|discriminate].
  - intros [= <-]. reflexivity.
  - intros [= <-]. eapply evaluar_calidad_aire_Exception; exact Ee.
Qed.

Section ScanLemmas.

Variable get_sinaica : Z -> respuesta_t.
Variable get_openaq : Z -> string -> respuesta_t.

Lemma consulta_sinaica_efecto (estacion : string) (i : estacion_info)
    (st : estado) :
  no_interrumpe (get_sinaica (sinaica i)) ->
  exists st',
    consulta_sinaica get_sinaica estacion i st = (st', Ok tt) /\
    consultas st' = consultas st ++ [("SINAICA", estacion)] /\
    resultados st' = resultados st
      ++ option_list (aporte "SINAICA" estacion (get_sinaica (sinaica i))) /\
    datos_para_mapa st' =
      match aporte "SINAICA" estacion (get_sinaica (sinaica i)) with
      | Some t =>
          if falta_sinaica estacion st
          then <[estacion := entrada_de "SINAICA" t]> (datos_para_mapa st)
          else datos_para_mapa st
      | None => datos_para_mapa st
      end.
Proof.
  intros Hr. unfold consulta_sinaica, aporte, intentar, levantar, modificar,
    leer, mbind, prog_bind, mret, prog_ret. simpl.
  destruct (get_sinaica (sinaica i)) as [[df ds]|e]; simpl in *.
  - destruct (sin_datos df); simpl.
    + eexists. split; [reflexivity|]. simpl. rewrite app_nil_r. auto.
    + destruct (preparar "SINAICA" estacion df) as [t|e] eqn:Ep; simpl.
      * unfold falta_sinaica at 1. simpl. fold (falta_sinaica estacion st).
        destruct (falta_sinaica estacion st); simpl;
          (eexists; split; [reflexivity|]; simpl; auto).
      * rewrite (preparar_Exception _ _ _ _ Ep).
        eexists. split; [reflexivity|]. simpl. rewrite app_nil_r. auto.
  - rewrite Hr. eexists. split; [reflexivity|]. simpl.
    rewrite app_nil_r. auto.
Qed.

Lemma consulta_openaq_efecto (idx : nat) (estacion : string)
    (i : estacion_info) (st : estado) :
  no_interrumpe (get_openaq (openaq i) (api_key idx)) ->
  exists st',
    consulta_openaq get_openaq idx estacion i st = (st', Ok tt) /\
    consultas st' = consultas st ++ [("OPENAQ", estacion)] /\
    resultados st' = resultados st
      ++ option_list (aporte "OPENAQ" estacion
                        (get_openaq (openaq i) (api_key idx))) /\
    datos_para_mapa st' =
      match aporte "OPENAQ" estacion (get_openaq (openaq i) (api_key idx)) with
      | Some t =>
          if falta estacion st
          then <[estacion := entrada_de "OPENAQ" t]> (datos_para_mapa st)
          else datos_para_mapa st
      | None => datos_para_mapa st
      end.
Proof.
  intros Hr. unfold consulta_openaq, aporte, intentar, levantar, modificar,
    leer, mbind, prog_bind, mret, prog_ret. simpl.
  destruct (get_openaq (openaq i) (api_key idx)) as [[df ds]|e]; simpl in *.
  - destruct (sin_datos df); simpl.
    + eexists. split; [reflexivity|]. simpl. rewrite app_nil_r. auto.
    + destruct (preparar "OPENAQ" estacion df) as [t|e] eqn:Ep; simpl.
      * unfold falta at 1. simpl. fold (falta estacion st).
        destruct (falta estacion st); simpl;
          (eexists; split; [reflexivity|]; simpl; auto).
      * rewrite (preparar_Exception _ _ _ _ Ep).
        eexists. split; [reflexivity|]. simpl. rewrite app_nil_r. auto.
  - rewrite Hr. eexists. split; [reflexivity|]. simpl.
    rewrite app_nil_r. auto.
Qed.

End ScanLemmas.

Section Scan.

Variable get_sinaica : Z -> respuesta_t.
Variable get_openaq : Z -> string -> respuesta_t.
Variable fuente_seleccionada : seleccion.

Hypothesis sinaica_no_interrumpe : forall estId, no_interrumpe (get_sinaica estId).
Hypothesis openaq_no_interrumpe :
  forall estId API_KEY, no_interrumpe (get_openaq estId API_KEY).

Local Abbreviation paso' := (paso get_sinaica get_openaq fuente_seleccionada).
Local Abbreviation recorrer' := (recorrer get_sinaica get_openaq fuente_seleccionada).
Local Abbreviation primaria' := (primaria get_sinaica get_openaq fuente_seleccionada).
Local Abbreviation aportes' := (aportes_de get_sinaica get_openaq fuente_seleccionada).

Lemma paso_efecto (idx : nat) (estacion : string) (i : estacion_info)
    (st : estado) :
  ESTACIONES !! estacion = Some i ->
  datos_para_mapa st !! estacion = None ->
  exists st',
    paso' idx estacion st = (st', Ok tt) /\
    consultas st' = consultas st ++ consultas_de fuente_seleccionada estacion /\
    resultados st' = resultados st ++ aportes' idx estacion i /\
    datos_para_mapa st' =
      match primaria' idx estacion i with
      | Some en => <[estacion := en]> (datos_para_mapa st)
      | None => datos_para_mapa st
      end.
Proof.
  intros Hi Hst.
  destruct (consulta_sinaica_efecto get_sinaica estacion i st
              (sinaica_no_interrumpe _)) as (st1 & E1 & C1 & R1 & M1).
  assert (falta_sinaica estacion st = true) as Hf
    by (unfold falta_sinaica; now rewrite Hst).
  rewrite Hf in M1.
  unfold paso, primaria, aportes_de, aporte_sinaica, aporte_openaq,
    consultas_de, mbind, prog_bind, levantar, mret, prog_ret.
  rewrite Hi.
  destruct (pide_sinaica fuente_seleccionada).
  - rewrite E1.
    destruct (pide_openaq fuente_seleccionada).
    + destruct (consulta_openaq_efecto get_openaq idx estacion i st1
                  (openaq_no_interrumpe _ _)) as (st2 & E2 & C2 & R2 & M2).
      exists st2. split; [exact E2|].
      rewrite C2, C1, R2, R1, M2, <- !app_assoc.
      split; [reflexivity|]. split; [reflexivity|].
      unfold falta. rewrite M1.
      destruct (aporte "SINAICA" estacion _) as [t|].
      * rewrite lookup_insert_eq.
        rewrite bool_decide_eq_false_2 by discriminate.
        destruct (aporte "OPENAQ" estacion _); reflexivity.
      * rewrite bool_decide_eq_true_2 by exact Hst.
        destruct (aporte "OPENAQ" estacion _); reflexivity.
    + exists st1. split; [reflexivity|]. rewrite C1, R1, M1.
      simpl. rewrite !app_nil_r.
      destruct (aporte "SINAICA" estacion _); auto.
  - destruct (pide_openaq fuente_seleccionada).
    + destruct (consulta_openaq_efecto get_openaq idx estacion i st
                  (openaq_no_interrumpe _ _)) as (st2 & E2 & C2 & R2 & M2).
      exists st2. split; [exact E2|]. rewrite C2, R2, M2.
      unfold falta. rewrite bool_decide_eq_true_2 by exact Hst. simpl.
      destruct (aporte "OPENAQ" estacion _); auto.
    + exists st. simpl. rewrite !app_nil_r. auto.
Qed.

Lemma recorrer_efecto (estaciones : list string) :
  forall (n : nat) (st : estado),
    NoDup estaciones ->
    Forall (fun e => is_Some (ESTACIONES !! e)) estaciones ->
    Forall (fun e => datos_para_mapa st !! e = None) estaciones ->
    exists st',
      recorrer' n estaciones st = (st', Ok tt) /\
      consultas st' = consultas st
        ++ flat_map (consultas_de fuente_seleccionada) estaciones /\
      resultados st' = resultados st
        ++ concat (imap (fun j e =>
                           match ESTACIONES !! e with
                           | Some i => aportes' (n + j) e i
                           | None => []
                           end) estaciones) /\
      (forall e, ~ In e estaciones ->
                 datos_para_mapa st' !! e = datos_para_mapa st !! e) /\
      (forall j e i, estaciones !! j = Some e -> ESTACIONES !! e = Some i ->
                     datos_para_mapa st' !! e = primaria' (n + j)%nat e i).
Proof.
  induction estaciones as [|estacion resto IH]; intros n st Hnd Hin Hst.
  - exists st. simpl. rewrite !app_nil_r.
    repeat split; try reflexivity. intros j e i Hj. discriminate.
  - apply NoDup_cons in Hnd as [Hnotin Hnd].
    inversion Hin as [|? ? [i Hi] Hin']; subst.
    inversion Hst as [|? ? Hst0 Hst']; subst.
    destruct (paso_efecto n estacion i st Hi Hst0) as (st1 & E1 & C1 & R1 & M1).
    assert (forall e, e <> estacion ->
              datos_para_mapa st1 !! e = datos_para_mapa st !! e) as Hotro.
    { intros e He. rewrite M1. destruct (primaria' n estacion i); [|reflexivity].
      now rewrite lookup_insert_ne by congruence. }
    destruct (IH (S n) st1 Hnd Hin') as (st2 & E2 & C2 & R2 & M2 & P2).
    { rewrite List.Forall_forall in Hst' |- *. intros e He.
      rewrite Hotro; [now apply Hst'|].
      intros ->. apply Hnotin. now apply list_elem_of_In. }
    exists st2. split; [|split; [|split; [|split]]].
    + simpl. unfold mbind, prog_bind. rewrite E1. exact E2.
    + rewrite C2, C1. simpl. now rewrite app_assoc.
    + rewrite R2, R1. simpl. rewrite Hi, Nat.add_0_r, <- app_assoc.
      do 3 f_equal. apply imap_ext. intros j e _. simpl.
      now rewrite Nat.add_succ_r.
    + intros e He. rewrite M2 by (intros H'; apply He; now right).
      apply Hotro. intros ->. apply He. now left.
    + intros [|j] e i' Hj Hi'; simpl in Hj.
      * injection Hj as <-. rewrite Hi in Hi'. injection Hi' as <-.
        rewrite M2 by (intros H'; apply Hnotin; now apply list_elem_of_In).
        rewrite M1, Nat.add_0_r.
        destruct (primaria' n estacion i); [|exact Hst0].
        apply lookup_insert_eq.
      * rewrite (P2 j e i' Hj Hi'). f_equal. lia.
Qed.

End Scan.

(* ===================================================================== *)
(** * Which source is primary *)
(* ===================================================================== *)

(** A classified row keeps every column of the reading, but for the six
    names that the classification writes. *)
Lemma evaluar_fila_conserva (lectura : gmap string float)
    (fila : gmap string celda) (k : string) :
  evaluar_fila lectura = Ok fila ->
  ~ In k ("calidad_global" :: columnas_calidad) ->
  fila !! k = Num <$> lectura !! k.
Proof.
  unfold evaluar_fila. intros Hf Hk.
  apply bind_Ok_inv in Hf as (g & _ & [= <-]).
  assert (k <> "calidad_global" /\ k <> "calidad_CO" /\ k <> "calidad_O3" /\
          k <> "calidad_NO2" /\ k <> "calidad_NOx" /\ k <> "calidad_NO")
    as (N0 & N1 & N2 & N3 & N4 & N5).
  { unfold columnas_calidad in Hk. simpl in Hk.
    repeat split; intros ->; tauto. }
  rewrite lookup_insert_ne by congruence.
  rewrite !aplicar_lookup, lookup_fmap.
  repeat case_decide; try congruence.
  destruct (lectura !! "NO"), (lectura !! "NOX"), (lectura !! "NO2"),
    (lectura !! "O3"), (lectura !! "CO"); reflexivity.
Qed.

Lemma asignar_cons col s idx fila df :
  asignar col s ((idx, fila) :: df) = (idx, <[col := Txt s]> fila) :: asignar col s df.
Proof. reflexivity. Qed.

(** A non-empty success on clean names contributes: its frame is kept, and
    the entry made of it carries the source and the overall rating of its
    first row. *)
Lemma aporte_con_exito (fuente estacion : string) (r : respuesta_t) :
  con_exito r ->
  exists df ds t idx lectura,
    r = Ok (Some df, ds) /\ head df = Some (idx, lectura) /\
    aporte fuente estacion r = Some t /\
    m_fuente (entrada_de fuente t) = fuente /\
    m_calidad_global (entrada_de fuente t) = Cal (peor (calificar lectura)).
Proof.
  intros (df & ds & -> & Hne & Hb).
  assert (Forall (fun r => limpia r.2) df) as Hl
    by (eapply Forall_impl; [exact Hb|]; simpl; tauto).
  destruct (evaluar_calidad_aire_limpia df Hne Hl) as (df' & He & Hf).
  destruct df as [|[idx lectura] df]; [discriminate|].
  inversion Hf as [|? [idx' fila] ? df'' (Hi & _ & Hg & Hk) Hf']; subst.
  inversion Hb as [|? ? (_ & Hfe & Hho) _]; subst.
  simpl in Hi, Hg, Hk, Hfe, Hho. subst idx'.
  exists ((idx, lectura) :: df), ds.
  eexists _, idx, lectura. split; [reflexivity|]. split; [reflexivity|].
  unfold aporte, sin_datos. rewrite Hne. unfold preparar.
  rewrite He. cbn [mbind resultado_bind]. rewrite !asignar_cons.
  unfold reset_index.
  rewrite bool_decide_eq_false_2.
  - split; [reflexivity|]. split; [reflexivity|].
    unfold entrada_de, row_get. simpl.
    rewrite !lookup_insert_ne by discriminate. now rewrite Hg.
  - rewrite !lookup_insert_ne by discriminate.
    rewrite (Hk "fecha"), (Hk "hora"), Hfe, Hho.
    + intros [[? [=]]|[? [=]]].
    + unfold columnas_calidad. simpl. intros H.
      repeat (destruct H as [H|H]; [discriminate H|]). exact H.
    + unfold columnas_calidad. simpl. intros H.
      repeat (destruct H as [H|H]; [discriminate H|]). exact H.
Qed.

Lemma aporte_sin_exito (fuente estacion : string) (r : respuesta_t) :
  sin_exito r -> aporte fuente estacion r = None.
Proof.
  destruct r as [[df ds]|e]; simpl; [|reflexivity]. now intros ->.
Qed.

(** A frame with a parameter named "fecha" or "hora" contributes nothing:
    if the classification goes through, [reset_index] raises. *)
Lemma aporte_mal_nombrada (fuente estacion : string) (r : respuesta_t) :
  mal_nombrada r -> aporte fuente estacion r = None.
Proof.
  intros (df & ds & idx & lectura & -> & Hh & Hn).
  destruct df as [|[idx0 lectura0] df]; [discriminate|].
  injection Hh as -> ->.
  unfold aporte. destruct (sin_datos _); [reflexivity|]. unfold preparar.
  destruct (evaluar_calidad_aire _) as [[df'|]|e] eqn:Ee;
    cbn [mbind resultado_bind]; try reflexivity.
  pose proof (evaluar_calidad_aire_filas _ _ Ee) as Hf.
  inversion Hf as [|? [idx' fila] ? df'' [_ Hr] _]; subst. simpl in Hr.
  rewrite !asignar_cons. unfold reset_index.
  rewrite bool_decide_eq_true_2; [reflexivity|].
  rewrite !lookup_insert_ne by discriminate.
  assert (forall k, k = "fecha" \/ k = "hora" ->
            fila !! k = Num <$> lectura !! k) as Hk.
  { intros k Hk. apply (evaluar_fila_conserva _ _ k Hr).
    unfold columnas_calidad. simpl. intros H.
    destruct Hk as [-> | ->];
      repeat (destruct H as [H|H]; [discriminate H|]); exact H. }
  rewrite (Hk "fecha"), (Hk "hora") by auto.
  destruct Hn as [[x Hx]|[x Hx]]; rewrite Hx; simpl; eauto.
Qed.

Section Primaria.

Variable get_sinaica : Z -> respuesta_t.
Variable get_openaq : Z -> string -> respuesta_t.

(** C4, as the code has it. With both sources requested, over stations of
    the catalogue selected without repetition, the scan ends and leaves for
    each station the entry of the first source, SINAICA before OpenAQ,
    that contributed a frame: one that its fetch returned non-empty and
    that the loop classified, tagged and re-indexed without an exception.
    A station whose SINAICA fetch is a non-empty success on a frame with
    no parameter named like a rating column, "fecha" or "hora" has SINAICA
    as primary, with the overall rating of that reading.  When the SINAICA
    fetch fails or is empty, or is a non-empty success on a frame with a
    parameter named "fecha" or "hora", and the OpenAQ fetch is a non-empty
    success on clean names, OpenAQ is primary. *)
Theorem primaria_por_orden (estaciones_seleccionadas : list string) :
  NoDup estaciones_seleccionadas ->
  Forall (fun e => is_Some (ESTACIONES !! e)) estaciones_seleccionadas ->
  (forall estId, no_interrumpe (get_sinaica estId)) ->
  (forall estId API_KEY, no_interrumpe (get_openaq estId API_KEY)) ->
  exists st,
    escanear get_sinaica get_openaq Ambas estaciones_seleccionadas
      = (st, Ok tt) /\
    forall idx estacion i,
      estaciones_seleccionadas !! idx = Some estacion ->
      ESTACIONES !! estacion = Some i ->
      datos_para_mapa st !! estacion
        = primaria get_sinaica get_openaq Ambas idx estacion i /\
      (con_exito (get_sinaica (sinaica i)) ->
       exists en df ds idx0 lectura,
         datos_para_mapa st !! estacion = Some en /\
         m_fuente en = "SINAICA" /\
         get_sinaica (sinaica i) = Ok (Some df, ds) /\
         head df = Some (idx0, lectura) /\
         m_calidad_global en = Cal (peor (calificar lectura))) /\
      (sin_exito (get_sinaica (sinaica i)) ->
       con_exito (get_openaq (openaq i) (api_key idx)) ->
       exists en, datos_para_mapa st !! estacion = Some en /\
                  m_fuente en = "OPENAQ") /\
      (mal_nombrada (get_sinaica (sinaica i)) ->
       con_exito (get_openaq (openaq i) (api_key idx)) ->
       exists en, datos_para_mapa st !! estacion = Some en /\
                  m_fuente en = "OPENAQ").
Proof.
  intros Hnd Hin Hs Ho.
  destruct (recorrer_efecto get_sinaica get_openaq Ambas Hs Ho
              estaciones_seleccionadas 0 estado_inicial Hnd Hin)
    as (st & E & _ & _ & _ & P).
  { apply List.Forall_forall. intros e _. apply lookup_empty. }
  exists st. split; [exact E|]. intros idx estacion i Hidx Hi.
  specialize (P idx estacion i Hidx Hi). simpl in P.
  split; [exact P|]. rewrite P. unfold primaria, aporte_sinaica, aporte_openaq.
  simpl. split; [|split].
  - intros Hex.
    destruct (aporte_con_exito "SINAICA" estacion _ Hex)
      as (df & ds & t & idx0 & lectura & Hr & Hh & Ha & Hf & Hg).
    rewrite Ha. exists (entrada_de "SINAICA" t), df, ds, idx0, lectura. auto.
  - intros Hno Hex. rewrite (aporte_sin_exito "SINAICA" estacion _ Hno).
    destruct (aporte_con_exito "OPENAQ" estacion _ Hex)
      as (df & ds & t & idx0 & lectura & Hr & Hh & Ha & Hf & Hg).
    rewrite Ha. simpl. eauto.
  - intros Hmal Hex. rewrite (aporte_mal_nombrada "SINAICA" estacion _ Hmal).
    destruct (aporte_con_exito "OPENAQ" estacion _ Hex)
      as (df & ds & t & idx0 & lectura & Hr & Hh & Ha & Hf & Hg).
    rewrite Ha. simpl. eauto.
Qed.

Variable fuente_seleccionada : seleccion.

(** C7, as the code has it. Over stations of the catalogue selected
    without repetition the scan ends; every requested source is asked for
    every station, whatever the other source answered; the frames kept are
    those of the sources that contributed, in order, and nothing else; and
    a station is left without entry exactly when no requested source
    contributed.  That is the case when each of them failed, was empty, or
    was a non-empty success on a frame with a parameter named "fecha" or
    "hora", which the loop cannot re-index; it is not the case as soon as
    one of them was a non-empty success on clean names. *)
Theorem fuentes_intentadas (estaciones_seleccionadas : list string) :
  NoDup estaciones_seleccionadas ->
  Forall (fun e => is_Some (ESTACIONES !! e)) estaciones_seleccionadas ->
  (forall estId, no_interrumpe (get_sinaica estId)) ->
  (forall estId API_KEY, no_interrumpe (get_openaq estId API_KEY)) ->
  exists st,
    escanear get_sinaica get_openaq fuente_seleccionada
             estaciones_seleccionadas = (st, Ok tt) /\
    consultas st
      = flat_map (consultas_de fuente_seleccionada) estaciones_seleccionadas /\
    resultados st
      = concat (imap (fun idx e =>
                        match ESTACIONES !! e with
                        | Some i => aportes_de get_sinaica get_openaq
                                      fuente_seleccionada idx e i
                        | None => []
                        end) estaciones_seleccionadas) /\
    forall idx estacion i,
      estaciones_seleccionadas !! idx = Some estacion ->
      ESTACIONES !! estacion = Some i ->
      (datos_para_mapa st !! estacion = None <->
       aporte_sinaica get_sinaica fuente_seleccionada estacion i = None /\
       aporte_openaq get_openaq fuente_seleccionada idx estacion i = None) /\
      (sin_exito (get_sinaica (sinaica i)) ->
       sin_exito (get_openaq (openaq i) (api_key idx)) ->
       datos_para_mapa st !! estacion = None) /\
      (pide_sinaica fuente_seleccionada = true /\
         con_exito (get_sinaica (sinaica i)) \/
       pide_openaq fuente_seleccionada = true /\
         con_exito (get_openaq (openaq i) (api_key idx)) ->
       is_Some (datos_para_mapa st !! estacion)) /\
      (sin_exito (get_sinaica (sinaica i)) \/
         mal_nombrada (get_sinaica (sinaica i)) ->
       sin_exito (get_openaq (openaq i) (api_key idx)) \/
         mal_nombrada (get_openaq (openaq i) (api_key idx)) ->
       datos_para_mapa st !! estacion = None).
Proof.
  intros Hnd Hin Hs Ho.
  destruct (recorrer_efecto get_sinaica get_openaq fuente_seleccionada Hs Ho
              estaciones_seleccionadas 0 estado_inicial Hnd Hin)
    as (st & E & C & R & _ & P).
  { apply List.Forall_forall. intros e _. apply lookup_empty. }
  exists st. split; [exact E|]. split; [exact C|]. split; [exact R|].
  intros idx estacion i Hidx Hi.
  specialize (P idx estacion i Hidx Hi). simpl in P. rewrite P.
  unfold primaria, aporte_sinaica, aporte_openaq.
  split; [|split; [|split]].
  - destruct (if pide_sinaica fuente_seleccionada then _ else None);
      [split; [discriminate|intros [[=] _]]|].
    destruct (if pide_openaq fuente_seleccionada then _ else None); simpl;
      [split; [discriminate|intros [_ [=]]]|tauto].
  - intros H1 H2.
    rewrite (aporte_sin_exito "SINAICA" estacion _ H1),
      (aporte_sin_exito "OPENAQ" estacion _ H2).
    destruct (pide_sinaica _), (pide_openaq _); reflexivity.
  - intros [[Hp Hex]|[Hp Hex]]; rewrite Hp.
    + destruct (aporte_con_exito "SINAICA" estacion _ Hex)
        as (df & ds & t & idx0 & lectura & Hr & Hh & Ha & _).
      rewrite Ha. eauto.
    + destruct (aporte_con_exito "OPENAQ" estacion _ Hex)
        as (df & ds & t & idx0 & lectura & Hr & Hh & Ha & _).
      rewrite Ha.
      destruct (if pide_sinaica fuente_seleccionada then _ else None);
        simpl; eauto.
  - intros H1 H2.
    assert (aporte "SINAICA" estacion (get_sinaica (sinaica i)) = None) as ->
      by (destruct H1; [now apply aporte_sin_exito
                       |now apply aporte_mal_nombrada]).
    assert (aporte "OPENAQ" estacion (get_openaq (openaq i) (api_key idx))
            = None) as ->
      by (destruct H2; [now apply aporte_sin_exito
                       |now apply aporte_mal_nombrada]).
    destruct (pide_sinaica _), (pide_openaq _); reflexivity.
Qed.

End Primaria.

Lemma primaria_por_orden_testigo :
  exists st,
    escanear (get_sinaica_data mean (mundo_de pagina_ejemplo))
             (get_openaq_data mean (mundo_de pagina_ejemplo))
             Ambas ["Merced"] = (st, Ok tt) /\
    forall idx estacion i,
      ["Merced"] !! idx = Some estacion ->
      ESTACIONES !! estacion = Some i ->
      datos_para_mapa st !! estacion
        = primaria (get_sinaica_data mean (mundo_de pagina_ejemplo))
                   (get_openaq_data mean (mundo_de pagina_ejemplo))
                   Ambas idx estacion i /\
      (con_exito (get_sinaica_data mean (mundo_de pagina_ejemplo) (sinaica i)) ->
       exists en df ds idx0 lectura,
         datos_para_mapa st !! estacion = Some en /\
         m_fuente en = "SINAICA" /\
         get_sinaica_data mean (mundo_de pagina_ejemplo) (sinaica i)
           = Ok (Some df, ds) /\
         head df = Some (idx0, lectura) /\
         m_calidad_global en = Cal (peor (calificar lectura))) /\
      (sin_exito (get_sinaica_data mean (mundo_de pagina_ejemplo) (sinaica i)) ->
       con_exito (get_openaq_data mean (mundo_de pagina_ejemplo) (openaq i)
                    (api_key idx)) ->
       exists en, datos_para_mapa st !! estacion = Some en /\
                  m_fuente en = "OPENAQ") /\
      (mal_nombrada (get_sinaica_data mean (mundo_de pagina_ejemplo) (sinaica i)) ->
       con_exito (get_openaq_data mean (mundo_de pagina_ejemplo) (openaq i)
                    (api_key idx)) ->
       exists en, datos_para_mapa st !! estacion = Some en /\
                  m_fuente en = "OPENAQ").
Proof.
  apply primaria_por_orden.
  - apply NoDup_singleton.
  - repeat constructor. vm_compute. eauto.
  - intros estId. apply get_sinaica_data_no_interrumpe.
  - intros estId API_KEY. apply get_openaq_data_no_interrumpe.
Defined.

(** The end-to-end reading of the specification: CO = 4.0 and O3 = 0.10 at
    the same date and hour classify as Good and Poor, Poor overall, and the
    scraped source, asked first, is the station's primary result. *)
Example escaneo_evaluado :
  let r := escanear (get_sinaica_data mean (mundo_de pagina_ejemplo))
                    (get_openaq_data mean (mundo_de pagina_ejemplo))
                    Ambas ["Merced"] in
  let en := datos_para_mapa r.1 !! "Merced" in
  r.2 = Ok tt /\
  m_fuente <$> en = Some "SINAICA" /\
  m_calidad_global <$> en = Some (Cal (Some Mala)) /\
  (en ≫= fun e => m_valores e !! "CO") = Some (Num 4.0) /\
  (en ≫= fun e => m_valores e !! "calidad_CO") = Some (Cal (Some Buena)) /\
  (en ≫= fun e => m_valores e !! "O3") = Some (Num 0.10) /\
  (en ≫= fun e => m_valores e !! "calidad_O3") = Some (Cal (Some Mala)) /\
  consultas r.1 = [("SINAICA", "Merced"); ("OPENAQ", "Merced")] /\
  length (resultados r.1) = 1%nat /\
  avisos r.1 = [ErrorOpenaq RequestException].
Proof. vm_compute. repeat split. Qed.

(** C4, the run that refutes it as stated: the SINAICA page has one row,
    of a parameter named "hora", and the OpenAQ sensors answer.  The
    SINAICA fetch is a non-empty success, without a diagnostic; the loop
    classifies its frame and then fails to re-index it, so that nothing of
    SINAICA is kept and OpenAQ, second in the order, is primary. *)
Lemma primaria_por_orden_contraejemplo :
  let sinaica_df := tabla_de (get_sinaica_data mean mundo_hora 256) in
  let r := escanear (get_sinaica_data mean mundo_hora)
                    (get_openaq_data mean mundo_hora)
                    Ambas ["Merced"] in
  get_sinaica_data mean mundo_hora 256 = Ok (sinaica_df, []) /\
  filas sinaica_df = 1%nat /\
  indice1 sinaica_df = Some (FechaTexto "2024-05-01", 12) /\
  map_to_list (fila1 sinaica_df) = [("hora", 4.0%float)] /\
  preparar "SINAICA" "Merced" sinaica_df = Lanza ValueError /\
  r.2 = Ok tt /\
  consultas r.1 = [("SINAICA", "Merced"); ("OPENAQ", "Merced")] /\
  m_fuente <$> datos_para_mapa r.1 !! "Merced" = Some "OPENAQ" /\
  map (map (fun fila => fila.2 !! "fuente")) (resultados r.1)
    = [[Some (Txt "OPENAQ")]] /\
  avisos r.1 = [ErrorConsulta "SINAICA" "Merced" ValueError].
Proof. vm_compute. repeat split. Qed.

(** The same page at a station whose REST API does not answer: the
    station is left without entry and without frame, although SINAICA
    returned a row. *)
Example hora_sin_entrada :
  let r := escanear (get_sinaica_data mean mundo_hora_solo)
                    (get_openaq_data mean mundo_hora_solo)
                    Ambas ["Merced"] in
  filas (tabla_de (get_sinaica_data mean mundo_hora_solo 256)) = 1%nat /\
  r.2 = Ok tt /\
  datos_para_mapa r.1 !! "Merced" = None /\
  resultados r.1 = [] /\
  avisos r.1 = [ErrorConsulta "SINAICA" "Merced" ValueError;
                ErrorOpenaq RequestException].
Proof. vm_compute. repeat split. Qed.

(** C7, the run that refutes it as stated: SINAICA does not answer, OpenAQ does.  Both are
    asked, but the only frame kept is the one of OpenAQ and the entry of the
    station is made of it: nothing of what is kept for the station records
    the SINAICA attempt or its failure, which only leaves a message on the
    page. *)
Lemma fuentes_intentadas_contraejemplo :
  let r := escanear (get_sinaica_data mean mundo_sensores)
                    (get_openaq_data mean mundo_sensores)
                    Ambas ["Merced"] in
  r.2 = Ok tt /\
  get_sinaica_data mean mundo_sensores 256
    = Ok (None, [ErrorSinaica RequestException]) /\
  consultas r.1 = [("SINAICA", "Merced"); ("OPENAQ", "Merced")] /\
  map (map (fun fila => fila.2 !! "fuente")) (resultados r.1)
    = [[Some (Txt "OPENAQ")]] /\
  map (fun e => (e.1, m_fuente e.2)) (map_to_list (datos_para_mapa r.1))
    = [("Merced", "OPENAQ")] /\
  avisos r.1 = [ErrorSinaica RequestException].
Proof. vm_compute. repeat split. Qed.

Lemma fuentes_intentadas_testigo :
  exists st,
    escanear (get_sinaica_data mean mundo_sensores)
             (get_openaq_data mean mundo_sensores)
             Ambas ["Merced"] = (st, Ok tt) /\
    consultas st = flat_map (consultas_de Ambas) ["Merced"] /\
    resultados st
      = concat (imap (fun idx e =>
                        match ESTACIONES !! e with
                        | Some i =>
                            aportes_de (get_sinaica_data mean mundo_sensores)
                                       (get_openaq_data mean mundo_sensores)
                                       Ambas idx e i
                        | None => []
                        end) ["Merced"]) /\
    forall idx estacion i,
      ["Merced"] !! idx = Some estacion ->
      ESTACIONES !! estacion = Some i ->
      (datos_para_mapa st !! estacion = None <->
       aporte_sinaica (get_sinaica_data mean mundo_sensores) Ambas estacion i
         = None /\
       aporte_openaq (get_openaq_data mean mundo_sensores) Ambas idx estacion i
         = None) /\
      (sin_exito (get_sinaica_data mean mundo_sensores (sinaica i)) ->
       sin_exito (get_openaq_data mean mundo_sensores (openaq i) (api_key idx)) ->
       datos_para_mapa st !! estacion = None) /\
      (pide_sinaica Ambas = true /\
         con_exito (get_sinaica_data mean mundo_sensores (sinaica i)) \/
       pide_openaq Ambas = true /\
         con_exito (get_openaq_data mean mundo_sensores (openaq i)
                      (api_key idx)) ->
       is_Some (datos_para_mapa st !! estacion)) /\
      (sin_exito (get_sinaica_data mean mundo_sensores (sinaica i)) \/
         mal_nombrada (get_sinaica_data mean mundo_sensores (sinaica i)) ->
       sin_exito (get_openaq_data mean mundo_sensores (openaq i)
                    (api_key idx)) \/
         mal_nombrada (get_openaq_data mean mundo_sensores (openaq i)
                         (api_key idx)) ->
       datos_para_mapa st !! estacion = None).
Proof.
  apply fuentes_intentadas.
  - apply NoDup_singleton.
  - repeat constructor. vm_compute. eauto.
  - intros estId. apply get_sinaica_data_no_interrumpe.
  - intros estId API_KEY. apply get_openaq_data_no_interrumpe.
Defined.

(* ===================================================================== *)
(** * Parameter names across the two sources *)
(* ===================================================================== *)

(** C6, evaluated where it fails.  NOx = 0.3 ppm is Poor.  Read from OpenAQ,
    whose names are upper-cased, it lands in column "NOX", is rated Poor and
    makes the overall rating Poor.  Read from SINAICA it lands in column
    "NOx", which the classification does not look at: it gets no rating and
    the overall rating is that of CO alone, Good. *)
Theorem nox_segun_la_fuente :
  let openaq_nox :=
    clasificada (clasificar (get_openaq_data mean mundo_sensores 10860
                               (api_key 0))) in
  let sinaica_nox :=
    clasificada (clasificar (get_sinaica_data mean (mundo_de pagina_nox) 256)) in
  calidad_nox (Some 0.3%float) = Some Mala /\
  (filas openaq_nox = 1%nat /\
   fila1 openaq_nox !! "CO" = Some (Num 4.0) /\
   fila1 openaq_nox !! "NOX" = Some (Num 0.3) /\
   fila1 openaq_nox !! "calidad_NOx" = Some (Cal (Some Mala)) /\
   fila1 openaq_nox !! "calidad_global" = Some (Cal (Some Mala))) /\
  (filas sinaica_nox = 1%nat /\
   fila1 sinaica_nox !! "CO" = Some (Num 4.0) /\
   fila1 sinaica_nox !! "NOx" = Some (Num 0.3) /\
   fila1 sinaica_nox !! "NOX" = None /\
   fila1 sinaica_nox !! "calidad_NOx" = None /\
   fila1 sinaica_nox !! "calidad_global" = Some (Cal (Some Buena))).
Proof. vm_compute. repeat split. Qed.

(* ===================================================================== *)
(** * The cache around the fetchers *)
(* ===================================================================== *)

Section CacheLemmas.

Context {K V : Type} `{Countable K}.
Variable ttl : Z.
Variable funcion : Z -> K -> V.

Lemma llamada_acierto ahora k (c : gmap K (guardada V)) e :
  c !! k = Some e -> vigente ttl ahora e = true ->
  llamada ttl funcion ahora k c = (valor e, c, 0%nat).
Proof. intros Hc Hv. unfold llamada. now rewrite Hc, Hv. Qed.

Lemma llamada_fallo ahora k (c : gmap K (guardada V)) :
  (forall e, c !! k = Some e -> vigente ttl ahora e = false) ->
  llamada ttl funcion ahora k c
  = (funcion ahora k,
     <[k := {| valor := funcion ahora k; guardada_en := ahora |}]> c, 1%nat).
Proof.
  intros Hc. unfold llamada. destruct (c !! k) as [e|]; [|reflexivity].
  now rewrite (Hc e eq_refl).
Qed.

Lemma llamada_otra ahora k k' (c : gmap K (guardada V)) :
  k' <> k -> (llamada ttl funcion ahora k' c).1.2 !! k = c !! k.
Proof.
  intros Hk. unfold llamada. destruct (c !! k') as [e|]; simpl.
  - destruct (vigente ttl ahora e); simpl; [reflexivity|].
    now apply lookup_insert_ne.
  - now apply lookup_insert_ne.
Qed.

Lemma llamada_conserva ahora k k' (c : gmap K (guardada V)) e :
  c !! k = Some e -> vigente ttl ahora e = true ->
  (llamada ttl funcion ahora k' c).1.2 !! k = Some e.
Proof.
  intros Hc Hv. destruct (decide (k' = k)) as [->|Hk].
  - now rewrite (llamada_acierto _ _ _ _ Hc Hv).
  - now rewrite llamada_otra.
Qed.

End CacheLemmas.

Section Cache.

Variable aggfunc : list float -> float.
Variable w : Z -> mundo.

Local Abbreviation atender' := (atender aggfunc w).
Local Abbreviation directa' := (directa aggfunc w).

Lemma atender_acierto ahora p c e :
  entrada_cache p c = Some e -> vigente 600 ahora e = true ->
  atender' ahora p c = (valor e, c, 0%nat).
Proof.
  destruct p as [estId|estId API_KEY]; simpl; intros Hc Hv;
    unfold sinaica_cacheada, openaq_cacheada;
    rewrite (llamada_acierto _ _ _ _ _ _ Hc Hv); destruct c; reflexivity.
Qed.

Lemma atender_fallo ahora p c :
  (forall e, entrada_cache p c = Some e -> vigente 600 ahora e = false) ->
  exists c',
    atender' ahora p c = (directa' ahora p, c', 1%nat) /\
    entrada_cache p c'
    = Some {| valor := directa' ahora p; guardada_en := ahora |}.
Proof.
  destruct p as [estId|estId API_KEY]; simpl; intros Hc;
    unfold sinaica_cacheada, openaq_cacheada;
    rewrite (llamada_fallo _ _ _ _ _ Hc); eexists; (split; [reflexivity|]);
    simpl; apply lookup_insert_eq.
Qed.

Lemma atender_otra ahora p p' c :
  p' <> p -> entrada_cache p (atender' ahora p' c).1.2 = entrada_cache p c.
Proof.
  intros Hp.
  destruct p as [estId|estId API_KEY], p' as [estId'|estId' API_KEY'];
    simpl; unfold sinaica_cacheada, openaq_cacheada.
  - pose proof (llamada_otra 600
      (fun t k => get_sinaica_data aggfunc (w t) k) ahora estId estId'
      (de_sinaica c)) as L.
    destruct (llamada _ _ _ _ _) as [[v m] n]. simpl in *.
    apply L. congruence.
  - destruct (llamada _ _ _ _ _) as [[v m] n]. reflexivity.
  - destruct (llamada _ _ _ _ _) as [[v m] n]. reflexivity.
  - pose proof (llamada_otra 600
      (fun t k => get_openaq_data aggfunc (w t) k.1 k.2) ahora
      (estId, API_KEY) (estId', API_KEY') (de_openaq c)) as L.
    destruct (llamada _ _ _ _ _) as [[v m] n]. simpl in *.
    apply L. congruence.
Qed.

Lemma atender_conserva ahora p p' c e :
  entrada_cache p c = Some e -> vigente 600 ahora e = true ->
  entrada_cache p (atender' ahora p' c).1.2 = Some e.
Proof.
  intros Hc Hv. destruct (decide (p' = p)) as [->|Hp].
  - now rewrite (atender_acierto _ _ _ _ Hc Hv).
  - now rewrite atender_otra.
Qed.

Lemma atender_todas_conserva ps t1 p c e :
  guardada_en e = t1 ->
  Forall (fun tp : Z * peticion => tp.1 < t1 + 600) ps ->
  entrada_cache p c = Some e ->
  entrada_cache p (atender_todas aggfunc w ps c).1 = Some e.
Proof.
  intros He. revert c. induction ps as [|[t p'] ps IH]; intros c Hps Hc;
    [exact Hc|].
  inversion Hps as [|? ? Ht Hps']; subst. simpl in Ht |- *.
  assert (vigente 600 t e = true) as Hv
    by (unfold vigente; apply Z.ltb_lt; lia).
  pose proof (atender_conserva t p p' c e Hc Hv) as Hc'.
  destruct (atender aggfunc w t p' c) as [[v c'] n]. simpl in Hc'.
  specialize (IH c' Hps' Hc').
  destruct (atender_todas aggfunc w ps c') as [c'' m]. exact IH.
Qed.

Lemma atender_todas_otras ps p c :
  Forall (fun tp : Z * peticion => tp.2 <> p) ps ->
  entrada_cache p (atender_todas aggfunc w ps c).1 = entrada_cache p c.
Proof.
  revert c. induction ps as [|[t p'] ps IH]; intros c Hps; [reflexivity|].
  inversion Hps as [|? ? Hp Hps']; subst. simpl in Hp |- *.
  pose proof (atender_otra t p p' c Hp) as Hc'.
  destruct (atender aggfunc w t p' c) as [[v c'] n]. simpl in Hc'.
  specialize (IH c' Hps').
  destruct (atender_todas aggfunc w ps c') as [c'' m]. simpl in *.
  congruence.
Qed.

(** C9, as the code has it. The entries are kept per decorated function
    and per tuple of its arguments: the station id for
    [get_sinaica_data], the station id and the API key for
    [get_openaq_data].  A fetch that finds no live entry runs the
    function once and stores what it returned.  Whatever other fetches
    are made in between, the same fetch repeated less than 600 s after it
    returns the same data without running the function; repeated 600 s
    after it or later, with no fetch of the same arguments in between, it
    runs the function again; and after [st.cache_data.clear()] every
    fetch runs its function. *)
Theorem cache_por_argumentos (p : peticion) (c : caches) (t1 t2 : Z)
    (ps : list (Z * peticion)) :
  (forall e, entrada_cache p c = Some e -> vigente 600 t1 e = false) ->
  let r1 := atender' t1 p c in
  let c2 := (atender_todas aggfunc w ps r1.1.2).1 in
  r1.2 = 1%nat /\ r1.1.1 = directa' t1 p /\
  (Forall (fun tp : Z * peticion => tp.1 < t1 + 600) ps -> t2 < t1 + 600 ->
   atender' t2 p c2 = (r1.1.1, c2, 0%nat)) /\
  (Forall (fun tp : Z * peticion => tp.2 <> p) ps -> t1 + 600 <= t2 ->
   exists c3, atender' t2 p c2 = (directa' t2 p, c3, 1%nat)) /\
  (forall t p', exists c3,
     atender' t p' (clear c2) = (directa' t p', c3, 1%nat)).
Proof.
  intros Hc r1 c2.
  destruct (atender_fallo t1 p c Hc) as (c1 & E1 & Hc1).
  subst c2 r1. rewrite E1. simpl.
  split; [reflexivity|]. split; [reflexivity|]. split; [|split].
  - intros Hps Ht2.
    pose proof (atender_todas_conserva ps t1 p c1
                  {| valor := directa' t1 p; guardada_en := t1 |}
                  eq_refl Hps Hc1) as Hc2.
    rewrite (atender_acierto t2 p _ _ Hc2); [reflexivity|].
    unfold vigente. simpl. apply Z.ltb_lt. lia.
  - intros Hps Ht2.
    pose proof (atender_todas_otras ps p c1 Hps) as Hc2. rewrite Hc1 in Hc2.
    destruct (atender_fallo t2 p (atender_todas aggfunc w ps c1).1)
      as (c3 & E3 & _); [|eauto].
    intros e He. rewrite Hc2 in He. injection He as <-.
    unfold vigente. simpl. apply Z.ltb_ge. lia.
  - intros t p'.
    destruct (atender_fallo t p' (clear (atender_todas aggfunc w ps c1).1))
      as (c3 & E3 & _); [|eauto].
    intros e He. destruct p'; simpl in He; rewrite lookup_empty in He;
      discriminate.
Qed.

End Cache.

(** C9, the run that refutes it as stated: the same station of the REST source is fetched
    twice within a second, once with each key of the pool, as happens when
    the position of the station in the selection changes.  Both fetches run
    the function, and they return different data. *)
Lemma cache_por_estacion_contraejemplo :
  api_key 0 <> api_key 1 /\
  let r1 := atender mean (fun _ => mundo_cuota) 0
                    (POpenaq 10860 (api_key 0)) caches_vacias in
  let r2 := atender mean (fun _ => mundo_cuota) 1
                    (POpenaq 10860 (api_key 1)) r1.1.2 in
  r1.2 = 1%nat /\ r2.2 = 1%nat /\ r1.1.1 <> r2.1.1 /\
  r2.1.1 = Ok (None, [ErrorOpenaq (HTTPError 429)]).
Proof.
  split; [vm_compute; discriminate|].
  vm_compute. repeat split. discriminate.
Qed.

Lemma cache_por_argumentos_testigo :
  let r1 := atender mean (fun _ => mundo_cuota) 0
                    (POpenaq 10860 (api_key 0)) caches_vacias in
  let c2 := (atender_todas mean (fun _ => mundo_cuota)
               [(1, POpenaq 10860 (api_key 1)); (2, PSinaica 300)] r1.1.2).1 in
  r1.2 = 1%nat /\
  r1.1.1 = directa mean (fun _ => mundo_cuota) 0 (POpenaq 10860 (api_key 0)) /\
  (Forall (fun tp : Z * peticion => tp.1 < 0 + 600)
          [(1, POpenaq 10860 (api_key 1)); (2, PSinaica 300)] ->
   599 < 0 + 600 ->
   atender mean (fun _ => mundo_cuota) 599 (POpenaq 10860 (api_key 0)) c2
   = (r1.1.1, c2, 0%nat)) /\
  (Forall (fun tp : Z * peticion => tp.2 <> POpenaq 10860 (api_key 0))
          [(1, POpenaq 10860 (api_key 1)); (2, PSinaica 300)] ->
   0 + 600 <= 599 ->
   exists c3,
     atender mean (fun _ => mundo_cuota) 599 (POpenaq 10860 (api_key 0)) c2
     = (directa mean (fun _ => mundo_cuota) 599 (POpenaq 10860 (api_key 0)),
        c3, 1%nat)) /\
  (forall t p', exists c3,
     atender mean (fun _ => mundo_cuota) t p' (clear c2)
     = (directa mean (fun _ => mundo_cuota) t p', c3, 1%nat)).
Proof.
  apply (cache_por_argumentos mean (fun _ => mundo_cuota)
           (POpenaq 10860 (api_key 0)) caches_vacias 0 599
           [(1, POpenaq 10860 (api_key 1)); (2, PSinaica 300)]).
  intros e He. vm_compute in He. discriminate.
Defined.

(* ===================================================================== *)
(** * Further properties of the classifier *)
(* ===================================================================== *)

Lemma leb_r_not_nan (x y : float) : (x <=. y) = true -> is_nan y = false.
Proof.
  rewrite FloatAxioms.leb_spec. intros Hx. apply is_nan_false.
  unfold SFleb in Hx. intros E. rewrite E in Hx.
  destruct (Prim2SF x); simpl in Hx; discriminate.
Qed.

(** X1. The threshold functions are monotone: of two readings of one
    pollutant, the higher one never gets the better rating. *)
Theorem clasificador_monotono (p : contaminante) (x y : float) :
  (x <=. y) = true ->
  exists cx cy,
    clasificador p (Some x) = Some cx /\
    clasificador p (Some y) = Some cy /\
    orden cx <= orden cy.
Proof.
  intros Hxy. rewrite !clasificador_eq. simpl.
  rewrite (leb_not_nan _ _ Hxy), (leb_r_not_nan _ _ Hxy).
  destruct (y <=. cota_buena p) eqn:Yb.
  - rewrite (leb_trans _ _ _ Hxy Yb). exists Buena, Buena. simpl. auto with zarith.
  - destruct (y <=. cota_regular p) eqn:Yr.
    + rewrite (leb_trans _ _ _ Hxy Yr).
      destruct (x <=. cota_buena p); eexists _, _;
        (split; [reflexivity|]; split; [reflexivity|]); simpl; lia.
    + destruct (x <=. cota_buena p); [|destruct (x <=. cota_regular p)];
        eexists _, _; (split; [reflexivity|]; split; [reflexivity|]);
        simpl; lia.
Qed.

Lemma clasificador_monotono_testigo :
  exists cx cy,
    clasificador CO (Some 4.0%float) = Some cx /\
    clasificador CO (Some 12.0%float) = Some cy /\
    orden cx <= orden cy.
Proof. apply clasificador_monotono. vm_compute. reflexivity. Defined.

(** X2. When [evaluar_calidad_aire] returns a frame, its argument was not
    empty and the frame has the rows of the argument, under the same index
    and in the same order; each row keeps every measurement as it was,
    but for a column named like one of the six that the classification
    writes, and carries an overall rating. *)
Theorem evaluar_calidad_aire_conserva (df : tabla float) (df' : tabla celda) :
  evaluar_calidad_aire (Some df) = Ok (Some df') ->
  empty df = false /\
  length df' = length df /\
  Forall2 (fun r r' =>
             r'.1 = r.1 /\
             (forall k, ~ In k ("calidad_global" :: columnas_calidad) ->
                        r'.2 !! k = Num <$> r.2 !! k) /\
             exists g, r'.2 !! "calidad_global" = Some (Cal g))
          df df'.
Proof.
  intros He. split.
  { unfold evaluar_calidad_aire in He. destruct (empty df); [discriminate|].
    reflexivity. }
  apply evaluar_calidad_aire_filas in He.
  split; [symmetry; eapply Forall2_length; exact He|].
  eapply Forall2_impl; [exact He|]. simpl.
  intros [idx lectura] [idx' fila] [Hi Hf]. simpl in *.
  split; [exact Hi|]. split.
  - intros k Hk. exact (evaluar_fila_conserva _ _ k Hf Hk).
  - rewrite (evaluar_fila_inv _ _ Hf). eauto.
Qed.

Lemma evaluar_calidad_aire_conserva_testigo :
  let df := [((FechaTexto "2024-05-01", 12),
              ({[ "CO" := 4.0%float; "TMP" := 21.5%float ]}
                 : gmap string float))] in
  let df' := [((FechaTexto "2024-05-01", 12),
               ({[ "CO" := Num 4.0; "TMP" := Num 21.5;
                   "calidad_CO" := Cal (Some Buena);
                   "calidad_global" := Cal (Some Buena) ]}
                  : gmap string celda))] in
  empty df = false /\
  length df' = length df /\
  Forall2 (fun r r' =>
             r'.1 = r.1 /\
             (forall k, ~ In k ("calidad_global" :: columnas_calidad) ->
                        r'.2 !! k = Num <$> r.2 !! k) /\
             exists g, r'.2 !! "calidad_global" = Some (Cal g))
          df df'.
Proof.
  apply (evaluar_calidad_aire_conserva
           [((FechaTexto "2024-05-01", 12),
             ({[ "CO" := 4.0%float; "TMP" := 21.5%float ]}
                : gmap string float))]).
  vm_compute. reflexivity.
Defined.

(** On [None] and on an empty frame, and only there, the classification
    returns [None]. *)
Lemma evaluar_calidad_aire_None (df : option (tabla float)) :
  evaluar_calidad_aire df = Ok None <-> sin_datos df = true.
Proof.
  destruct df as [df|]; simpl; [|tauto].
  destruct (empty df); [tauto|]. split; [|discriminate].
  destruct (mapM _ df); discriminate.
Qed.

(* ===================================================================== *)
(** * Colours and alerts *)
(* ===================================================================== *)

(** X3. The marker colour and the alert say the same thing: the colour
    tells the rating apart (two cells get one colour exactly when they are
    the same rating, or both none), gray stands for no rating, and the
    alert of a cell is the success, warning, error or information call
    according as its colour is green, orange, red or gray. *)
Theorem color_y_alerta (c1 c2 : celda) (estacion : string) :
  (get_color_calidad c1 = get_color_calidad c2
   <-> como_calidad c1 = como_calidad c2) /\
  (get_color_calidad c1 = "gray" <-> como_calidad c1 = None) /\
  (mostrar_alerta_calidad c1 estacion = StSuccess estacion
   <-> get_color_calidad c1 = "green") /\
  (mostrar_alerta_calidad c1 estacion = StWarning estacion
   <-> get_color_calidad c1 = "orange") /\
  (mostrar_alerta_calidad c1 estacion = StError estacion
   <-> get_color_calidad c1 = "red") /\
  (mostrar_alerta_calidad c1 estacion = StInfo estacion
   <-> get_color_calidad c1 = "gray").
Proof.
  unfold get_color_calidad, mostrar_alerta_calidad.
  destruct (como_calidad c1) as [[| |]|], (como_calidad c2) as [[| |]|];
    repeat split; intros H; try reflexivity; try discriminate H.
Qed.

(* ===================================================================== *)
(** * The rotation of the API keys *)
(* ===================================================================== *)

(** X5. [API_KEYS[idx % len(API_KEYS)]] is always one of the keys of the
    pool (the index is never out of range); it has period two, and two
    consecutive stations of a selection get different keys. *)
Theorem api_key_rotacion (idx : nat) :
  In (api_key idx) API_KEYS /\
  api_key (idx + 2) = api_key idx /\
  api_key (S idx) <> api_key idx.
Proof.
  unfold api_key. change (length API_KEYS) with 2%nat.
  pose proof (Nat.mod_upper_bound idx 2 ltac:(lia)) as Hr.
  pose proof (Nat.div_mod_eq idx 2) as Hd.
  pose proof (Nat.mod_upper_bound (S idx) 2 ltac:(lia)) as Hr'.
  pose proof (Nat.div_mod_eq (S idx) 2) as Hd'.
  pose proof (Nat.mod_upper_bound (idx + 2) 2 ltac:(lia)) as Hr''.
  pose proof (Nat.div_mod_eq (idx + 2) 2) as Hd''.
  assert ((idx + 2) mod 2 = idx mod 2)%nat as -> by lia.
  destruct (idx mod 2)%nat as [|[|n]] eqn:E; [| |lia].
  - assert ((S idx) mod 2 = 1)%nat as -> by lia.
    split; [now left|]. split; [reflexivity|]. vm_compute. discriminate.
  - assert ((S idx) mod 2 = 0)%nat as -> by lia.
    split; [right; now left|]. split; [reflexivity|]. vm_compute. discriminate.
Qed.

(* ===================================================================== *)
(** * What the scan keeps, and the map drawn from it *)
(* ===================================================================== *)

(** What [preparar] returns: the rows of a classified frame, each tagged
    with the source and the station. *)
Lemma preparar_Ok (fuente estacion : string) (df : option (tabla float))
    (t : tabla celda) :
  preparar fuente estacion df = Ok t ->
  t <> [] /\
  Forall (fun r => r.2 !! "fuente" = Some (Txt fuente) /\
                   r.2 !! "estacion" = Some (Txt estacion) /\
                   exists g, r.2 !! "calidad_global" = Some (Cal g)) t.
Proof.
  unfold preparar.
  destruct (evaluar_calidad_aire df) as [[df'|]|e] eqn:Ee; simpl;
    try discriminate.
  destruct df as [df|]; [|discriminate].
  pose proof (evaluar_calidad_aire_filas _ _ Ee) as Hf.
  assert (empty df = false) as Hne.
  { unfold evaluar_calidad_aire in Ee. destruct (empty df); [discriminate|].
    reflexivity. }
  unfold reset_index.
  destruct (asignar "estacion" estacion (asignar "fuente" fuente df'))
    as [|[idx cols] l] eqn:Ea.
  - destruct df' as [|[? ?] ?]; [|discriminate].
    inversion Hf; subst. discriminate.
  - case_bool_decide; [discriminate|]. intros [= <-].
    split; [discriminate|]. rewrite <- Ea. clear Ea.
    assert (Forall (fun r : indice * gmap string celda =>
                      exists g, r.2 !! "calidad_global" = Some (Cal g)) df')
      as Hg.
    { clear -Hf. induction Hf as [|r r' df df' [_ Hr] _ IH]; constructor; auto.
      rewrite (evaluar_fila_inv _ _ Hr). eauto. }
    clear -Hg. unfold asignar. rewrite map_map.
    induction Hg as [|[idx0 f0] df' [g Hr] _ IH]; constructor; [|exact IH].
    simpl in *. rewrite lookup_insert_ne by discriminate.
    rewrite !lookup_insert_eq. split; [reflexivity|]. split; [reflexivity|].
    rewrite !lookup_insert_ne by discriminate. eauto.
Qed.

Lemma aporte_Some (fuente estacion : string) (r : respuesta_t) (t : tabla celda) :
  aporte fuente estacion r = Some t ->
  t <> [] /\
  Forall (fun r => r.2 !! "fuente" = Some (Txt fuente) /\
                   r.2 !! "estacion" = Some (Txt estacion) /\
                   exists g, r.2 !! "calidad_global" = Some (Cal g)) t.
Proof.
  unfold aporte. destruct r as [[df ds]|e]; [|discriminate].
  destruct (sin_datos df); [discriminate|].
  destruct (preparar fuente estacion df) as [t'|e] eqn:Ep; [|discriminate].
  intros [= <-]. exact (preparar_Ok _ _ _ _ Ep).
Qed.

Lemma concat_imap_length {A B} (f : nat -> A -> list B) (l : list A) (n : nat) :
  (forall i x, length (f i x) <= n)%nat ->
  (length (concat (imap f l)) <= n * length l)%nat.
Proof.
  revert f. induction l as [|x l IH]; intros f Hf; simpl; [lia|].
  rewrite length_app. specialize (IH (f ∘ S) (fun i y => Hf (S i) y)).
  specialize (Hf 0%nat x). lia.
Qed.

(** The values kept in an entry are all present ones. *)
Lemma entrada_de_presentes (fuente : string) (t : tabla celda) :
  filter (fun cv : string * celda => presente cv.2 = true)
         (m_valores (entrada_de fuente t))
  = m_valores (entrada_de fuente t).
Proof.
  apply map_filter_id. intros k v Hk. unfold entrada_de in Hk. simpl in Hk.
  apply map_lookup_filter_Some in Hk as [_ [_ Hp]]. exact Hp.
Qed.

Lemma crear_mapa_lookup (datos_estaciones : gmap string entrada_mapa)
    (estacion : string) :
  crear_mapa datos_estaciones !! estacion
  = i ← ESTACIONES !! estacion;
    let datos := datos_estaciones !! estacion in
    let calidad := from_option m_calidad_global (Cal None) datos in
    Some {| mk_location := (lat i, lng i);
            mk_color := get_color_calidad calidad;
            mk_calidad := if truthy calidad then Some calidad else None;
            mk_fuente := from_option m_fuente "Sin datos" datos;
            mk_valores :=
              filter (fun cv : string * celda => presente cv.2 = true)
                     (from_option m_valores ∅ datos) |}.
Proof.
  unfold crear_mapa. generalize ESTACIONES. intros catalogo.
  rewrite map_lookup_imap. reflexivity.
Qed.

Lemma dom_crear_mapa (datos_estaciones : gmap string entrada_mapa) :
  dom (crear_mapa datos_estaciones) = dom ESTACIONES.
Proof.
  unfold crear_mapa. generalize ESTACIONES. intros catalogo.
  apply dom_imap_L. intros e. rewrite elem_of_dom. split.
  - intros [i Hi]. exists i. split; [exact Hi|]. eauto.
  - intros (i & Hi & _). eauto.
Qed.

Section Mapa.

Variable get_sinaica : Z -> respuesta_t.
Variable get_openaq : Z -> string -> respuesta_t.
Variable fuente_seleccionada : seleccion.

Local Abbreviation escanear' :=
  (escanear get_sinaica get_openaq fuente_seleccionada).
Local Abbreviation primaria'' :=
  (primaria get_sinaica get_openaq fuente_seleccionada).

Lemma primaria_fuente idx estacion i en :
  primaria'' idx estacion i = Some en ->
  (m_fuente en = "SINAICA" \/ m_fuente en = "OPENAQ") /\
  filter (fun cv : string * celda => presente cv.2 = true) (m_valores en)
  = m_valores en.
Proof.
  unfold primaria.
  destruct (aporte_sinaica _ _ _ _) as [t|].
  - intros [= <-]. split; [now left|]. apply entrada_de_presentes.
  - destruct (aporte_openaq _ _ _ _ _) as [t|]; simpl; [|discriminate].
    intros [= <-]. split; [now right|]. apply entrada_de_presentes.
Qed.

(** X4. The map drawn after a scan has one marker for every station of the
    catalogue, at the station's coordinates.  The marker of a selected
    station shows the station's primary result: its colour is the colour of
    that result's overall rating, its popup shows that rating, or 'Sin
    datos' when the result has none, names that result's source and lists
    every value kept for it; when no source contributed, and for every
    station that was not selected, the marker is gray and its popup says
    'Sin datos' for the quality and for the source, without any value. *)
Theorem mapa_tras_escanear (estaciones_seleccionadas : list string) :
  NoDup estaciones_seleccionadas ->
  Forall (fun e => is_Some (ESTACIONES !! e)) estaciones_seleccionadas ->
  (forall estId, no_interrumpe (get_sinaica estId)) ->
  (forall estId API_KEY, no_interrumpe (get_openaq estId API_KEY)) ->
  exists st,
    escanear' estaciones_seleccionadas = (st, Ok tt) /\
    dom (crear_mapa (datos_para_mapa st)) = dom ESTACIONES /\
    (forall idx e i,
       estaciones_seleccionadas !! idx = Some e ->
       ESTACIONES !! e = Some i ->
       exists mk,
         crear_mapa (datos_para_mapa st) !! e = Some mk /\
         mk_location mk = (lat i, lng i) /\
         mk_color mk
         = get_color_calidad
             (from_option m_calidad_global (Cal None) (primaria'' idx e i)) /\
         mk_calidad mk
         = (let calidad := from_option m_calidad_global (Cal None)
                             (primaria'' idx e i) in
            if truthy calidad then Some calidad else None) /\
         mk_fuente mk = from_option m_fuente "Sin datos" (primaria'' idx e i) /\
         mk_valores mk = from_option m_valores ∅ (primaria'' idx e i) /\
         (primaria'' idx e i = None ->
          mk_color mk = "gray" /\ mk_calidad mk = None /\
          mk_fuente mk = "Sin datos" /\ mk_valores mk = ∅)) /\
    (forall e i,
       ~ In e estaciones_seleccionadas ->
       ESTACIONES !! e = Some i ->
       exists mk,
         crear_mapa (datos_para_mapa st) !! e = Some mk /\
         mk_location mk = (lat i, lng i) /\
         mk_color mk = "gray" /\ mk_calidad mk = None /\
         mk_fuente mk = "Sin datos" /\ mk_valores mk = ∅).
Proof.
  intros Hnd Hin Hs Ho.
  destruct (recorrer_efecto get_sinaica get_openaq fuente_seleccionada Hs Ho
              estaciones_seleccionadas 0 estado_inicial Hnd Hin)
    as (st & E & _ & _ & F & P).
  { apply List.Forall_forall. intros e _. apply lookup_empty. }
  exists st. split; [exact E|]. split; [|split].
  - apply dom_crear_mapa.
  - intros idx e i Hidx Hi. specialize (P idx e i Hidx Hi). simpl in P.
    rewrite crear_mapa_lookup, Hi. simpl. rewrite P.
    eexists. split; [reflexivity|]. simpl.
    split; [reflexivity|]. split; [reflexivity|]. split; [reflexivity|].
    split; [reflexivity|].
    destruct (primaria'' idx e i) as [en|] eqn:Ep; simpl.
    + split; [exact (proj2 (primaria_fuente _ _ _ _ Ep))|discriminate].
    + split; [apply map_filter_empty|]. intros _.
      repeat split; apply map_filter_empty.
  - intros e i Hne Hi. specialize (F e Hne). simpl in F.
    rewrite lookup_empty in F.
    rewrite crear_mapa_lookup, Hi. simpl. rewrite F.
    eexists. split; [reflexivity|]. simpl.
    repeat split; apply map_filter_empty.
Qed.

(** X7. Every frame that a scan keeps is a non-empty classified frame whose
    rows are tagged with one of the two sources and with a selected
    station, and carry an overall rating; there are at most two frames per
    selected station; and [datos_para_mapa] has entries for selected
    stations only, each made from one of the two sources. *)
Theorem resultados_etiquetados (estaciones_seleccionadas : list string) :
  NoDup estaciones_seleccionadas ->
  Forall (fun e => is_Some (ESTACIONES !! e)) estaciones_seleccionadas ->
  (forall estId, no_interrumpe (get_sinaica estId)) ->
  (forall estId API_KEY, no_interrumpe (get_openaq estId API_KEY)) ->
  exists st,
    escanear' estaciones_seleccionadas = (st, Ok tt) /\
    Forall (fun t =>
              t <> [] /\
              exists fuente estacion,
                (fuente = "SINAICA" \/ fuente = "OPENAQ") /\
                In estacion estaciones_seleccionadas /\
                Forall (fun r => r.2 !! "fuente" = Some (Txt fuente) /\
                                 r.2 !! "estacion" = Some (Txt estacion) /\
                                 exists g, r.2 !! "calidad_global" = Some (Cal g))
                       t)
           (resultados st) /\
    (length (resultados st) <= 2 * length estaciones_seleccionadas)%nat /\
    (forall e en,
       datos_para_mapa st !! e = Some en ->
       In e estaciones_seleccionadas /\
       (m_fuente en = "SINAICA" \/ m_fuente en = "OPENAQ")).
Proof.
  intros Hnd Hin Hs Ho.
  destruct (recorrer_efecto get_sinaica get_openaq fuente_seleccionada Hs Ho
              estaciones_seleccionadas 0 estado_inicial Hnd Hin)
    as (st & E & _ & R & F & P).
  { apply List.Forall_forall. intros e _. apply lookup_empty. }
  simpl in R. exists st. split; [exact E|]. split; [|split].
  - rewrite R. apply List.Forall_forall. intros t Ht.
    apply in_concat in Ht as (ts & Hts & Ht).
    apply list_elem_of_In, elem_of_lookup_imap in Hts as (idx & e & -> & Hidx).
    assert (In e estaciones_seleccionadas) as He
      by (apply list_elem_of_In, list_elem_of_lookup; eauto).
    destruct (ESTACIONES !! e) as [i|]; [|destruct Ht].
    unfold aportes_de, aporte_sinaica, aporte_openaq in Ht.
    apply in_app_or in Ht as [Ht|Ht].
    + destruct (pide_sinaica fuente_seleccionada); [|destruct Ht].
      destruct (aporte "SINAICA" e _) as [t'|] eqn:Ea; [|destruct Ht].
      destruct Ht as [<-|[]]. destruct (aporte_Some _ _ _ _ Ea) as [Hne Hall].
      split; [exact Hne|]. exists "SINAICA", e. auto.
    + destruct (pide_openaq fuente_seleccionada); [|destruct Ht].
      destruct (aporte "OPENAQ" e _) as [t'|] eqn:Ea; [|destruct Ht].
      destruct Ht as [<-|[]]. destruct (aporte_Some _ _ _ _ Ea) as [Hne Hall].
      split; [exact Hne|]. exists "OPENAQ", e. auto.
  - rewrite R. apply concat_imap_length. intros idx e.
    destruct (ESTACIONES !! e) as [i|]; simpl; [|lia].
    unfold aportes_de. rewrite length_app.
    destruct (aporte_sinaica _ _ _ _), (aporte_openaq _ _ _ _ _); simpl; lia.
  - intros e en Hen.
    destruct (decide (e ∈ estaciones_seleccionadas)) as [He|He].
    + split; [now apply list_elem_of_In|].
      apply list_elem_of_lookup in He as [idx Hidx].
      rewrite List.Forall_forall in Hin.
      destruct (Hin e) as [i Hi];
        [apply list_elem_of_In, list_elem_of_lookup; eauto|].
      rewrite (P idx e i Hidx Hi) in Hen. simpl in Hen.
      exact (proj1 (primaria_fuente _ _ _ _ Hen)).
    + rewrite F in Hen by (now rewrite <- list_elem_of_In).
      simpl in Hen. rewrite lookup_empty in Hen. discriminate.
Qed.

End Mapa.

Lemma mapa_tras_escanear_testigo :
  exists st,
    escanear (get_sinaica_data mean (mundo_de pagina_ejemplo))
             (get_openaq_data mean (mundo_de pagina_ejemplo))
             Ambas ["Merced"] = (st, Ok tt) /\
    dom (crear_mapa (datos_para_mapa st)) = dom ESTACIONES /\
    (forall idx e i,
       ["Merced"] !! idx = Some e ->
       ESTACIONES !! e = Some i ->
       exists mk,
         crear_mapa (datos_para_mapa st) !! e = Some mk /\
         mk_location mk = (lat i, lng i) /\
         mk_color mk
         = get_color_calidad
             (from_option m_calidad_global (Cal None)
                (primaria (get_sinaica_data mean (mundo_de pagina_ejemplo))
                          (get_openaq_data mean (mundo_de pagina_ejemplo))
                          Ambas idx e i)) /\
         mk_calidad mk
         = (let calidad :=
              from_option m_calidad_global (Cal None)
                (primaria (get_sinaica_data mean (mundo_de pagina_ejemplo))
                          (get_openaq_data mean (mundo_de pagina_ejemplo))
                          Ambas idx e i) in
            if truthy calidad then Some calidad else None) /\
         mk_fuente mk
         = from_option m_fuente "Sin datos"
             (primaria (get_sinaica_data mean (mundo_de pagina_ejemplo))
                       (get_openaq_data mean (mundo_de pagina_ejemplo))
                       Ambas idx e i) /\
         mk_valores mk
         = from_option m_valores ∅
             (primaria (get_sinaica_data mean (mundo_de pagina_ejemplo))
                       (get_openaq_data mean (mundo_de pagina_ejemplo))
                       Ambas idx e i) /\
         (primaria (get_sinaica_data mean (mundo_de pagina_ejemplo))
                   (get_openaq_data mean (mundo_de pagina_ejemplo))
                   Ambas idx e i = None ->
          mk_color mk = "gray" /\ mk_calidad mk = None /\
          mk_fuente mk = "Sin datos" /\ mk_valores mk = ∅)) /\
    (forall e i,
       ~ In e ["Merced"] ->
       ESTACIONES !! e = Some i ->
       exists mk,
         crear_mapa (datos_para_mapa st) !! e = Some mk /\
         mk_location mk = (lat i, lng i) /\
         mk_color mk = "gray" /\ mk_calidad mk = None /\
         mk_fuente mk = "Sin datos" /\ mk_valores mk = ∅).
Proof.
  apply mapa_tras_escanear.
  - apply NoDup_singleton.
  - repeat constructor. vm_compute. eauto.
  - intros estId. apply get_sinaica_data_no_interrumpe.
  - intros estId API_KEY. apply get_openaq_data_no_interrumpe.
Defined.

Lemma resultados_etiquetados_testigo :
  exists st,
    escanear (get_sinaica_data mean mundo_sensores)
             (get_openaq_data mean mundo_sensores)
             Ambas ["Merced"] = (st, Ok tt) /\
    Forall (fun t =>
              t <> [] /\
              exists fuente estacion,
                (fuente = "SINAICA" \/ fuente = "OPENAQ") /\
                In estacion ["Merced"] /\
                Forall (fun r => r.2 !! "fuente" = Some (Txt fuente) /\
                                 r.2 !! "estacion" = Some (Txt estacion) /\
                                 exists g, r.2 !! "calidad_global" = Some (Cal g))
                       t)
           (resultados st) /\
    (length (resultados st) <= 2 * length ["Merced"])%nat /\
    (forall e en,
       datos_para_mapa st !! e = Some en ->
       In e ["Merced"] /\
       (m_fuente en = "SINAICA" \/ m_fuente en = "OPENAQ")).
Proof.
  apply resultados_etiquetados.
  - apply NoDup_singleton.
  - repeat constructor. vm_compute. eauto.
  - intros estId. apply get_sinaica_data_no_interrumpe.
  - intros estId API_KEY. apply get_openaq_data_no_interrumpe.
Defined.

(* ===================================================================== *)
(** * The quality filter and the summary counts *)
(* ===================================================================== *)

Lemma cuentas_suman (df : tabla celda) :
  (cuenta Buena df + cuenta Regular df + cuenta Mala df + sin_calificar df
   = length df)%nat.
Proof.
  unfold cuenta, sin_calificar. induction df as [|r df IH]; [reflexivity|].
  cbn [List.filter].
  destruct (como_calidad (row_get r.2 "calidad_global")) as [[]|];
    repeat (case_bool_decide; try congruence); cbn [length]; lia.
Qed.

Lemma cuenta_cero (c : calidad) (df : tabla celda) :
  Forall (fun r => como_calidad (row_get r.2 "calidad_global") <> Some c) df ->
  cuenta c df = 0%nat.
Proof.
  unfold cuenta. induction 1 as [|r df Hr _ IH]; [reflexivity|].
  cbn [List.filter]. case_bool_decide; [contradiction|]. exact IH.
Qed.

Lemma sin_calificar_cero (df : tabla celda) :
  Forall (fun r => como_calidad (row_get r.2 "calidad_global") <> None) df ->
  sin_calificar df = 0%nat.
Proof.
  unfold sin_calificar. induction 1 as [|r df Hr _ IH]; [reflexivity|].
  cbn [List.filter]. case_bool_decide; [contradiction|]. exact IH.
Qed.

(** X6. The summary counts after the quality filter.  The three counts and
    the rows without a rating always add up to the total.  With an empty
    filter every row of every frame is kept, the unrated ones included, so
    the three counts may fall short of the total.  With a non-empty filter
    exactly the rows whose overall rating is one of the chosen ones remain,
    in their order: no unrated row survives, the three counts add up to the
    total, and the count of a rating that was not chosen is zero. *)
Theorem filtro_y_resumen (resultados : list (tabla celda))
    (filtro_calidad : list calidad) :
  let df := df_resultados resultados filtro_calidad in
  let m := metricas df in
  (buenas m + regulares m + malas m + sin_calificar df = total m)%nat /\
  (filtro_calidad = [] -> df = concat resultados) /\
  (filtro_calidad <> [] ->
   (forall r, In r df <->
              In r (concat resultados) /\
              exists q, como_calidad (row_get r.2 "calidad_global") = Some q /\
                        In q filtro_calidad) /\
   sin_calificar df = 0%nat /\
   (buenas m + regulares m + malas m = total m)%nat /\
   (forall c, ~ In c filtro_calidad -> cuenta c df = 0%nat)).
Proof.
  intros df m. split; [exact (cuentas_suman df)|]. split.
  { intros ->. reflexivity. }
  intros Hne.
  assert (df = List.filter (fun r => en_filtro filtro_calidad r.2)
                           (concat resultados)) as Hdf.
  { unfold df, df_resultados. destruct filtro_calidad; [contradiction|].
    reflexivity. }
  assert (forall r, In r df <->
            In r (concat resultados) /\
            exists q, como_calidad (row_get r.2 "calidad_global") = Some q /\
                      In q filtro_calidad) as Hin.
  { intros r. rewrite Hdf, filter_In. unfold en_filtro.
    destruct (como_calidad (row_get r.2 "calidad_global")) as [q|].
    - rewrite bool_decide_eq_true, list_elem_of_In. split.
      + intros [? ?]. eauto.
      + intros [? (q' & [= <-] & ?)]. auto.
    - split; [intros [_ [=]]|intros [_ (q & [=] & _)]]. }
  assert (sin_calificar df = 0%nat) as Hsin.
  { apply sin_calificar_cero, List.Forall_forall. intros r Hr.
    apply Hin in Hr as [_ (q & -> & _)]. discriminate. }
  split; [exact Hin|]. split; [exact Hsin|]. split.
  - pose proof (cuentas_suman df) as Hs. rewrite Hsin in Hs.
    unfold m, metricas. simpl. lia.
  - intros c Hc. apply cuenta_cero, List.Forall_forall. intros r Hr.
    apply Hin in Hr as [_ (q & -> & Hq)]. intros [= ->]. contradiction.
Qed.

(* ===================================================================== *)
(** * How old a cached answer can be *)
(* ===================================================================== *)

Section Frescura.

Variable aggfunc : list float -> float.
Variable w : Z -> mundo.

Local Abbreviation atender'' := (atender aggfunc w).
Local Abbreviation directa'' := (directa aggfunc w).
Local Abbreviation coherente' := (coherente aggfunc w).

Lemma coherente_clear h c : coherente' h (clear c).
Proof. intros [estId|estId API_KEY] e; simpl; now rewrite lookup_empty. Qed.

Lemma coherente_mas h tp c : coherente' h c -> coherente' (tp :: h) c.
Proof. intros Hc p e He. destruct (Hc p e He). split; [|right]; assumption. Qed.

Lemma atender_coherente h ahora p c :
  coherente' h c ->
  exists t',
    (atender'' ahora p c).1.1 = directa'' t' p /\
    ahora < t' + 600 /\
    (t' = ahora /\ (atender'' ahora p c).2 = 1%nat \/
     In (t', p) h /\ (atender'' ahora p c).2 = 0%nat) /\
    ((atender'' ahora p c).2 <= 1)%nat /\
    coherente' ((ahora, p) :: h) (atender'' ahora p c).1.2.
Proof.
  intros Hc.
  destruct (entrada_cache p c) as [e|] eqn:He;
    [destruct (vigente 600 ahora e) eqn:Hv|].
  - rewrite (atender_acierto aggfunc w _ _ _ _ He Hv). simpl.
    destruct (Hc p e He) as [Hval Hin]. exists (guardada_en e).
    split; [exact Hval|]. split; [now apply Z.ltb_lt in Hv|].
    split; [right; auto|]. split; [lia|]. now apply coherente_mas.
  - destruct (atender_fallo aggfunc w ahora p c) as (c' & E & Hc').
    { intros e' He'. congruence. }
    pose proof (fun p0 Hp => atender_otra aggfunc w ahora p0 p c Hp) as Ho.
    rewrite E in *. simpl in *. exists ahora.
    split; [reflexivity|]. split; [lia|]. split; [left; auto|].
    split; [lia|]. intros p0 e0 He0.
    destruct (decide (p = p0)) as [<-|Hp].
    + rewrite Hc' in He0. injection He0 as <-. simpl. split; [reflexivity|].
      now left.
    + rewrite (Ho p0 Hp) in He0. destruct (Hc p0 e0 He0).
      split; [|right]; assumption.
  - destruct (atender_fallo aggfunc w ahora p c) as (c' & E & Hc').
    { intros e' He'. congruence. }
    pose proof (fun p0 Hp => atender_otra aggfunc w ahora p0 p c Hp) as Ho.
    rewrite E in *. simpl in *. exists ahora.
    split; [reflexivity|]. split; [lia|]. split; [left; auto|].
    split; [lia|]. intros p0 e0 He0.
    destruct (decide (p = p0)) as [<-|Hp].
    + rewrite Hc' in He0. injection He0 as <-. simpl. split; [reflexivity|].
      now left.
    + rewrite (Ho p0 Hp) in He0. destruct (Hc p0 e0 He0).
      split; [|right]; assumption.
Qed.

Lemma atender_todas_coherente ps h c :
  coherente' h c ->
  coherente' (rev ps ++ h) (atender_todas aggfunc w ps c).1 /\
  ((atender_todas aggfunc w ps c).2 <= length ps)%nat.
Proof.
  revert h c. induction ps as [|[t p] ps IH]; intros h c Hc;
    [split; [exact Hc|reflexivity]|].
  destruct (atender_coherente h t p c Hc) as (_ & _ & _ & _ & Hn & Hc').
  simpl. destruct (atender'' t p c) as [[v c'] n]. simpl in Hn, Hc'.
  destruct (IH _ _ Hc') as [IH1 IH2].
  destruct (atender_todas aggfunc w ps c') as [c'' m]. simpl in *.
  rewrite <- app_assoc. split; [exact IH1|lia].
Qed.

(** X8. No cached answer is older than the time to live.  Start from a
    cleared cache and make any fetches, at any times.  A fetch made
    afterwards returns what its undecorated function returned when it was
    run with the same arguments either now, and then the function is run
    once, or at the time of one of the earlier fetches of the same
    arguments, less than 600 s before now, and then the function is not
    run.  The fetches never run the functions more often than once per
    fetch. *)
Theorem cache_frescura (ps : list (Z * peticion)) (c0 : caches)
    (ahora : Z) (p : peticion) :
  let c := (atender_todas aggfunc w ps (clear c0)).1 in
  let r := atender'' ahora p c in
  (exists t',
     r.1.1 = directa'' t' p /\
     ahora < t' + 600 /\
     (t' = ahora /\ r.2 = 1%nat \/ In (t', p) ps /\ r.2 = 0%nat)) /\
  ((atender_todas aggfunc w ps (clear c0)).2 <= length ps)%nat.
Proof.
  intros c r.
  destruct (atender_todas_coherente ps [] (clear c0) (coherente_clear [] c0))
    as [Hc Hn].
  split; [|exact Hn].
  destruct (atender_coherente _ ahora p _ Hc) as (t' & Hv & Ht & Hd & _).
  exists t'. split; [exact Hv|]. split; [exact Ht|].
  destruct Hd as [Hd|[Hin Hd]]; [left; exact Hd|right].
  split; [|exact Hd]. rewrite app_nil_r in Hin. now apply in_rev.
Qed.

End Frescura.

(* ===================================================================== *)
(** * The most recent reading of each source *)
(* ===================================================================== *)

Section MasReciente.

Variable aggfunc : list float -> float.

Lemma get_sinaica_data_Some w estId df ds :
  get_sinaica_data aggfunc w estId = Ok (Some df, ds) ->
  sinaica_cuerpo aggfunc w estId = Ok (Some df) /\ ds = [].
Proof.
  unfold get_sinaica_data.
  destruct (sinaica_cuerpo aggfunc w estId) as [df0|e]; simpl.
  - intros [= -> <-]. auto.
  - destruct (es_Exception e); discriminate.
Qed.

(** X9. What the scraped source returns is the most recent reading.  A
    frame returned by [get_sinaica_data] comes without a diagnostic and
    has at most one row; the date and hour of that row are those of a
    usable row of the page, and no usable row of the page, under any of
    the keys read from either blob, has a later date, or the same date and
    a later hour, dates being compared as the texts they are. *)
Theorem sinaica_fila_mas_reciente (w : mundo) (estId : Z)
    (df : tabla float) (ds : list diagnostico) :
  get_sinaica_data aggfunc w estId = Ok (Some df, ds) ->
  ds = [] /\
  exists html,
    estacion_php w estId = Html html /\
    let U := filas_utiles claves_conts (conts html)
             ++ filas_utiles claves_meteo (meteo html) in
    (length df <= 1)%nat /\
    (df = [] <-> U = []) /\
    forall k fila,
      In (k, fila) df ->
      (exists o, In o U /\ o_indice o = k) /\
      (forall o, In o U -> indice_cmp (o_indice o) k <> Gt).
Proof.
  intros [Hc ->]%get_sinaica_data_Some. split; [reflexivity|].
  assert (exists html, estacion_php w estId = Html html /\
                       valido (conts html) = true /\
                       valido (meteo html) = true)
    as (html & Hw & Hvc & Hvm).
  { unfold sinaica_cuerpo in Hc.
    destruct (estacion_php w estId) as [html|]; simpl in Hc; [|discriminate].
    exists html. split; [reflexivity|].
    destruct (conts html); simpl in Hc; try discriminate;
      destruct (meteo html); simpl in Hc; try discriminate; auto. }
  exists html. split; [exact Hw|]. intros U.
  destruct (sinaica_cuerpo_valida aggfunc _ _ _ Hw Hvc Hvm)
    as (dfs1 & dfs2 & _ & _ & Hb).
  fold U in Hb. rewrite Hb in Hc.
  assert (df = tail1 (pivot_table aggfunc U)) as ->
    by (destruct (dfs1 ++ dfs2); [discriminate|now injection Hc]).
  assert (forall o, In o U -> con_valor o = true) as Hval.
  { intros o [Ho|Ho]%in_app_or; eapply filas_utiles_con_valor; exact Ho. }
  destruct (tail1_pivot_table aggfunc U) as [Hlen Hrow].
  split; [exact Hlen|]. split.
  - rewrite tail1_vacia, pivot_table_vacia, (filter_todos _ _ Hval). tauto.
  - intros k fila Hin. destruct (Hrow k fila Hin) as (_ & (o & Ho & _ & Hk) & Hmax).
    split; [eauto|]. intros o' Ho'. apply Hmax; auto.
Qed.

End MasReciente.

Lemma sinaica_fila_mas_reciente_testigo :
  let df := default [] (tabla_de (get_sinaica_data mean (mundo_de pagina_ejemplo) 256)) in
  ([] : list diagnostico) = [] /\
  exists html,
    estacion_php (mundo_de pagina_ejemplo) 256 = Html html /\
    let U := filas_utiles claves_conts (conts html)
             ++ filas_utiles claves_meteo (meteo html) in
    (length df <= 1)%nat /\
    (df = [] <-> U = []) /\
    forall k fila,
      In (k, fila) df ->
      (exists o, In o U /\ o_indice o = k) /\
      (forall o, In o U -> indice_cmp (o_indice o) k <> Gt).
Proof.
  exact (sinaica_fila_mas_reciente mean (mundo_de pagina_ejemplo) 256 _ []
           eq_refl).
Defined.

Lemma upper_ascii_idem (c : Ascii.ascii) :
  upper_ascii (upper_ascii c) = upper_ascii c.
Proof. destruct c as [[] [] [] [] [] [] [] []]; reflexivity. Qed.

Lemma str_upper_idem (s : string) : str_upper (str_upper s) = str_upper s.
Proof.
  induction s as [|c s IH]; [reflexivity|]. simpl.
  now rewrite upper_ascii_idem, IH.
Qed.

Lemma df_ult_contiene (df_total : list observacion) (o : observacion) :
  In o df_total ->
  Forall (fun o' => dia o' < dia o \/
                    (dia o' = dia o /\ (o_indice o').2 <= (o_indice o).2))
         df_total ->
  In o (df_ult df_total).
Proof.
  intros Ho Hb. rewrite List.Forall_forall in Hb. unfold df_ult.
  destruct (max_Z (map dia df_total)) as [fecha_max|] eqn:E1;
    [|destruct df_total; [destruct Ho|discriminate]].
  apply max_Z_cota in E1 as [(o1 & Hd1 & Ho1)%in_map_iff Hle1].
  rewrite List.Forall_forall in Hle1.
  assert (fecha_max = dia o) as ->.
  { pose proof (Hle1 (dia o) (in_map dia _ _ Ho)).
    specialize (Hb o1 Ho1). lia. }
  set (del_dia := List.filter (fun o0 => dia o0 =? dia o) df_total).
  assert (In o del_dia) as Hod
    by (apply filter_In; split; [exact Ho|apply Z.eqb_refl]).
  destruct (max_Z (map (fun o0 => (o_indice o0).2) del_dia)) as [hora_max|] eqn:E2;
    [|destruct del_dia; [destruct Hod|discriminate]].
  apply max_Z_cota in E2 as [(o2 & Hh2 & Ho2)%in_map_iff Hle2].
  rewrite List.Forall_forall in Hle2.
  apply filter_In in Ho2 as [Ho2 Hd2%Z.eqb_eq].
  assert (hora_max = (o_indice o).2) as ->.
  { pose proof (Hle2 _ (in_map (fun o0 => (o_indice o0).2) _ _ Hod)) as H1.
    simpl in H1. specialize (Hb o2 Ho2). lia. }
  apply filter_In. split; [exact Ho|]. now rewrite !Z.eqb_refl.
Qed.

Lemma indice_cmp_dia (d' h' d h : Z) :
  indice_cmp (FechaDia d', h') (FechaDia d, h) <> Gt <->
  d' < d \/ (d' = d /\ h' <= h).
Proof.
  unfold indice_cmp. simpl.
  destruct (Z.compare_spec d' d) as [->| |]; simpl.
  - destruct (Z.compare_spec h' h); split; try congruence; try lia.
  - split; [lia|discriminate].
  - split; [congruence|lia].
Qed.

Lemma upper_ascii_ascii (c : Ascii.ascii) :
  (Ascii.nat_of_ascii c <? 128)%nat = true ->
  (Ascii.nat_of_ascii (upper_ascii c) <? 128)%nat = true.
Proof.
  destruct c as [[] [] [] [] [] [] [] []]; vm_compute; intros H;
    first [reflexivity|discriminate H].
Qed.

Lemma str_upper_ascii (s : string) :
  es_ascii s = true -> es_ascii (str_upper s) = true.
Proof.
  unfold es_ascii. induction s as [|c s IH]; [reflexivity|]. simpl.
  intros [Hc Hs]%andb_true_iff. apply andb_true_iff.
  split; [now apply upper_ascii_ascii|now apply IH].
Qed.

Lemma Forall2_In_r {A B} (P : A -> B -> Prop) (l : list A) (k : list B)
    (y : B) :
  Forall2 P l k -> In y k -> exists x, In x l /\ P x y.
Proof.
  induction 1 as [|x y' l k Hxy _ IH]; simpl; [tauto|].
  intros [<-|Hy].
  - exists x. auto.
  - destruct (IH Hy) as (x' & Hx' & HP). exists x'. auto.
Qed.

Section UltimaHora.

Variable aggfunc : list float -> float.

(** X10. What the REST source returns is made of the latest hour only,
    for sensors whose parameter names are ASCII text.  A frame returned by
    [get_openaq_data] has at most one row.  The day and hour of the row
    are the latest among all the readings of all the sensors of the
    station; its columns are the upper-cased names of the parameters read
    at that very day and hour with a value, so that a sensor whose reading
    is older gives no column, however many sensors there are; every column
    name is ASCII text in upper case; and the frame has no row at all
    exactly when none of the latest readings has a value, whatever the
    older ones have. *)
Theorem openaq_ultima_hora (w : mundo) (estId : Z) (API_KEY : string)
    (df : tabla float) (ds : list diagnostico) :
  get_openaq_data aggfunc w estId API_KEY = Ok (Some df, ds) ->
  (forall s filas r,
     v3_sensors w s API_KEY = Json filas -> In r filas ->
     es_ascii (parameter_name r) = true) ->
  exists sensors resto dfs,
    v3_locations w estId API_KEY = Json (sensors :: resto) /\
    Forall2 (fun s filas => v3_sensors w s API_KEY = Json filas) sensors dfs /\
    let lecturas := concat dfs in
    let momento r := o_indice (fila_openaq r) in
    (length df <= 1)%nat /\
    (df = [] <->
     forall r, In r lecturas ->
               (forall r', In r' lecturas ->
                           indice_cmp (momento r') (momento r) <> Gt) ->
               is_nan (latest_value r) = true) /\
    forall k fila,
      In (k, fila) df ->
      (forall r, In r lecturas -> indice_cmp (momento r) k <> Gt) /\
      (forall p, is_Some (fila !! p) <->
                 exists r, In r lecturas /\ momento r = k /\
                           is_nan (latest_value r) = false /\
                           str_upper (parameter_name r) = p) /\
      (forall p, is_Some (fila !! p) ->
                 es_ascii p = true /\ str_upper p = p).
Proof.
  intros [Hc _]%get_openaq_data_Some Hascii. unfold openaq_cuerpo in Hc.
  destruct (v3_locations w estId API_KEY) as [[|sensors resto]| | | |] eqn:Hloc;
    simpl in Hc; try discriminate.
  destruct (mapM (sensor w API_KEY) sensors) as [dfs|e] eqn:Em;
    simpl in Hc; [|discriminate].
  exists sensors, resto, dfs. split; [reflexivity|]. split.
  { apply mapM_Ok_inv in Em. eapply Forall2_impl; [exact Em|].
    intros s filas Hs. exact (proj1 (sensor_Ok _ _ _ _ Hs)). }
  intros lecturas momento.
  set (T := fila_openaq <$> lecturas).
  assert (df = pivot_table aggfunc (df_ult T)) as ->
    by (destruct dfs; [discriminate|now injection Hc]).
  assert (forall r, In r lecturas -> es_ascii (parameter_name r) = true)
    as Hasc.
  { intros r (filas & Hfilas & Hr)%in_concat. apply mapM_Ok_inv in Em.
    destruct (Forall2_In_r _ _ _ _ Em Hfilas) as (s & _ & Hs).
    exact (Hascii s filas r (proj1 (sensor_Ok _ _ _ _ Hs)) Hr). }
  clear Hc Em Hloc.
  (* the readings that are the latest are the rows of [df_ult] *)
  assert (forall r, In r lecturas ->
            (In (fila_openaq r) (df_ult T) <->
             forall r', In r' lecturas ->
                        indice_cmp (momento r') (momento r) <> Gt)) as Hult.
  { intros r Hr. split.
    - intros [_ Hb]%df_ult_In r' Hr'. rewrite List.Forall_forall in Hb.
      specialize (Hb (fila_openaq r') (in_map _ _ _ Hr')).
      unfold momento. simpl. apply indice_cmp_dia. exact Hb.
    - intros Hb. apply df_ult_contiene; [exact (in_map _ _ _ Hr)|].
      apply List.Forall_forall. intros o' (r' & <- & Hr')%in_map_iff.
      specialize (Hb r' Hr'). unfold momento in Hb. simpl in Hb.
      apply indice_cmp_dia in Hb. exact Hb. }
  destruct (df_ult_indice T) as [k0 Hk0].
  { apply List.Forall_forall. intros o' (r & <- & _)%in_map_iff.
    simpl. eauto. }
  rewrite List.Forall_forall in Hk0.
  split; [|split].
  - unfold pivot_table.
    destruct (List.filter con_valor (df_ult T)) as [|o l] eqn:Ef; [simpl; lia|].
    rewrite (indices_unico k0); [simpl; lia|discriminate|].
    apply List.Forall_forall. intros o' Ho'. rewrite <- Ef in Ho'.
    apply filter_In in Ho' as [Ho' _]. auto.
  - rewrite pivot_table_vacia. split.
    + intros Hf r Hr Hmax. apply (proj2 (Hult r Hr)) in Hmax.
      destruct (is_nan (latest_value r)) eqn:En; [reflexivity|].
      assert (In (fila_openaq r) (List.filter con_valor (df_ult T))) as Hin
        by (apply filter_In; split; [exact Hmax|]; unfold con_valor; simpl;
            now rewrite En).
      rewrite Hf in Hin. destruct Hin.
    + intros Hnan.
      destruct (List.filter con_valor (df_ult T)) as [|o l] eqn:Ef;
        [reflexivity|exfalso].
      assert (In o (List.filter con_valor (df_ult T))) as Hin
        by (rewrite Ef; now left).
      apply filter_In in Hin as [Hin Hv].
      pose proof (proj1 (df_ult_In _ _ Hin)) as (r & <- & Hr)%in_map_iff.
      specialize (Hnan r Hr (proj1 (Hult r Hr) Hin)).
      unfold con_valor in Hv. simpl in Hv. rewrite Hnan in Hv. discriminate.
  - intros k fila Hin.
    assert (exists r0, In r0 lecturas /\ momento r0 = k /\
                       In (fila_openaq r0) (df_ult T)) as (r0 & Hr0 & Hk & Hu0).
    { assert (In k (indices (List.filter con_valor (df_ult T)))) as Hki.
      { unfold pivot_table in Hin. apply in_map_iff in Hin as (k' & [= <- _] & Hk').
        exact Hk'. }
      apply indices_In in Hki as (o & [Ho _]%filter_In & Hok).
      pose proof (proj1 (df_ult_In _ _ Ho)) as (r & <- & Hr)%in_map_iff.
      eauto. }
    assert (forall p, is_Some (fila !! p) <->
              exists r, In r lecturas /\ momento r = k /\
                        is_nan (latest_value r) = false /\
                        str_upper (parameter_name r) = p) as Hcols.
    { intros p. rewrite (pivot_table_columna aggfunc _ _ _ p Hin). split.
      - intros (o & Ho & Hv & Hp).
        pose proof (proj1 (df_ult_In _ _ Ho)) as (r & <- & Hr)%in_map_iff.
        exists r. split; [exact Hr|]. split.
        + unfold momento. rewrite <- Hk. unfold momento.
          rewrite (Hk0 _ Ho), (Hk0 _ Hu0). reflexivity.
        + unfold con_valor in Hv. simpl in Hv, Hp.
          split; [now destruct (is_nan (latest_value r))|exact Hp].
      - intros (r & Hr & Hm & Hn & Hp). exists (fila_openaq r).
        split; [|split; [unfold con_valor; simpl; now rewrite Hn|exact Hp]].
        apply (proj2 (Hult r Hr)). intros r' Hr'. rewrite Hm, <- Hk.
        exact (proj1 (Hult r0 Hr0) Hu0 r' Hr'). }
    split; [|split; [exact Hcols|]].
    + intros r Hr. rewrite <- Hk. exact (proj1 (Hult r0 Hr0) Hu0 r Hr).
    + intros p Hp. apply (proj1 (Hcols p)) in Hp as (r & Hr & _ & _ & <-).
      split; [apply str_upper_ascii, Hasc, Hr|apply str_upper_idem].
Qed.

End UltimaHora.

Lemma openaq_ultima_hora_testigo :
  let df := default [] (tabla_de (get_openaq_data mean mundo_desfasado 10860
                                    (api_key 0))) in
  exists sensors resto dfs,
    v3_locations mundo_desfasado 10860 (api_key 0) = Json (sensors :: resto) /\
    Forall2 (fun s filas => v3_sensors mundo_desfasado s (api_key 0) = Json filas)
            sensors dfs /\
    let lecturas := concat dfs in
    let momento r := o_indice (fila_openaq r) in
    (length df <= 1)%nat /\
    (df = [] <->
     forall r, In r lecturas ->
               (forall r', In r' lecturas ->
                           indice_cmp (momento r') (momento r) <> Gt) ->
               is_nan (latest_value r) = true) /\
    forall k fila,
      In (k, fila) df ->
      (forall r, In r lecturas -> indice_cmp (momento r) k <> Gt) /\
      (forall p, is_Some (fila !! p) <->
                 exists r, In r lecturas /\ momento r = k /\
                           is_nan (latest_value r) = false /\
                           str_upper (parameter_name r) = p) /\
      (forall p, is_Some (fila !! p) ->
                 es_ascii p = true /\ str_upper p = p).
Proof.
  apply (openaq_ultima_hora mean mundo_desfasado 10860 (api_key 0) _ []
           eq_refl).
  intros s filas r. simpl.
  destruct (s =? 1); intros [= <-] [<-|[]]; reflexivity.
Defined.

(** The station whose second sensor is an hour ahead, evaluated: the row is
    of 13 h and has the value of the second sensor only. *)
Example desfasado_evaluado :
  let df := tabla_de (get_openaq_data mean mundo_desfasado 10860 (api_key 0)) in
  filas df = 1%nat /\ indice1 df = Some (FechaDia 739000, 13) /\
  map_to_list (fila1 df) = [("NOX", 0.3%float)].
Proof. vm_compute. repeat split. Qed.

(* ===================================================================== *)
(** * The messages of a scan *)
(* ===================================================================== *)

Section Avisos.

Variable get_sinaica : Z -> respuesta_t.
Variable get_openaq : Z -> string -> respuesta_t.
Variable fuente_seleccionada : seleccion.

Hypothesis sinaica_no_interrumpe : forall estId, no_interrumpe (get_sinaica estId).
Hypothesis openaq_no_interrumpe :
  forall estId API_KEY, no_interrumpe (get_openaq estId API_KEY).

Local Abbreviation avisos' :=
  (avisos_de get_sinaica get_openaq fuente_seleccionada).

Lemma consulta_sinaica_avisos (estacion : string) (i : estacion_info)
    (st : estado) :
  exists st',
    consulta_sinaica get_sinaica estacion i st = (st', Ok tt) /\
    avisos st' = avisos st
      ++ avisos_consulta "SINAICA" estacion (get_sinaica (sinaica i)).
Proof.
  pose proof (sinaica_no_interrumpe (sinaica i)) as Hr.
  unfold consulta_sinaica, avisos_consulta, intentar, levantar, modificar,
    leer, mbind, prog_bind, mret, prog_ret. simpl.
  destruct (get_sinaica (sinaica i)) as [[df ds]|e]; simpl in *.
  - destruct (sin_datos df); simpl.
    + eexists. split; [reflexivity|]. simpl. now rewrite app_nil_r.
    + destruct (preparar "SINAICA" estacion df) as [t|e] eqn:Ep; simpl.
      * unfold falta_sinaica at 1. simpl. fold (falta_sinaica estacion st).
        destruct (falta_sinaica estacion st); simpl;
          (eexists; split; [reflexivity|]; simpl; now rewrite app_nil_r).
      * rewrite (preparar_Exception _ _ _ _ Ep).
        eexists. split; [reflexivity|]. simpl. now rewrite app_assoc.
  - rewrite Hr. eexists. split; [reflexivity|]. reflexivity.
Qed.

Lemma consulta_openaq_avisos (idx : nat) (estacion : string)
    (i : estacion_info) (st : estado) :
  exists st',
    consulta_openaq get_openaq idx estacion i st = (st', Ok tt) /\
    avisos st' = avisos st
      ++ avisos_consulta "OPENAQ" estacion
           (get_openaq (openaq i) (api_key idx)).
Proof.
  pose proof (openaq_no_interrumpe (openaq i) (api_key idx)) as Hr.
  unfold consulta_openaq, avisos_consulta, intentar, levantar, modificar,
    leer, mbind, prog_bind, mret, prog_ret. simpl.
  destruct (get_openaq (openaq i) (api_key idx)) as [[df ds]|e]; simpl in *.
  - destruct (sin_datos df); simpl.
    + eexists. split; [reflexivity|]. simpl. now rewrite app_nil_r.
    + destruct (preparar "OPENAQ" estacion df) as [t|e] eqn:Ep; simpl.
      * unfold falta at 1. simpl. fold (falta estacion st).
        destruct (falta estacion st); simpl;
          (eexists; split; [reflexivity|]; simpl; now rewrite app_nil_r).
      * rewrite (preparar_Exception _ _ _ _ Ep).
        eexists. split; [reflexivity|]. simpl. now rewrite app_assoc.
  - rewrite Hr. eexists. split; [reflexivity|]. reflexivity.
Qed.

Lemma paso_avisos (idx : nat) (estacion : string) (i : estacion_info)
    (st : estado) :
  ESTACIONES !! estacion = Some i ->
  exists st',
    paso get_sinaica get_openaq fuente_seleccionada idx estacion st
    = (st', Ok tt) /\
    avisos st' = avisos st ++ avisos' idx estacion i.
Proof.
  intros Hi.
  unfold paso, avisos_de, mbind, prog_bind, levantar, mret, prog_ret.
  rewrite Hi.
  destruct (pide_sinaica fuente_seleccionada).
  - destruct (consulta_sinaica_avisos estacion i st) as (st1 & E1 & A1).
    rewrite E1.
    destruct (pide_openaq fuente_seleccionada).
    + destruct (consulta_openaq_avisos idx estacion i st1) as (st2 & E2 & A2).
      exists st2. split; [exact E2|]. now rewrite A2, A1, app_assoc.
    + exists st1. split; [reflexivity|]. now rewrite A1, app_nil_r.
  - destruct (pide_openaq fuente_seleccionada).
    + destruct (consulta_openaq_avisos idx estacion i st) as (st2 & E2 & A2).
      exists st2. split; [exact E2|]. exact A2.
    + exists st. split; [reflexivity|]. simpl. now rewrite app_nil_r.
Qed.

Lemma recorrer_avisos (estaciones : list string) :
  forall (n : nat) (st : estado),
    Forall (fun e => is_Some (ESTACIONES !! e)) estaciones ->
    exists st',
      recorrer get_sinaica get_openaq fuente_seleccionada n estaciones st
      = (st', Ok tt) /\
      avisos st' = avisos st
        ++ concat (imap (fun j e =>
                           match ESTACIONES !! e with
                           | Some i => avisos' (n + j) e i
                           | None => []
                           end) estaciones).
Proof.
  induction estaciones as [|estacion resto IH]; intros n st Hin.
  - exists st. simpl. now rewrite app_nil_r.
  - inversion Hin as [|? ? [i Hi] Hin']; subst.
    destruct (paso_avisos n estacion i st Hi) as (st1 & E1 & A1).
    destruct (IH (S n) st1 Hin') as (st2 & E2 & A2).
    exists st2. split.
    + simpl. unfold mbind, prog_bind. rewrite E1. exact E2.
    + rewrite A2, A1. simpl. rewrite Hi, Nat.add_0_r, <- app_assoc.
      do 3 f_equal. apply imap_ext. intros j e _. simpl.
      now rewrite Nat.add_succ_r.
Qed.

Lemma avisos_consulta_In (fuente e : string) (r : respuesta_t)
    (d : diagnostico) :
  no_interrumpe r -> In d (avisos_consulta fuente e r) ->
  (exists df ds, r = Ok (df, ds) /\ In d ds) \/
  (exists x, d = ErrorConsulta fuente e x /\ es_Exception x = true).
Proof.
  destruct r as [[df ds]|x]; simpl; intros Hr Hd.
  - apply in_app_or in Hd as [Hd|Hd]; [left; eauto|right].
    destruct (sin_datos df); [destruct Hd|].
    destruct (preparar fuente e df) as [t|x] eqn:Ep; [destruct Hd|].
    destruct Hd as [<-|[]]. exists x. split; [reflexivity|].
    exact (preparar_Exception _ _ _ _ Ep).
  - destruct Hd as [<-|[]]. right. eauto.
Qed.

(** X11. No message is lost in a scan, and none comes from elsewhere.
    Whatever the fetchers answer, the scan runs to its end; every message
    that a fetch of a selected station returned is on the page afterwards;
    and every message on the page is one that such a fetch returned, or
    the message of the loop's handler for a requested source of a selected
    station, carrying a Python [Exception]. *)
Theorem avisos_del_recorrido (estaciones_seleccionadas : list string) :
  Forall (fun e => is_Some (ESTACIONES !! e)) estaciones_seleccionadas ->
  exists st,
    escanear get_sinaica get_openaq fuente_seleccionada
             estaciones_seleccionadas = (st, Ok tt) /\
    (forall idx e i df ds d,
       estaciones_seleccionadas !! idx = Some e ->
       ESTACIONES !! e = Some i ->
       (pide_sinaica fuente_seleccionada = true /\
        get_sinaica (sinaica i) = Ok (df, ds)) \/
       (pide_openaq fuente_seleccionada = true /\
        get_openaq (openaq i) (api_key idx) = Ok (df, ds)) ->
       In d ds -> In d (avisos st)) /\
    (forall d,
       In d (avisos st) ->
       (exists idx e i df ds,
          estaciones_seleccionadas !! idx = Some e /\
          ESTACIONES !! e = Some i /\
          In d ds /\
          ((pide_sinaica fuente_seleccionada = true /\
            get_sinaica (sinaica i) = Ok (df, ds)) \/
           (pide_openaq fuente_seleccionada = true /\
            get_openaq (openaq i) (api_key idx) = Ok (df, ds)))) \/
       (exists fuente e x,
          d = ErrorConsulta fuente e x /\
          In e estaciones_seleccionadas /\
          es_Exception x = true /\
          ((fuente = "SINAICA" /\ pide_sinaica fuente_seleccionada = true) \/
           (fuente = "OPENAQ" /\ pide_openaq fuente_seleccionada = true)))).
Proof.
  intros Hin.
  destruct (recorrer_avisos estaciones_seleccionadas 0 estado_inicial Hin)
    as (st & E & A).
  simpl in A. exists st. split; [exact E|]. split.
  - intros idx e i df ds d Hidx Hi Hf Hd. rewrite A.
    apply in_concat. exists (avisos' idx e i). split.
    + apply list_elem_of_In, elem_of_lookup_imap. exists idx, e.
      split; [now rewrite Hi|exact Hidx].
    + unfold avisos_de. apply in_or_app.
      destruct Hf as [[-> Hf]|[-> Hf]]; [left|right]; rewrite Hf; simpl;
        apply in_or_app; now left.
  - intros d Hd. rewrite A in Hd.
    apply in_concat in Hd as (l & Hl & Hd).
    apply list_elem_of_In, elem_of_lookup_imap in Hl as (idx & e & -> & Hidx).
    assert (In e estaciones_seleccionadas) as He
      by (apply list_elem_of_In, list_elem_of_lookup; eauto).
    destruct (ESTACIONES !! e) as [i|] eqn:Hi; [|destruct Hd].
    unfold avisos_de in Hd. apply in_app_or in Hd as [Hd|Hd].
    + destruct (pide_sinaica fuente_seleccionada) eqn:Hp; [|destruct Hd].
      apply avisos_consulta_In in Hd as [(df & ds & Hr & Hd)|(x & -> & Hx)];
        [| |apply sinaica_no_interrumpe].
      * left. exists idx, e, i, df, ds. repeat split; auto.
      * right. exists "SINAICA", e, x. repeat split; auto.
    + destruct (pide_openaq fuente_seleccionada) eqn:Hp; [|destruct Hd].
      apply avisos_consulta_In in Hd as [(df & ds & Hr & Hd)|(x & -> & Hx)];
        [| |apply openaq_no_interrumpe].
      * left. exists idx, e, i, df, ds. repeat split; auto.
      * right. exists "OPENAQ", e, x. repeat split; auto.
Qed.

End Avisos.

Lemma avisos_del_recorrido_testigo :
  exists st,
    escanear (get_sinaica_data mean mundo_sensores)
             (get_openaq_data mean mundo_sensores)
             Ambas ["Merced"] = (st, Ok tt) /\
    (forall idx e i df ds d,
       ["Merced"] !! idx = Some e ->
       ESTACIONES !! e = Some i ->
       (pide_sinaica Ambas = true /\
        get_sinaica_data mean mundo_sensores (sinaica i) = Ok (df, ds)) \/
       (pide_openaq Ambas = true /\
        get_openaq_data mean mundo_sensores (openaq i) (api_key idx)
        = Ok (df, ds)) ->
       In d ds -> In d (avisos st)) /\
    (forall d,
       In d (avisos st) ->
       (exists idx e i df ds,
          ["Merced"] !! idx = Some e /\
          ESTACIONES !! e = Some i /\
          In d ds /\
          ((pide_sinaica Ambas = true /\
            get_sinaica_data mean mundo_sensores (sinaica i) = Ok (df, ds)) \/
           (pide_openaq Ambas = true /\
            get_openaq_data mean mundo_sensores (openaq i) (api_key idx)
            = Ok (df, ds)))) \/
       (exists fuente e x,
          d = ErrorConsulta fuente e x /\
          In e ["Merced"] /\
          es_Exception x = true /\
          ((fuente = "SINAICA" /\ pide_sinaica Ambas = true) \/
           (fuente = "OPENAQ" /\ pide_openaq Ambas = true)))).
Proof.
  apply avisos_del_recorrido.
  - intros estId. apply get_sinaica_data_no_interrumpe.
  - intros estId API_KEY. apply get_openaq_data_no_interrumpe.
  - repeat constructor. vm_compute. eauto.
Defined.
